(** * Citation search: normaliser, source adapters, aggregator, synthesiser

    Shallow embedding of the extension's core (the TypeScript source with
    the three adapters arXiv, Crossref and DBLP) and the properties of its
    specification.

    Strings.  A JavaScript string is a sequence of UTF-16 code units.  The
    embedding uses [string], whose characters are the 256 code units
    U+0000..U+00FF (Latin-1); the character classes of the regular
    expressions ([\s], [\d], [[a-z0-9]], [[A-Za-z0-9]]) and [toLowerCase]
    are the JavaScript ones restricted to that range. *)

From Stdlib Require Import String Ascii List Bool NArith ZArith Lia Permutation.
Import ListNotations.

Local Open Scope string_scope.
Local Open Scope list_scope.

(* ================================================================== *)
(** ** JavaScript string primitives *)

Module Js.

Definition code (c : ascii) : N := N_of_ascii c.

(** [\s]: TAB, LF, VT, FF, CR, SPACE and NBSP (U+00A0) are the white space
    and line terminator code units below U+0100. *)
Definition is_space (c : ascii) : bool :=
  let n := code c in
  ((9 <=? n) && (n <=? 13) || (n =? 32) || (n =? 160))%N.

(** [\d] *)
Definition is_digit (c : ascii) : bool :=
  let n := code c in ((48 <=? n) && (n <=? 57))%N.

Definition is_lower (c : ascii) : bool :=
  let n := code c in ((97 <=? n) && (n <=? 122))%N.

Definition is_upper (c : ascii) : bool :=
  let n := code c in ((65 <=? n) && (n <=? 90))%N.

(** [[a-z0-9]] *)
Definition is_lower_alnum (c : ascii) : bool := is_lower c || is_digit c.

(** [[A-Za-z0-9]] *)
Definition is_alnum (c : ascii) : bool := is_upper c || is_lower c || is_digit c.

(** Upper-case letters of Latin-1 besides A-Z: U+00C0..U+00DE without the
    multiplication sign U+00D7. *)
Definition is_upper_latin1 (c : ascii) : bool :=
  let n := code c in ((192 <=? n) && (n <=? 222) && negb (n =? 215))%N.

Definition lower_char (c : ascii) : ascii :=
  if is_upper c || is_upper_latin1 c then ascii_of_N (code c + 32) else c.

(** [s.toLowerCase()] *)
Fixpoint toLowerCase (s : string) : string :=
  match s with
  | EmptyString => EmptyString
  | String c s' => String (lower_char c) (toLowerCase s')
  end.

Fixpoint filter (keep : ascii -> bool) (s : string) : string :=
  match s with
  | EmptyString => EmptyString
  | String c s' => if keep c then String c (filter keep s') else filter keep s'
  end.

Fixpoint all (p : ascii -> bool) (s : string) : bool :=
  match s with
  | EmptyString => true
  | String c s' => p c && all p s'
  end.

Definition is_empty (s : string) : bool :=
  match s with EmptyString => true | String _ _ => false end.

(** Drop the longest prefix, resp. suffix, whose characters satisfy [p]. *)
Fixpoint dropStart (p : ascii -> bool) (s : string) : string :=
  match s with
  | EmptyString => EmptyString
  | String c s' => if p c then dropStart p s' else s
  end.

Fixpoint dropEnd (p : ascii -> bool) (s : string) : string :=
  match s with
  | EmptyString => EmptyString
  | String c s' =>
      let r := dropEnd p s' in
      if p c && is_empty r then EmptyString else String c r
  end.

(** [s.trim()] *)
Definition trim (s : string) : string := dropEnd is_space (dropStart is_space s).

(** [s.startsWith(pre)] *)
Definition startsWith (pre s : string) : bool := String.prefix pre s.

(** [s.includes(sub)] *)
Fixpoint includes (sub s : string) : bool :=
  if String.prefix sub s then true
  else match s with
       | EmptyString => false
       | String _ s' => includes sub s'
       end.

(** Put [c] in front of the first piece of a split. *)
Definition push_char (c : ascii) (pieces : list string) : list string :=
  match pieces with
  | t :: ts => String c t :: ts
  | [] => [String c EmptyString]
  end.

(** [s.split(sep)] for a non-empty separator string: [skip] counts the
    characters of a separator occurrence still to be passed over. *)
Fixpoint split_from (sep : string) (skip : nat) (s : string) : list string :=
  match s with
  | EmptyString => [EmptyString]
  | String c s' =>
      match skip with
      | S k => split_from sep k s'
      | O =>
          if String.prefix sep s
          then EmptyString :: split_from sep (String.length sep - 1) s'
          else push_char c (split_from sep 0 s')
      end
  end.

Definition split (sep s : string) : list string := split_from sep 0 s.

(** [s.split(/\s+/)]: the pieces between the maximal runs of white space;
    [in_run] holds while a run is being passed over.  A leading or trailing
    run leaves an empty first or last piece, and the empty string splits
    into one empty piece. *)
Fixpoint split_ws_from (in_run : bool) (s : string) : list string :=
  match s with
  | EmptyString => [EmptyString]
  | String c s' =>
      if is_space c then
        if in_run then split_ws_from true s'
        else EmptyString :: split_ws_from true s'
      else push_char c (split_ws_from false s')
  end.

Definition split_ws (s : string) : list string := split_ws_from false s.

(** [s.replace(/\s+/g, " ")]: every maximal run of white space becomes one
    space. *)
Fixpoint collapse_from (in_run : bool) (s : string) : string :=
  match s with
  | EmptyString => EmptyString
  | String c s' =>
      if is_space c then
        if in_run then collapse_from true s'
        else String " " (collapse_from true s')
      else String c (collapse_from false s')
  end.

Definition collapse_ws (s : string) : string := collapse_from false s.

(** [s.replace(/_/g, " ")] *)
Fixpoint underscores_to_spaces (s : string) : string :=
  match s with
  | EmptyString => EmptyString
  | String c s' =>
      String (if Ascii.eqb c "_" then " "%char else c) (underscores_to_spaces s')
  end.

(** [l.join(sep)] *)
Definition join (sep : string) (l : list string) : string := String.concat sep l.

(** [s.slice(0, 4)] *)
Definition slice_0_4 (s : string) : string := String.substring 0 4 s.

Definition nl : string := String "010" EmptyString.

End Js.

(* ================================================================== *)
(** ** Types *)

Inductive Source : Set := arxiv | crossref | dblp.

Record Paper : Set := mkPaper {
  source : Source;
  title : string;
  authors : list string;
  year : string;
  id : string;                 (* arXiv ID, DOI, or URL *)
  journal : option string
}.

Record PaperPickItem : Set := mkItem {
  label : string;
  detail : string;
  paper : Paper
}.

(* ================================================================== *)
(** ** Helper functions (normaliser) *)

Definition STOPWORDS : list string := ["a"; "an"; "the"].

Definition STOPWORDS_has (w : string) : bool :=
  existsb (String.eqb w) STOPWORDS.

(** [s.toLowerCase().replace(/[^a-z0-9]+/g, "")] *)
Definition clean (s : string) : string :=
  Js.filter Js.is_lower_alnum (Js.toLowerCase s).

(** Does the whole of [s] match [\s+\d{1,4}]?  White space and digits are
    disjoint, so the greedy [\s+] leaves exactly the digit group. *)
Definition ws_digits (s : string) : bool :=
  match s with
  | EmptyString => false
  | String c s' =>
      Js.is_space c &&
      (let d := Js.dropStart Js.is_space s' in
       (1 <=? String.length d)%nat && (String.length d <=? 4)%nat &&
       Js.all Js.is_digit d)
  end.

(** [s.replace(/\s+\d{1,4}$/, "")]: the match is looked for from the left;
    the first position whose whole rest matches is cut off. *)
Fixpoint stripNumericSuffix (s : string) : string :=
  if ws_digits s then EmptyString
  else match s with
       | EmptyString => EmptyString
       | String c s' => String c (stripNumericSuffix s')
       end.

Definition surname (input : string) : string :=
  let s := stripNumericSuffix (Js.trim input) in
  if Js.includes "," s then Js.trim (hd EmptyString (Js.split "," s))
  else
    let tokens := Js.split_ws s in
    last tokens EmptyString.

(** [w.replace(/^[^A-Za-z0-9]+|[^A-Za-z0-9]+$/g, "")] *)
Definition strip_punct (w : string) : string :=
  let not_alnum c := negb (Js.is_alnum c) in
  Js.dropEnd not_alnum (Js.dropStart not_alnum w).

Definition title_words (title : string) : list string :=
  List.filter (fun w => negb (Js.is_empty w))
              (List.map strip_punct (Js.split_ws title)).

Definition firstWord (title : string) : string :=
  let words := title_words title in
  match List.find (fun w => negb (STOPWORDS_has (Js.toLowerCase w))) words with
  | Some w => w
  | None => hd "paper" words
  end.

(** [p.authors[0] ?? "anon"] *)
Definition firstAuthorOrFallback (l : list string) : string :=
  match nth_error l 0 with
  | Some a => a
  | None => "anon"
  end.

Definition bibKey (p : Paper) : string :=
  clean (surname (firstAuthorOrFallback (authors p)))
  ++ year p
  ++ clean (firstWord (title p)).

(* ================================================================== *)
(** ** Key and record synthesiser *)

Record BibEntry : Set := mkBib { key : string; text : string }.

Definition base (p : Paper) : string :=
  "@article{" ++ bibKey p ++ "," ++ Js.nl ++
  "  title  = {" ++ title p ++ "}," ++ Js.nl ++
  "  author = {" ++ Js.join " and " (authors p) ++ "}," ++ Js.nl ++
  "  year   = {" ++ year p ++ "},".

Definition or_default (o : option string) (d : string) : string :=
  match o with Some s => s | None => d end.

Definition idField (p : Paper) : string :=
  if Js.startsWith "10." (id p)
  then "doi    = {" ++ id p ++ "}"
  else "url    = {" ++ id p ++ "}".

Definition bibtex (p : Paper) : BibEntry :=
  let key := bibKey p in
  match source p with
  | arxiv =>
      mkBib key
        (base p ++ Js.nl ++
         "  journal= {arXiv}," ++ Js.nl ++
         "  eprint = {" ++ id p ++ "}" ++ Js.nl ++
         "}" ++ Js.nl)
  | crossref =>
      mkBib key
        (base p ++ Js.nl ++
         "  journal= {" ++ or_default (journal p) "journal" ++ "}," ++ Js.nl ++
         "  doi    = {" ++ id p ++ "}" ++ Js.nl ++
         "}" ++ Js.nl)
  | dblp =>
      mkBib key
        (base p ++ Js.nl ++
         "  journal= {" ++ or_default (journal p) "conference" ++ "}," ++ Js.nl ++
         "  " ++ idField p ++ Js.nl ++
         "}" ++ Js.nl)
  end.

(* ================================================================== *)
(** ** Raw responses

    The adapters read the parsed responses as [any].  A raw value is a
    JavaScript value as [JSON.parse] and the XML parser build them: plain
    data without methods of their own.  A number is carried by its decimal
    rendering, the only thing the adapters ever ask of it.  An object is
    the list of its own properties, each name once ([lookup] takes the
    first binding of a name). *)

#[local] Set Warnings "-register-all".

Inductive JsVal : Set :=
| JUndefined
| JNull
| JBool (b : bool)
| JNum (repr : string)
| JStr (s : string)
| JArr (elems : list JsVal)
| JObj (props : list (string * JsVal)).

(** A computation that can fail.  In the functions that follow the
    program, [None] is a thrown [TypeError]. *)
Definition bind {A B : Type} (m : option A) (f : A -> option B) : option B :=
  match m with Some a => f a | None => None end.

Notation "x <- m ;; k" := (bind m (fun x => k))
  (at level 61, m at next level, right associativity).

Fixpoint mapM {A B : Type} (f : A -> option B) (l : list A) : option (list B) :=
  match l with
  | [] => Some []
  | a :: l' => b <- f a ;; bs <- mapM f l' ;; Some (b :: bs)
  end.

Fixpoint lookup (k : string) (props : list (string * JsVal)) : JsVal :=
  match props with
  | [] => JUndefined
  | (k', v) :: rest => if String.eqb k k' then v else lookup k rest
  end.

Definition nullish (v : JsVal) : bool :=
  match v with JUndefined | JNull => true | _ => false end.

(** [v?.k] for the property names the adapters read. *)
Definition oget (v : JsVal) (k : string) : JsVal :=
  match v with
  | JObj props => lookup k props
  | _ => JUndefined
  end.

(** [v.k]: a [TypeError] on [undefined] and [null]. *)
Definition get (v : JsVal) (k : string) : option JsVal :=
  if nullish v then None else Some (oget v k).

(** [v?.[0]] *)
Definition oindex0 (v : JsVal) : JsVal :=
  match v with
  | JArr l => hd JUndefined l
  | JStr (String c _) => JStr (String c EmptyString)
  | JObj props => lookup "0" props
  | _ => JUndefined
  end.

(** [a ?? b] *)
Definition coalesce (a b : JsVal) : JsVal := if nullish a then b else a.

(** The object has an own property named [k]. *)
Definition has_own (k : string) (props : list (string * JsVal)) : bool :=
  existsb (fun kv => String.eqb k (fst kv)) props.

(** [String(v)], also the conversion of a template literal and, off
    [undefined] and [null], of [v.toString()].  An array is rendered by
    [join], its elements in turn.  A parsed object has no method of its
    own, so the conversion finds [Object.prototype.toString] and the result
    is "[object Object]"; unless the object has an own property named
    "toString", which is data and cannot be called: then the conversion
    throws a [TypeError]. *)
Fixpoint ToString (v : JsVal) : option string :=
  match v with
  | JUndefined => Some "undefined"
  | JNull => Some "null"
  | JBool true => Some "true"
  | JBool false => Some "false"
  | JNum repr => Some repr
  | JStr s => Some s
  | JArr elems =>
      parts <- (fix each (l : list JsVal) : option (list string) :=
                  match l with
                  | [] => Some []
                  | x :: l' =>
                      s <- (if nullish x then Some EmptyString else ToString x) ;;
                      ss <- each l' ;;
                      Some (s :: ss)
                  end) elems ;;
      Some (Js.join "," parts)
  | JObj props =>
      if has_own "toString" props then None else Some "[object Object]"
  end.

(** [v?.toString()] *)
Definition otoString (v : JsVal) : option JsVal :=
  if nullish v then Some JUndefined else s <- ToString v ;; Some (JStr s).

(** [x === "..."] *)
Definition strictEquals (v : JsVal) (s : string) : bool :=
  match v with JStr x => String.eqb x s | _ => false end.

Definition expect_string (v : JsVal) : option string :=
  match v with JStr s => Some s | _ => None end.

(** A field declared [journal?: string]. *)
Definition expect_optional_string (v : JsVal) : option (option string) :=
  match v with
  | JStr s => Some (Some s)
  | JUndefined | JNull => Some None
  | _ => None
  end.

(* ================================================================== *)
(** ** Author string sanitiser (all sources) *)

Definition toAuthorStr (a : JsVal) : option string :=
  raw <- match a with
         | JStr _ => Some a
         | _ =>
             if negb (nullish (oget a "text")) then Some (oget a "text")
             else if negb (nullish (oget a "#text")) then Some (oget a "#text")
             else if negb (nullish (oget a "name")) then Some (oget a "name")
             else
               family <- get a "family" ;;
               given <- get a "given" ;;
               f <- ToString (coalesce family (JStr "")) ;;
               g <- ToString (coalesce given (JStr "")) ;;
               Some (JStr (f ++ " " ++ g))
         end ;;
  raw <- ToString raw ;;
  let raw := Js.trim raw in
  Some (stripNumericSuffix raw).

(* ================================================================== *)
(** ** The program at run time

    The interface [Paper] is erased when the program runs.  An adapter
    stores in a record what the response holds, whatever it is, and the
    synthesiser is handed the record of the selected item as it is.
    [Untyped.Paper] is such a record: each property is a raw value,
    [JUndefined] if the property is absent.  The functions of this module
    are the adapters' mappings and the synthesiser as they run: [None] is
    a thrown [TypeError] (the promise of an adapter rejects), and [Some]
    holds what is returned, of the declared type or not. *)

Module Untyped.

Record Paper : Set := mkPaper {
  source : JsVal;
  title : JsVal;
  authors : JsVal;
  year : JsVal;
  id : JsVal;
  journal : JsVal
}.

(** *** Key and record synthesiser *)

(** [p.authors[0] ?? "anon"] *)
Definition firstAuthorOrFallback (p : Paper) : option JsVal :=
  if nullish (authors p) then None
  else Some (coalesce (oindex0 (authors p)) (JStr "anon")).

(** [surname] begins with [String(input)]; [firstWord] calls [split] on
    the title, a method of strings only. *)
Definition bibKey (p : Paper) : option string :=
  first <- firstAuthorOrFallback p ;;
  name <- ToString first ;;
  y <- ToString (year p) ;;
  t <- expect_string (title p) ;;
  Some (clean (surname name) ++ y ++ clean (firstWord t))%string.

(** [p.authors.join(" and ")], a method of arrays only. *)
Definition joinAuthors (v : JsVal) : option string :=
  match v with
  | JArr l =>
      parts <- mapM (fun x => if nullish x then Some EmptyString else ToString x) l ;;
      Some (Js.join " and " parts)
  | _ => None
  end.

Definition bibtex (p : Paper) : option BibEntry :=
  k <- bibKey p ;;
  names <- joinAuthors (authors p) ;;
  t <- ToString (title p) ;;
  y <- ToString (year p) ;;
  let base := ("@article{" ++ k ++ "," ++ Js.nl ++
               "  title  = {" ++ t ++ "}," ++ Js.nl ++
               "  author = {" ++ names ++ "}," ++ Js.nl ++
               "  year   = {" ++ y ++ "},")%string in
  if strictEquals (source p) "arxiv" then
    i <- ToString (id p) ;;
    Some (mkBib k
            (base ++ Js.nl ++
             "  journal= {arXiv}," ++ Js.nl ++
             "  eprint = {" ++ i ++ "}" ++ Js.nl ++
             "}" ++ Js.nl))
  else if strictEquals (source p) "crossref" then
    j <- ToString (coalesce (journal p) (JStr "journal")) ;;
    i <- ToString (id p) ;;
    Some (mkBib k
            (base ++ Js.nl ++
             "  journal= {" ++ j ++ "}," ++ Js.nl ++
             "  doi    = {" ++ i ++ "}" ++ Js.nl ++
             "}" ++ Js.nl))
  else
    (* DBLP: [p.id.startsWith], a method of strings only *)
    i <- expect_string (id p) ;;
    let idField := (if Js.startsWith "10." i
                    then "doi    = {" ++ i ++ "}"
                    else "url    = {" ++ i ++ "}")%string in
    j <- ToString (coalesce (journal p) (JStr "conference")) ;;
    Some (mkBib k
            (base ++ Js.nl ++
             "  journal= {" ++ j ++ "}," ++ Js.nl ++
             "  " ++ idField ++ Js.nl ++
             "}" ++ Js.nl)).

(** *** Source adapters: the mapping of the parsed response *)

(** The author strings of a record. *)
Definition strings (names : list string) : JsVal := JArr (List.map JStr names).

(** [v.slice(0, 4)], a method of strings and of arrays. *)
Definition slice_0_4 (v : JsVal) : option JsVal :=
  match v with
  | JStr s => Some (JStr (Js.slice_0_4 s))
  | JArr l => Some (JArr (firstn 4 l))
  | _ => None
  end.

(** [e.title.trim()] and [e.id.split("/abs/")] are methods of strings
    only; [split(...)[1]] is [undefined] if the id has no "/abs/". *)
Definition arxivEntry (e : JsVal) : option Paper :=
  t <- get e "title" ;;
  t <- expect_string t ;;
  au <- get e "author" ;;
  names <- mapM (fun a => name <- get a "name" ;; toAuthorStr name)
                (match au with JArr l => l | _ => [au] end) ;;
  published <- get e "published" ;;
  y <- slice_0_4 published ;;
  i <- get e "id" ;;
  i <- expect_string i ;;
  Some {| source := JStr "arxiv";
          title := JStr (Js.collapse_ws (Js.trim t));
          authors := strings names;
          year := y;
          id := match nth_error (Js.split "/abs/" i) 1 with
                | Some x => JStr x
                | None => JUndefined
                end;
          journal := JUndefined |}.

Definition searchArxiv (feed : JsVal) : option (list Paper) :=
  root <- get feed "feed" ;;
  let entries := coalesce (oget root "entry") (JArr []) in
  mapM arxivEntry (match entries with JArr l => l | _ => [entries] end).

(** [it.issued?.["date-parts"]?.[0]?.[0]?.toString() ??
     it.created?.["date-parts"]?.[0]?.[0]?.toString() ?? "????"] *)
Definition crossrefYear (it : JsVal) : option JsVal :=
  issued <- get it "issued" ;;
  y <- otoString (oindex0 (oindex0 (oget issued "date-parts"))) ;;
  if negb (nullish y) then Some y
  else
    created <- get it "created" ;;
    y <- otoString (oindex0 (oindex0 (oget created "date-parts"))) ;;
    Some (coalesce y (JStr "????")).

(** [(it.author ?? []).map(toAuthorStr)]: [map] is a method of arrays
    only. *)
Definition crossrefItem (it : JsVal) : option Paper :=
  t <- get it "title" ;;
  au <- get it "author" ;;
  names <- match coalesce au (JArr []) with
           | JArr l => mapM toAuthorStr l
           | _ => None
           end ;;
  y <- crossrefYear it ;;
  Some {| source := JStr "crossref";
          title := coalesce (oindex0 t) (JStr "(untitled)");
          authors := strings names;
          year := y;
          id := coalesce (oget it "DOI") (JStr "");
          journal := oindex0 (oget it "container-title") |}.

Definition searchCrossref (response : JsVal) : option (list Paper) :=
  message <- get response "message" ;;
  match coalesce (oget message "items") (JArr []) with
  | JArr items => mapM crossrefItem items
  | _ => None
  end.

(** [info.venue ?? info.journal ?? info.booktitle ??
     info.type?.replace(/_/g, " ")]: [replace] is a method of strings
    only. *)
Definition dblpJournal (info : JsVal) : option JsVal :=
  if negb (nullish (oget info "venue")) then Some (oget info "venue")
  else if negb (nullish (oget info "journal")) then Some (oget info "journal")
  else if negb (nullish (oget info "booktitle")) then Some (oget info "booktitle")
  else match oget info "type" with
       | JUndefined | JNull => Some JUndefined
       | JStr s => Some (JStr (Js.underscores_to_spaces s))
       | _ => None
       end.

(** [rawAuth] and [authorsArr]: one author or an array of them. *)
Definition dblpAuthors (info : JsVal) : option (list string) :=
  au <- get info "authors" ;;
  let rawAuth := coalesce (oget au "author") (JArr []) in
  match rawAuth with
  | JArr l => mapM toAuthorStr l
  | _ => a <- toAuthorStr rawAuth ;; Some [a]
  end.

Definition dblpHit (hit : JsVal) : option Paper :=
  info <- get hit "info" ;;
  authorsArr <- dblpAuthors info ;;
  t <- ToString (coalesce (oget info "title") (JStr "(untitled)")) ;;
  y <- ToString (coalesce (oget info "year") (JStr "????")) ;;
  j <- dblpJournal info ;;
  Some {| source := JStr "dblp";
          title := JStr (Js.collapse_ws t);
          authors := strings authorsArr;
          year := JStr y;
          id := coalesce (oget info "doi") (coalesce (oget info "url") (JStr ""));
          journal := j |}.

Definition searchDblp (response : JsVal) : option (list Paper) :=
  result <- get response "result" ;;
  match coalesce (oget (oget result "hits") "hit") (JArr []) with
  | JArr hits => mapM dblpHit hits
  | _ => None
  end.

End Untyped.

(* ================================================================== *)
(** ** Records of the declared type

    A run-time record seen as a [Paper] of the interface: [Some] if every
    property has the type the interface declares, [None] if not. *)

Definition typedSource (v : JsVal) : option Source :=
  if strictEquals v "arxiv" then Some arxiv
  else if strictEquals v "crossref" then Some crossref
  else if strictEquals v "dblp" then Some dblp
  else None.

Definition typed (r : Untyped.Paper) : option Paper :=
  src <- typedSource (Untyped.source r) ;;
  t <- expect_string (Untyped.title r) ;;
  a <- match Untyped.authors r with
       | JArr l => mapM expect_string l
       | _ => None
       end ;;
  y <- expect_string (Untyped.year r) ;;
  i <- expect_string (Untyped.id r) ;;
  j <- expect_optional_string (Untyped.journal r) ;;
  Some {| source := src; title := t; authors := a; year := y; id := i;
          journal := j |}.

(** The tag of a source, as the adapters write it. *)
Definition sourceTag (s : Source) : string :=
  match s with
  | arxiv => "arxiv"
  | crossref => "crossref"
  | dblp => "dblp"
  end.

(** A [Paper] as the run-time record it is. *)
Definition untyped (p : Paper) : Untyped.Paper :=
  {| Untyped.source := JStr (sourceTag (source p));
     Untyped.title := JStr (title p);
     Untyped.authors := Untyped.strings (authors p);
     Untyped.year := JStr (year p);
     Untyped.id := JStr (id p);
     Untyped.journal := match journal p with
                        | Some j => JStr j
                        | None => JUndefined
                        end |}.

(** ** Source adapters, on the responses that give records of the
    declared type

    The mapping of one raw item as a function into [Paper]: [Some] record
    when the mapping returns and what it returns is a [Paper] as the
    interface declares it; [None] when the mapping throws or returns
    a record that is none. *)

Definition arxivEntry (e : JsVal) : option Paper :=
  r <- Untyped.arxivEntry e ;; typed r.

Definition searchArxiv (feed : JsVal) : option (list Paper) :=
  root <- get feed "feed" ;;
  let entries := coalesce (oget root "entry") (JArr []) in
  mapM arxivEntry (match entries with JArr l => l | _ => [entries] end).

Definition crossrefItem (it : JsVal) : option Paper :=
  r <- Untyped.crossrefItem it ;; typed r.

Definition searchCrossref (response : JsVal) : option (list Paper) :=
  message <- get response "message" ;;
  match coalesce (oget message "items") (JArr []) with
  | JArr items => mapM crossrefItem items
  | _ => None
  end.

Definition dblpHit (hit : JsVal) : option Paper :=
  r <- Untyped.dblpHit hit ;; typed r.

Definition searchDblp (response : JsVal) : option (list Paper) :=
  result <- get response "result" ;;
  match coalesce (oget (oget result "hits") "hit") (JArr []) with
  | JArr hits => mapM dblpHit hits
  | _ => None
  end.

(* ================================================================== *)
(** ** Aggregator: the search session

    The three searches are started one after the other without waiting.
    On each search promise hangs the chain
    [.then(append).catch(showError).finally(finish)].  Callbacks run one
    at a time, each to its end, so a session is driven by the sequence of
    the callbacks in the order in which they run.  For a source that
    succeeds these are [Then] and afterwards [Finally]; for a source that
    fails, [Catch] and afterwards [Finally], which waits for what the
    [catch] callback returns, the promise of the error notification.
    Callbacks of different sources interleave freely. *)

Record QuickPick : Set := mkQuickPick {
  items : list PaperPickItem;
  busy : bool;
  placeholder : string
}.

Record Session : Set := mkSession {
  qp : QuickPick;
  pending : Z;
  errorMessages : list string      (* shown with showErrorMessage *)
}.

Inductive Callback : Set :=
| Then (src : Source) (papers : list Paper)
| Catch (src : Source) (message : string)
| Finally (src : Source).

Definition sourceLabel (s : Source) : string :=
  match s with
  | arxiv => "arXiv"
  | dblp => "DBLP"
  | crossref => "Crossref"
  end.

Definition toItems (papers : list Paper) : list PaperPickItem :=
  List.map (fun p =>
              {| label := title p;
                 detail := (Js.join ", " (authors p) ++ " (" ++ year p ++ ") [" ++
                            sourceLabel (source p) ++ "]")%string;
                 paper := p |})
           papers.

(** The session after [qp.show()]: nothing has arrived, three searches are
    pending.  (The placeholder ends with U+2026, here in UTF-8.) *)
Definition start : Session :=
  {| qp := {| items := [];
              busy := true;
              placeholder := "Searching arXiv, DBLP & Crossref…" |};
     pending := 3;
     errorMessages := [] |}.

Definition finish (s : Session) : Session :=
  let pending' := (pending s - 1)%Z in
  if (pending' =? 0)%Z then
    {| qp := {| items := items (qp s);
                busy := false;
                placeholder := match items (qp s) with
                               | [] => "No results found"
                               | _ :: _ => "Select a paper"
                               end |};
       pending := pending';
       errorMessages := errorMessages s |}
  else
    {| qp := qp s; pending := pending'; errorMessages := errorMessages s |}.

(** [.then(ps => qp.items = [...qp.items, ...toItems(ps)])] *)
Definition onFulfilled (papers : list Paper) (s : Session) : Session :=
  {| qp := {| items := items (qp s) ++ toItems papers;
              busy := busy (qp s);
              placeholder := placeholder (qp s) |};
     pending := pending s;
     errorMessages := errorMessages s |}.

(** [.catch(err => showErrorMessage(`<source> request failed: ${message}`))] *)
Definition onRejected (src : Source) (message : string) (s : Session) : Session :=
  {| qp := qp s;
     pending := pending s;
     errorMessages :=
       errorMessages s ++
       [(sourceLabel src ++ " request failed: " ++ message)%string] |}.

Definition step (s : Session) (cb : Callback) : Session :=
  match cb with
  | Then _ papers => onFulfilled papers s
  | Catch src message => onRejected src message s
  | Finally _ => finish s
  end.

Definition run (trace : list Callback) : Session := fold_left step trace start.

(** *** Traces *)

Definition origin (cb : Callback) : Source :=
  match cb with Then src _ | Catch src _ | Finally src => src end.

Definition Source_eqb (a b : Source) : bool :=
  match a, b with
  | arxiv, arxiv | crossref, crossref | dblp, dblp => true
  | _, _ => false
  end.

(** The callbacks of one source, in the order in which they run. *)
Definition chain (src : Source) (trace : list Callback) : list Callback :=
  List.filter (fun cb => Source_eqb (origin cb) src) trace.

(** The chain of a source has run to its end. *)
Definition chain_complete (src : Source) (l : list Callback) : Prop :=
  (exists papers, l = [Then src papers; Finally src]) \/
  (exists message, l = [Catch src message; Finally src]).

(** Every configured source has settled and its chain has run. *)
Definition complete (trace : list Callback) : Prop :=
  forall src, chain_complete src (chain src trace).

(** The search promise of [src] has settled: its [then] or its [catch]
    callback has run. *)
Definition has_settled (src : Source) (trace : list Callback) : bool :=
  existsb (fun cb => match cb with
                     | Then s _ | Catch s _ => Source_eqb s src
                     | Finally _ => false
                     end) trace.

(** The records a callback contributes. *)
Definition batch (cb : Callback) : list Paper :=
  match cb with
  | Then _ papers => papers
  | _ => []
  end.

(** The records of a trace, in the order of arrival. *)
Definition arrived (trace : list Callback) : list Paper := flat_map batch trace.

(** The number of chains that have reached [finish]. *)
Definition finished (trace : list Callback) : nat :=
  list_sum (List.map (fun cb => match cb with Finally _ => 1 | _ => 0 end) trace).

(* ================================================================== *)
(** ** Notions used to state the properties *)

(** White space occurs in [s] only as single space characters:
    [after_space] tells whether the character before was one. *)
Fixpoint collapsed_from (after_space : bool) (s : string) : bool :=
  match s with
  | EmptyString => true
  | String c s' =>
      if Js.is_space c
      then Ascii.eqb c " " && negb after_space && collapsed_from true s'
      else collapsed_from false s'
  end.

Definition collapsed (s : string) : bool := collapsed_from false s.

Definition no_space (s : string) : bool :=
  Js.all (fun c => negb (Js.is_space c)) s.

Definition is_stopword (w : string) : bool := STOPWORDS_has (Js.toLowerCase w).

(** The surname rule in the words of the specification: strip the numeric
    suffix; with a comma, everything before the first comma; without, the
    last token between white space. *)
Definition extractSurname_spec (name : string) : string :=
  let s := stripNumericSuffix name in
  if Js.includes "," s then hd EmptyString (Js.split "," s)
  else last (Js.split_ws s) EmptyString.

(** [cleanForKey] in the words of the specification: lower-case the
    string, then remove every character that is not in [[a-z0-9]]. *)
Fixpoint cleanForKey_spec (s : string) : string :=
  match s with
  | EmptyString => EmptyString
  | String c s' =>
      let l := Js.lower_char c in
      if Js.is_lower_alnum l then String l (cleanForKey_spec s')
      else cleanForKey_spec s'
  end.

(** [firstSignificantWord] in the words of the specification: the first
    token that is no stopword; "paper" if every token is a stopword or the
    title is empty. *)
Definition firstSignificantWord_spec (title : string) : string :=
  match List.find (fun w => negb (is_stopword w)) (title_words title) with
  | Some w => w
  | None => "paper"
  end.

(** [firstAuthorOrFallback] in the words of the specification. *)
Definition firstAuthorOrFallback_spec (authors : list string) : string :=
  match authors with
  | a :: _ => a
  | [] => "anon"
  end.

(** The key formula of the specification. *)
Definition key_spec (p : Paper) : string :=
  cleanForKey_spec (extractSurname_spec (firstAuthorOrFallback_spec (authors p)))
  ++ year p
  ++ cleanForKey_spec (firstSignificantWord_spec (title p)).

(** [String(v)] returns. *)
Definition renders (v : JsVal) : bool :=
  match ToString v with Some _ => true | None => false end.

(** No object in [v], at any depth, has an own property "toString". *)
Fixpoint plain (v : JsVal) : bool :=
  match v with
  | JArr elems =>
      (fix each (l : list JsVal) : bool :=
         match l with
         | [] => true
         | x :: l' => plain x && each l'
         end) elems
  | JObj props =>
      negb (has_own "toString" props) &&
      (fix each (l : list (string * JsVal)) : bool :=
         match l with
         | [] => true
         | (_, x) :: l' => plain x && each l'
         end) props
  | _ => true
  end.

(** The value that [toAuthorStr] renders when the raw author carries one
    of the properties text, #text and name. *)
Definition authorText (a : JsVal) : JsVal :=
  coalesce (oget a "text") (coalesce (oget a "#text") (oget a "name")).

(** What has run of the chain of a source at some point of a session:
    nothing, or its first callback, or both. *)
Definition chain_running (src : Source) (l : list Callback) : Prop :=
  l = [] \/
  (exists papers, l = [Then src papers] \/ l = [Then src papers; Finally src]) \/
  (exists message, l = [Catch src message] \/ l = [Catch src message; Finally src]).

(** A trace as the three chains can produce it. *)
Definition well_formed (trace : list Callback) : Prop :=
  forall src, chain_running src (chain src trace).

(* ================================================================== *)
(** ** Accepting a selection

    The handler of [qp.onDidAccept].  What it asks of the editor is given
    by an [Environment]; what it does to the editor is the list of its
    effects, in order.  [joinPath] and [asRelativePath] are the editor's. *)

Inductive Effect : Set :=
| Hide                                            (* qp.hide() *)
| ShowError (message : string)                    (* showErrorMessage *)
| ShowInformation (message : string)              (* showInformationMessage *)
| WriteFile (uri : string) (content : string)     (* workspace.fs.writeFile *)
| AskBibFile (choices : list (string * string))   (* showQuickPick: label, uri *)
| Insert (uri : string) (inserted : string)       (* edit.insert at the end, applyEdit *)
| Save (uri : string).                            (* openTextDocument(uri).save() *)

Record Environment : Set := mkEnvironment {
  selectedItems : list PaperPickItem;      (* qp.selectedItems *)
  bibFiles : list string;                  (* findFiles of the .bib pattern *)
  workspaceFolders : option (list string); (* the uris of workspace.workspaceFolders *)
  pickFile : option string;                (* the uri picked when asked, if any *)
  applyEdit : bool                         (* what applyEdit resolves to *)
}.

Section Accept.

Variable joinPath : string -> string -> string.
Variable asRelativePath : string -> string.

(** "append & save" *)
Definition appendAndSave (env : Environment) (entry : BibEntry) (bibUri : string)
  : list Effect :=
  Insert bibUri (Js.nl ++ text entry)%string ::
  (if applyEdit env
   then [Save bibUri;
         ShowInformation ("Added " ++ key entry ++ " to " ++ asRelativePath bibUri)%string]
   else [ShowError "Failed to update .bib file."]).

Definition onDidAccept (env : Environment) : list Effect :=
  match selectedItems env with
  | [] => []
  | sel :: _ =>
      let entry := bibtex (paper sel) in
      Hide ::
      match bibFiles env with
      | [] =>
          match match workspaceFolders env with
                | Some folders => nth_error folders 0
                | None => None
                end with
          | None => [ShowError "No workspace open."]
          | Some root =>
              let bibUri := joinPath root "references.bib" in
              WriteFile bibUri EmptyString :: appendAndSave env entry bibUri
          end
      | [only] => appendAndSave env entry only
      | _ :: _ :: _ =>
          AskBibFile (List.map (fun f => (asRelativePath f, f)) (bibFiles env)) ::
          match pickFile env with
          | None => []
          | Some bibUri => appendAndSave env entry bibUri
          end
      end
  end.

End Accept.

(* ================================================================== *)
(** ** The earlier version of the key helpers

    Before the numeric suffix was handled, [surname] took the first token
    of a name without comma, and the Crossref adapter wrote its authors as
    "family, given". *)

Module Legacy.

Definition surname (str : string) : string :=
  if Js.includes "," str
  then Js.trim (hd EmptyString (Js.split "," str))
  else Js.trim (hd EmptyString (Js.split_ws str)).

(** [`${a.family ?? ""}, ${a.given ?? ""}`.trim()] *)
Definition crossrefAuthor (a : JsVal) : option string :=
  family <- get a "family" ;;
  given <- get a "given" ;;
  f <- ToString (coalesce family (JStr "")) ;;
  g <- ToString (coalesce given (JStr "")) ;;
  Some (Js.trim (f ++ ", " ++ g)).

End Legacy.

(* ================================================================== *)
(** ** The bundled first version (arXiv only)

    [entryToBib] works on the raw entry of the feed.  [None]: the function
    throws a [TypeError], or a field that the feed gives as a string is
    none. *)

Module Dist.

Definition cleanKeyFragment (s : string) : string :=
  Js.filter Js.is_lower_alnum (Js.toLowerCase s).

(** [s.replace(/[\r\n]/g, " ")] *)
Fixpoint line_breaks_to_spaces (s : string) : string :=
  match s with
  | EmptyString => EmptyString
  | String c s' =>
      String (if Ascii.eqb c "013" || Ascii.eqb c "010" then " "%char else c)
             (line_breaks_to_spaces s')
  end.

Definition titleWords (title : string) : list string :=
  List.filter (fun w => negb (Js.is_empty w))
              (List.map strip_punct
                        (Js.split_ws (line_breaks_to_spaces (Js.trim title)))).

(** [l.join(sep)] on raw values: [undefined] and [null] give the empty
    string. *)
Definition join_values (sep : string) (l : list JsVal) : option string :=
  parts <- mapM (fun x => if nullish x then Some EmptyString else ToString x) l ;;
  Some (Js.join sep parts).

(** [authorsArr[0].split(/\s+/).pop() || authorsArr[0]] *)
Definition lastTokenOrAll (name : string) : string :=
  let token := last (Js.split_ws name) EmptyString in
  if Js.is_empty token then name else token.

Definition entryToBib (entry : JsVal) : option BibEntry :=
  au <- get entry "author" ;;
  authorsArr <- match au with
                | JArr l => mapM (fun a => get a "name") l
                | _ => name <- get au "name" ;; Some [name]
                end ;;
  published <- get entry "published" ;;
  published <- expect_string published ;;
  let year := Js.slice_0_4 published in
  first <- nth_error authorsArr 0 ;;
  first <- expect_string first ;;
  let surname := lastTokenOrAll first in
  let cleanSurname := cleanKeyFragment surname in
  t <- get entry "title" ;;
  t <- expect_string t ;;
  let firstWord := hd "paper"%string (titleWords t) in
  let cleanFirst := cleanKeyFragment firstWord in
  let bibKey := (cleanSurname ++ year ++ cleanFirst)%string in
  i <- get entry "id" ;;
  i <- expect_string i ;;
  let arxivId := match nth_error (Js.split "/abs/" i) 1 with
                 | Some a => a
                 | None => "undefined"%string
                 end in
  authorsBib <- join_values " and " authorsArr ;;
  Some {| key := bibKey;
          text := ("@article{" ++ bibKey ++ "," ++ Js.nl ++
                   "  title  = {" ++ Js.collapse_ws (Js.trim t) ++ "}," ++ Js.nl ++
                   "  author = {" ++ authorsBib ++ "}," ++ Js.nl ++
                   "  journal= {arXiv}," ++ Js.nl ++
                   "  eprint = {" ++ arxivId ++ "}," ++ Js.nl ++
                   "  year   = {" ++ year ++ "}" ++ Js.nl ++
                   "}" ++ Js.nl)%string |}.

End Dist.

(* ================================================================== *)
(** ** Further notions used to state properties *)

(** The last character of [s] satisfies [p] (false for the empty string). *)
Fixpoint last_char_is (p : ascii -> bool) (s : string) : bool :=
  match s with
  | EmptyString => false
  | String c s' =>
      match s' with
      | EmptyString => p c
      | String _ _ => last_char_is p s'
      end
  end.

Definition no_comma (s : string) : bool :=
  Js.all (fun c => negb (Ascii.eqb c ",")) s.

(** One word of a name: not empty, without white space and comma, and not
    ending with a digit. *)
Definition name_token (x : string) : bool :=
  negb (Js.is_empty x) && no_space x && no_comma x &&
  negb (last_char_is Js.is_digit x).

(** The words among the pieces of a split title. *)
Definition words_of (pieces : list string) : list string :=
  List.filter (fun w => negb (Js.is_empty w)) (List.map strip_punct pieces).

(** Two splits with the same first piece and the same words after it. *)
Definition same_words (l l' : list string) : Prop :=
  exists h t t', l = h :: t /\ l' = h :: t' /\ words_of t = words_of t'.

(** The error messages a trace shows, in order. *)
Definition failures (trace : list Callback) : list string :=
  flat_map (fun cb => match cb with
                      | Catch src message =>
                          [(sourceLabel src ++ " request failed: " ++ message)%string]
                      | _ => []
                      end) trace.

(* ================================================================== *)
(** ** Strings: basic facts *)

Local Open Scope string_scope.

Section StringFacts.

Lemma append_nil_r (s : string) : s ++ "" = s.
Proof. induction s as [|c s IH]; simpl; [reflexivity | now rewrite IH]. Qed.

Lemma append_assoc (a b c : string) : (a ++ b) ++ c = a ++ (b ++ c).
Proof. induction a as [|x a IH]; simpl; [reflexivity | now rewrite IH]. Qed.

Lemma prefix_append (a b : string) : String.prefix a (a ++ b) = true.
Proof.
  induction a as [|x a IH]; simpl.
  - now destruct b.
  - destruct (ascii_dec x x) as [_|n]; [exact IH | now elim n].
Qed.

Lemma includes_prefix (sub s : string) :
  String.prefix sub s = true -> Js.includes sub s = true.
Proof. intros H. destruct s; simpl in *; now rewrite H. Qed.

Lemma includes_tail (sub : string) (c : ascii) (s : string) :
  Js.includes sub s = true -> Js.includes sub (String c s) = true.
Proof.
  intros H. cbn [Js.includes].
  destruct (String.prefix sub (String c s)); [reflexivity | exact H].
Qed.

(** A string includes whatever stands between two of its parts. *)
Lemma includes_middle (a sub b : string) :
  Js.includes sub (a ++ sub ++ b) = true.
Proof.
  induction a as [|x a IH].
  - change ("" ++ sub ++ b) with (sub ++ b).
    apply includes_prefix, prefix_append.
  - change (String x a ++ sub ++ b) with (String x (a ++ sub ++ b)).
    apply includes_tail, IH.
Qed.

Lemma all_append (p : ascii -> bool) (a b : string) :
  Js.all p (a ++ b) = Js.all p a && Js.all p b.
Proof.
  induction a as [|x a IH]; simpl; [reflexivity|].
  now rewrite IH, andb_assoc.
Qed.

Lemma is_empty_true (s : string) : Js.is_empty s = true <-> s = "".
Proof. destruct s; simpl; split; congruence. Qed.

Lemma space_not_digit (c : ascii) :
  Js.is_space c = true -> Js.is_digit c = false.
Proof.
  unfold Js.is_space, Js.is_digit. cbv zeta. intros H.
  destruct (48 <=? Js.code c)%N eqn:E1; [|reflexivity].
  destruct (Js.code c <=? 57)%N eqn:E2; [|reflexivity].
  apply N.leb_le in E1, E2.
  repeat (apply orb_true_iff in H; destruct H as [H|H]).
  - apply andb_true_iff in H. destruct H as [_ H]. apply N.leb_le in H. lia.
  - apply N.eqb_eq in H. lia.
  - apply N.eqb_eq in H. lia.
Qed.

Lemma dropStart_all (p : ascii -> bool) (w s : string) :
  Js.all p w = true -> Js.dropStart p (w ++ s) = Js.dropStart p s.
Proof.
  induction w as [|x w IH]; simpl; [reflexivity|].
  intros H. apply andb_true_iff in H. destruct H as [Hx Hw].
  rewrite Hx. now apply IH.
Qed.

Lemma dropEnd_fixed_cons (p : ascii -> bool) (c : ascii) (s : string) :
  Js.dropEnd p (String c s) = String c s ->
  Js.dropEnd p s = s /\ (p c = true -> s <> "").
Proof.
  cbn [Js.dropEnd]. cbv zeta.
  destruct (p c && Js.is_empty (Js.dropEnd p s)) eqn:E; intros H; [discriminate|].
  injection H as H. split; [exact H|].
  intros Hc ->. now rewrite Hc in E.
Qed.

Lemma dropEnd_idempotent (p : ascii -> bool) (s : string) :
  Js.dropEnd p (Js.dropEnd p s) = Js.dropEnd p s.
Proof.
  induction s as [|c s IH]; [reflexivity|].
  cbn [Js.dropEnd]. cbv zeta.
  destruct (p c && Js.is_empty (Js.dropEnd p s)) eqn:E; [reflexivity|].
  cbn [Js.dropEnd]. cbv zeta. now rewrite IH, E.
Qed.

Lemma dropEnd_keeps_head (p : ascii -> bool) (c : ascii) (s : string) :
  p c = false -> Js.dropEnd p (String c s) = String c (Js.dropEnd p s).
Proof. intros H. cbn [Js.dropEnd]. cbv zeta. now rewrite H. Qed.

Lemma dropStart_head (p : ascii -> bool) (s : string) :
  Js.dropStart p s = "" \/
  exists c r, Js.dropStart p s = String c r /\ p c = false.
Proof.
  induction s as [|c s IH]; simpl; [now left|].
  destruct (p c) eqn:E; [exact IH|]. right. now exists c, s.
Qed.

Lemma dropStart_idempotent (p : ascii -> bool) (s : string) :
  Js.dropStart p (Js.dropStart p s) = Js.dropStart p s.
Proof.
  destruct (dropStart_head p s) as [->|(c & r & -> & Hc)]; [reflexivity|].
  simpl. now rewrite Hc.
Qed.

Lemma trim_no_trailing_space (s : string) :
  Js.dropEnd Js.is_space (Js.trim s) = Js.trim s.
Proof. apply dropEnd_idempotent. Qed.

End StringFacts.

(* ================================================================== *)
(** ** The numeric suffix *)

Section NumericSuffix.

Lemma ws_digits_head (c : ascii) (s : string) :
  ws_digits (String c s) = true -> Js.is_space c = true.
Proof. cbn [ws_digits]. intros H. now apply andb_true_iff in H. Qed.

Lemma ws_digits_extend (c : ascii) (r : string) :
  Js.is_space c = true -> ws_digits r = true -> ws_digits (String c r) = true.
Proof.
  intros Hc Hr. destruct r as [|x r]; [discriminate|].
  cbn [ws_digits] in *. apply andb_true_iff in Hr. destruct Hr as [Hx Hr].
  rewrite Hc. cbn [andb Js.dropStart]. now rewrite Hx.
Qed.

Lemma strip_keeps_head (c : ascii) (s : string) :
  Js.is_space c = false ->
  stripNumericSuffix (String c s) = String c (stripNumericSuffix s).
Proof.
  intros Hc. cbn [stripNumericSuffix].
  destruct (ws_digits (String c s)) eqn:E; [|reflexivity].
  apply ws_digits_head in E. congruence.
Qed.

Lemma strip_unfold (c : ascii) (s : string) :
  ws_digits (String c s) = false ->
  stripNumericSuffix (String c s) = String c (stripNumericSuffix s).
Proof. intros E. cbn [stripNumericSuffix]. now rewrite E. Qed.

Lemma strip_match (s : string) :
  ws_digits s = true -> stripNumericSuffix s = "".
Proof. intros E. destruct s; cbn [stripNumericSuffix]; now rewrite E. Qed.

Lemma strip_empty_inv (s : string) :
  stripNumericSuffix s = "" -> s = "" \/ ws_digits s = true.
Proof.
  destruct s as [|c s]; [now left|].
  cbn [stripNumericSuffix].
  destruct (ws_digits (String c s)); [now right | discriminate].
Qed.

(** What is left never ends with white space, if the input did not. *)
Lemma strip_no_trailing_space (t : string) :
  Js.dropEnd Js.is_space t = t ->
  Js.dropEnd Js.is_space (stripNumericSuffix t) = stripNumericSuffix t.
Proof.
  induction t as [|c t IH]; [reflexivity|].
  intros H. apply dropEnd_fixed_cons in H. destruct H as [Ht Hc].
  destruct (ws_digits (String c t)) eqn:E.
  - now rewrite strip_match.
  - rewrite strip_unfold by exact E.
    cbn [Js.dropEnd]. cbv zeta. rewrite (IH Ht).
    destruct (Js.is_space c) eqn:Sc; [|reflexivity].
    destruct (stripNumericSuffix t) eqn:St; [|reflexivity].
    exfalso. apply strip_empty_inv in St. destruct St as [St|St].
    + now apply Hc.
    + rewrite (ws_digits_extend c t Sc St) in E. discriminate.
Qed.

(** A digit group of one to four digits after white space is cut off
    together with the white space. *)
Lemma ws_digits_group (w d : string) :
  w <> "" -> Js.all Js.is_space w = true ->
  Js.all Js.is_digit d = true ->
  1 <= String.length d <= 4 ->
  ws_digits (w ++ d) = true.
Proof.
  intros Hw Sw Dd Hlen. destruct w as [|c w]; [congruence|].
  cbn [append ws_digits]. cbn [Js.all] in Sw.
  apply andb_true_iff in Sw. destruct Sw as [Sc Sw]. rewrite Sc. cbn [andb].
  rewrite (dropStart_all _ w d Sw).
  assert (Hd : Js.dropStart Js.is_space d = d).
  { destruct d as [|x d]; [reflexivity|]. cbn [Js.dropStart].
    cbn [Js.all] in Dd. apply andb_true_iff in Dd. destruct Dd as [Dx _].
    destruct (Js.is_space x) eqn:Sx; [|reflexivity].
    apply space_not_digit in Sx. congruence. }
  cbv zeta. rewrite Hd, Dd.
  destruct Hlen as [H1 H4].
  apply Nat.leb_le in H1, H4. now rewrite H1, H4.
Qed.

Lemma not_all_digits_before_space (r w d : string) (c : ascii) :
  Js.is_space c = true ->
  r <> "" -> Js.dropEnd Js.is_space r = r ->
  Js.all Js.is_digit (Js.dropStart Js.is_space (r ++ String c w ++ d)) = false.
Proof.
  intros Sc. induction r as [|x r IH]; [congruence|].
  intros _ H. apply dropEnd_fixed_cons in H. destruct H as [Hr Hx].
  cbn [append Js.dropStart].
  destruct (Js.is_space x) eqn:Sx.
  - apply IH; [now apply Hx | exact Hr].
  - cbn [Js.all]. rewrite all_append. cbn [append Js.all].
    rewrite (space_not_digit c Sc).
    cbn [andb]. now rewrite !andb_false_r.
Qed.

Lemma strip_cuts_group (t w d : string) :
  Js.dropEnd Js.is_space t = t ->
  w <> "" -> Js.all Js.is_space w = true ->
  Js.all Js.is_digit d = true ->
  1 <= String.length d <= 4 ->
  stripNumericSuffix (t ++ w ++ d) = t.
Proof.
  intros Ht Hw Sw Dd Hlen. induction t as [|c t IH].
  - change ("" ++ w ++ d) with (w ++ d).
    apply strip_match. now apply ws_digits_group.
  - apply dropEnd_fixed_cons in Ht. destruct Ht as [Ht Hc].
    cbn [append]. rewrite strip_unfold; [now rewrite (IH Ht)|].
    cbn [ws_digits]. destruct (Js.is_space c) eqn:Sc; [|reflexivity].
    cbn [andb]. cbv zeta.
    destruct w as [|y w]; [congruence|].
    cbn [Js.all] in Sw. apply andb_true_iff in Sw. destruct Sw as [Sy _].
    cbn [append].
    change (String y (w ++ d)) with (String y w ++ d).
    rewrite (not_all_digits_before_space t w d y Sy (Hc eq_refl) Ht).
    now rewrite andb_false_r.
Qed.

End NumericSuffix.

(* ================================================================== *)
(** ** Splitting *)

Section Splitting.

Lemma last_cons (A : Type) (x : A) (l : list A) (d : A) :
  l <> [] -> last (x :: l) d = last l d.
Proof. destruct l; [congruence | reflexivity]. Qed.

Lemma last_snoc (A : Type) (l : list A) (x d : A) :
  last (l ++ [x])%list d = x.
Proof.
  induction l as [|y l IH]; [reflexivity|].
  cbn [List.app]. rewrite last_cons; [exact IH | now destruct l].
Qed.

Lemma push_char_snoc (c : ascii) (l : list string) (w : string) :
  l <> [] -> Js.push_char c (l ++ [w])%list = (Js.push_char c l ++ [w])%list.
Proof. destruct l; [congruence | reflexivity]. Qed.

Lemma push_char_not_nil (c : ascii) (l : list string) : Js.push_char c l <> [].
Proof. destruct l; discriminate. Qed.

Lemma split_ws_from_not_nil (b : bool) (s : string) : Js.split_ws_from b s <> [].
Proof.
  revert b. induction s as [|c s IH]; intros b; cbn [Js.split_ws_from].
  - discriminate.
  - destruct (Js.is_space c); [destruct b; [apply IH | discriminate]|].
    apply push_char_not_nil.
Qed.

Lemma last_push_char (c : ascii) (l : list string) :
  last l "" <> "" -> last (Js.push_char c l) "" <> "".
Proof.
  destruct l as [|t [|u l]]; cbn [Js.push_char]; intros H.
  - discriminate.
  - discriminate.
  - rewrite last_cons by discriminate. rewrite last_cons in H by discriminate.
    exact H.
Qed.

(** Without white space at its end, a non-empty string has a non-empty
    last piece. *)
Lemma last_split_ws_nonempty (s : string) (b : bool) :
  s <> "" -> Js.dropEnd Js.is_space s = s ->
  last (Js.split_ws_from b s) "" <> "".
Proof.
  revert b. induction s as [|c s IH]; intros b Hs H; [congruence|].
  apply dropEnd_fixed_cons in H. destruct H as [Hfix Hc].
  cbn [Js.split_ws_from].
  destruct (Js.is_space c) eqn:Sc.
  - specialize (Hc eq_refl).
    destruct b; [now apply IH|].
    rewrite last_cons by apply split_ws_from_not_nil. now apply IH.
  - destruct s as [|x s].
    + cbn. discriminate.
    + apply last_push_char, IH; [discriminate | exact Hfix].
Qed.

Lemma split_ws_no_space (w : string) (b : bool) :
  no_space w = true -> Js.split_ws_from b w = [w].
Proof.
  revert b. induction w as [|c w IH]; intros b H; [reflexivity|].
  cbn [no_space Js.all] in H. apply andb_true_iff in H. destruct H as [Hc Hw].
  cbn [Js.split_ws_from]. apply negb_true_iff in Hc. rewrite Hc.
  now rewrite (IH false Hw).
Qed.

(** The last piece is what follows the last white-space character. *)
Lemma split_ws_last_piece (q w : string) (c : ascii) :
  Js.is_space c = true -> no_space w = true ->
  (exists l, Js.split_ws_from false (q ++ String c w) = (l ++ [w])%list /\ l <> []) /\
  (exists l, Js.split_ws_from true (q ++ String c w) = (l ++ [w])%list).
Proof.
  intros Sc Hw. induction q as [|x q [(l0 & E0 & N0) (l1 & E1)]].
  - cbn [append Js.split_ws_from]. rewrite Sc, (split_ws_no_space w true Hw).
    split; [exists [""] | exists []]; repeat split; discriminate.
  - cbn [append Js.split_ws_from]. destruct (Js.is_space x).
    + split; [exists ("" :: l1) | exists l1]; rewrite E1; repeat split.
      discriminate.
    + rewrite E0, push_char_snoc by exact N0.
      split; exists (Js.push_char x l0); repeat split.
      apply push_char_not_nil.
Qed.

Lemma last_token (q w : string) (c : ascii) :
  Js.is_space c = true -> no_space w = true ->
  last (Js.split_ws (q ++ String c w)) "" = w.
Proof.
  intros Sc Hw. destruct (split_ws_last_piece q w c Sc Hw) as [(l & E & _) _].
  unfold Js.split_ws. rewrite E. apply last_snoc.
Qed.

Lemma comma_prefix (c : ascii) (s : string) :
  String.prefix "," (String c s) = true <-> c = ","%char.
Proof.
  cbn [String.prefix]. destruct (ascii_dec "," c) as [<-|n].
  - split; [reflexivity | now destruct s].
  - split; [discriminate | congruence].
Qed.

Lemma includes_comma_cons (c : ascii) (s : string) :
  Js.includes "," (String c s) = false ->
  c <> ","%char /\ Js.includes "," s = false.
Proof.
  cbn [Js.includes].
  destruct (String.prefix "," (String c s)) eqn:E; [discriminate|].
  intros H. split; [|exact H].
  intros ->. now rewrite (proj2 (comma_prefix "," s) eq_refl) in E.
Qed.

Lemma includes_comma_middle (a b : string) :
  Js.includes "," (a ++ String "," b) = true.
Proof. apply (includes_middle a "," b). Qed.

(** The first piece of [split(",")] is what stands before the first comma. *)
Lemma split_comma_head (a b : string) :
  Js.includes "," a = false ->
  hd "" (Js.split "," (a ++ String "," b)) = a.
Proof.
  unfold Js.split. induction a as [|x a IH]; intros H.
  - cbn [append Js.split_from].
    now rewrite (proj2 (comma_prefix "," b) eq_refl).
  - apply includes_comma_cons in H. destruct H as [Hx Ha].
    cbn [append Js.split_from].
    destruct (String.prefix "," (String x (a ++ String "," b))) eqn:E.
    + apply comma_prefix in E. congruence.
    + specialize (IH Ha).
      destruct (Js.split_from "," 0 (a ++ String "," b)) as [|t ts];
        cbn [Js.push_char hd] in *; now subst.
Qed.

Lemma split_comma_head_cons (c : ascii) (s : string) :
  c <> ","%char -> exists t, hd "" (Js.split "," (String c s)) = String c t.
Proof.
  intros Hc. unfold Js.split. cbn [Js.split_from].
  destruct (String.prefix "," (String c s)) eqn:E.
  - apply comma_prefix in E. congruence.
  - destruct (Js.split_from "," 0 s) as [|t ts]; cbn; eauto.
Qed.

End Splitting.

(* ================================================================== *)
(** ** Surname *)

Section Surname.

Lemma surname_blank (input : string) :
  Js.dropStart Js.is_space input = "" -> surname input = "".
Proof. intros E. unfold surname, Js.trim. now rewrite E. Qed.

(** The first character that is not white space stays first through
    [trim] and the stripping of the numeric suffix. *)
Lemma stripped_head (input : string) (c : ascii) (r : string) :
  Js.dropStart Js.is_space input = String c r -> Js.is_space c = false ->
  stripNumericSuffix (Js.trim input) =
  String c (stripNumericSuffix (Js.dropEnd Js.is_space r)).
Proof.
  intros E Hc. unfold Js.trim. rewrite E.
  rewrite dropEnd_keeps_head by exact Hc.
  now apply strip_keeps_head.
Qed.

Lemma surname_leading_comma (input r : string) :
  Js.dropStart Js.is_space input = String "," r -> surname input = "".
Proof.
  intros E. unfold surname.
  rewrite (stripped_head input "," r E eq_refl).
  set (rest := stripNumericSuffix (Js.dropEnd Js.is_space r)).
  assert (P : String.prefix "," (String "," rest) = true)
    by now apply comma_prefix.
  rewrite (includes_prefix _ _ P).
  unfold Js.split. cbn [Js.split_from]. now rewrite P.
Qed.

Lemma surname_nonempty (input : string) (c : ascii) (r : string) :
  Js.dropStart Js.is_space input = String c r ->
  Js.is_space c = false -> c <> ","%char ->
  surname input <> "".
Proof.
  intros E Sc Hc.
  assert (Hfix : Js.dropEnd Js.is_space (stripNumericSuffix (Js.trim input)) =
                 stripNumericSuffix (Js.trim input))
    by apply strip_no_trailing_space, trim_no_trailing_space.
  unfold surname. cbv zeta.
  rewrite (stripped_head input c r E Sc) in *.
  set (rest := stripNumericSuffix (Js.dropEnd Js.is_space r)) in *.
  destruct (Js.includes "," (String c rest)).
  - destruct (split_comma_head_cons c rest Hc) as [t ->].
    unfold Js.trim. cbn [Js.dropStart]. rewrite Sc.
    rewrite dropEnd_keeps_head by exact Sc. discriminate.
  - apply last_split_ws_nonempty; [discriminate | exact Hfix].
Qed.

End Surname.

(** C5, as the code has it: [surname] gives the empty string exactly for
    the inputs that are blank or whose first character after the leading
    white space is a comma, and a non-empty string for every other input;
    the key falls back on the literal "anon" for the empty author list and
    takes the first author of any other list. *)
Theorem surname_empty_iff :
  (forall input : string,
      surname input = "" <->
      (Js.dropStart Js.is_space input = "" \/
       exists r, Js.dropStart Js.is_space input = String "," r)) /\
  firstAuthorOrFallback [] = "anon" /\
  (forall a l, firstAuthorOrFallback (a :: l) = a).
Proof.
  split; [|split; reflexivity].
  intros input. split.
  - intros H.
    destruct (dropStart_head Js.is_space input) as [E|(c & r & E & Sc)];
      [now left|].
    destruct (ascii_dec c ",") as [->|Hc]; [right; now exists r|].
    now elim (surname_nonempty input c r E Sc Hc).
  - intros [E|[r E]]; [now apply surname_blank|].
    now apply (surname_leading_comma input r).
Qed.

Lemma surname_empty_iff_witness :
  surname "Jianxin Wang" <> "" /\ surname "  , Wang" = "".
Proof.
  destruct surname_empty_iff as (H & _). split.
  - intros E. apply (H "Jianxin Wang") in E.
    destruct E as [E|[r E]]; discriminate.
  - apply (H "  , Wang"). right. now exists " Wang".
Defined.

(** C5 as stated fails: a non-empty author string that begins with a comma
    has the empty surname. *)
Lemma surname_empty_for_nonempty_input :
  ", Jianxin" <> "" /\ surname ", Jianxin" = "" /\
  " " <> "" /\ surname " " = "".
Proof. repeat split; discriminate. Qed.

(** C6, as the code has it: the input is trimmed, then a trailing group
    of one to four digits after white space is cut off with that white
    space; if what remains has a comma, the surname is the text before the
    first comma, trimmed; otherwise it is the text after the last
    white-space character (the whole text if there is none). *)
Theorem surname_rule :
  (forall t w d : string,
      Js.dropEnd Js.is_space t = t ->
      w <> "" -> Js.all Js.is_space w = true ->
      Js.all Js.is_digit d = true -> 1 <= String.length d <= 4 ->
      stripNumericSuffix (t ++ w ++ d) = t) /\
  (forall input a b : string,
      stripNumericSuffix (Js.trim input) = a ++ String "," b ->
      Js.includes "," a = false ->
      surname input = Js.trim a) /\
  (forall input w : string,
      stripNumericSuffix (Js.trim input) = w ->
      Js.includes "," w = false -> no_space w = true ->
      surname input = w) /\
  (forall input q w : string, forall c : ascii,
      stripNumericSuffix (Js.trim input) = q ++ String c w ->
      Js.includes "," (q ++ String c w) = false ->
      Js.is_space c = true -> no_space w = true ->
      surname input = w) /\
  surname "Wang, Jianxin" = "Wang" /\
  surname "Jianxin Wang" = "Wang" /\
  surname "Jianxin Wang 3" = "Wang".
Proof.
  split; [exact strip_cuts_group|].
  split; [|split; [|split; [|repeat split]]].
  - intros input a b E Ha. unfold surname. rewrite E.
    now rewrite includes_comma_middle, split_comma_head.
  - intros input w E Hc Hw. unfold surname. rewrite E, Hc.
    unfold Js.split_ws. now rewrite (split_ws_no_space w false Hw).
  - intros input q w c E Hq Sc Hw. unfold surname. rewrite E, Hq.
    now apply last_token.
Qed.

Lemma surname_rule_witness :
  surname "  Wang , Jianxin 12" = "Wang" /\
  surname "J. Wang" = "Wang" /\
  surname " Plato 7" = "Plato" /\
  stripNumericSuffix "Jianxin Wang 3" = "Jianxin Wang".
Proof.
  destruct surname_rule as (Hcut & Hcomma & Hone & Hlast & _).
  split; [|split; [|split]].
  - apply (Hcomma "  Wang , Jianxin 12" "Wang " " Jianxin"); reflexivity.
  - apply (Hlast "J. Wang" "J." "Wang" " "%char); reflexivity.
  - apply (Hone " Plato 7" "Plato"); reflexivity.
  - apply (Hcut "Jianxin Wang" " " "3"); try reflexivity;
      [discriminate | simpl; lia].
Defined.

(** C6 as stated fails: with white space before the comma the surname is
    not everything before the first comma. *)
Lemma surname_differs_from_spec_wording :
  surname "Wang , Jianxin" = "Wang" /\
  extractSurname_spec "Wang , Jianxin" = "Wang " /\
  surname "Wang , Jianxin" <> extractSurname_spec "Wang , Jianxin".
Proof. repeat split; discriminate. Qed.

(* ================================================================== *)
(** ** First significant word *)

Section FirstWord.

Lemma all_dropStart (q p : ascii -> bool) (s : string) :
  Js.all q s = true -> Js.all q (Js.dropStart p s) = true.
Proof.
  induction s as [|c s IH]; [reflexivity|].
  intros H. cbn [Js.dropStart]. destruct (p c); [|exact H].
  cbn [Js.all] in H. apply andb_true_iff in H. now apply IH.
Qed.

Lemma all_dropEnd (q p : ascii -> bool) (s : string) :
  Js.all q s = true -> Js.all q (Js.dropEnd p s) = true.
Proof.
  induction s as [|c s IH]; [reflexivity|].
  intros H. cbn [Js.all] in H. apply andb_true_iff in H. destruct H as [Hc Hs].
  cbn [Js.dropEnd]. cbv zeta.
  destruct (p c && Js.is_empty (Js.dropEnd p s)); [reflexivity|].
  cbn [Js.all]. now rewrite Hc, IH.
Qed.

Lemma dropStart_dropEnd (p : ascii -> bool) (s : string) :
  Js.dropStart p (Js.dropEnd p (Js.dropStart p s)) = Js.dropEnd p (Js.dropStart p s).
Proof.
  destruct (dropStart_head p s) as [->|(c & r & -> & Hc)]; [reflexivity|].
  rewrite dropEnd_keeps_head by exact Hc. cbn [Js.dropStart]. now rewrite Hc.
Qed.

Lemma strip_punct_idempotent (w : string) :
  strip_punct (strip_punct w) = strip_punct w.
Proof.
  unfold strip_punct. cbv zeta.
  now rewrite dropStart_dropEnd, dropEnd_idempotent.
Qed.

Lemma push_char_no_space (c : ascii) (l : list string) :
  Js.is_space c = false ->
  Forall (fun w => no_space w = true) l ->
  Forall (fun w => no_space w = true) (Js.push_char c l).
Proof.
  intros Hc Hl. destruct Hl as [|t ts Ht Hts]; cbn [Js.push_char];
    constructor; trivial; unfold no_space; cbn [Js.all]; rewrite Hc; trivial.
Qed.

Lemma split_ws_pieces_no_space (s : string) (b : bool) :
  Forall (fun w => no_space w = true) (Js.split_ws_from b s).
Proof.
  revert b. induction s as [|c s IH]; intros b; cbn [Js.split_ws_from].
  - now constructor.
  - destruct (Js.is_space c) eqn:Sc.
    + destruct b; [apply IH | constructor; [reflexivity | apply IH]].
    + now apply push_char_no_space.
Qed.

(** The words of a title: non-empty, free of white space, and with a
    letter or digit at both ends (stripping them again changes nothing). *)
Lemma title_words_shape (t : string) :
  Forall (fun w => w <> "" /\ no_space w = true /\ strip_punct w = w)
         (title_words t).
Proof.
  unfold title_words, Js.split_ws.
  induction (split_ws_pieces_no_space t false) as [|w l Hw _ IH];
    cbn [List.map List.filter]; [constructor|].
  destruct (Js.is_empty (strip_punct w)) eqn:E; cbn [negb]; [exact IH|].
  constructor; [|exact IH]. repeat split.
  - intros H. apply is_empty_true in H. congruence.
  - unfold strip_punct, no_space. now apply all_dropEnd, all_dropStart.
  - apply strip_punct_idempotent.
Qed.

Lemma find_first (A : Type) (f : A -> bool) (pre : list A) (w : A) (post : list A) :
  Forall (fun x => f x = false) pre -> f w = true ->
  List.find f (pre ++ w :: post)%list = Some w.
Proof.
  intros Hpre Hw. induction Hpre as [|x pre Hx _ IH]; cbn [List.app List.find].
  - now rewrite Hw.
  - now rewrite Hx.
Qed.

Lemma find_none (A : Type) (f : A -> bool) (l : list A) :
  Forall (fun x => f x = false) l -> List.find f l = None.
Proof.
  intros H. induction H as [|x l Hx _ IH]; cbn [List.find]; [reflexivity|].
  now rewrite Hx.
Qed.

Lemma stopwords_fail_test (l : list string) :
  Forall (fun w => is_stopword w = true) l ->
  Forall (fun w => negb (STOPWORDS_has (Js.toLowerCase w)) = false) l.
Proof.
  intros H. induction H as [|w l Hw _ IH]; constructor; trivial.
  unfold is_stopword in Hw. now rewrite Hw.
Qed.

End FirstWord.

(** C3, as the code has it: the words of a title are its pieces between
    white space, stripped of leading and trailing characters that are no
    letters or digits, without the empty ones; [firstWord] is the first
    word that is no stopword; if every word is a stopword it is the first
    word; it is "paper" only if there is no word at all, as for the empty
    title. *)
Theorem firstWord_rule :
  (forall t : string,
      Forall (fun w => w <> "" /\ no_space w = true /\ strip_punct w = w)
             (title_words t)) /\
  (forall (t : string) (pre : list string) (w : string) (post : list string),
      title_words t = (pre ++ w :: post)%list ->
      Forall (fun x => is_stopword x = true) pre ->
      is_stopword w = false ->
      firstWord t = w) /\
  (forall (t w : string) (rest : list string),
      title_words t = w :: rest ->
      Forall (fun x => is_stopword x = true) (w :: rest) ->
      firstWord t = w) /\
  (forall t : string, title_words t = [] -> firstWord t = "paper") /\
  firstWord "" = "paper" /\
  firstWord "The Attention Is All You Need" = "Attention".
Proof.
  split; [exact title_words_shape|].
  split; [|split; [|split; [|split; reflexivity]]].
  - intros t pre w post E Hpre Hw. unfold firstWord. cbv zeta. rewrite E.
    rewrite (find_first _ _ pre w post); trivial.
    + now apply stopwords_fail_test.
    + unfold is_stopword in Hw. now rewrite Hw.
  - intros t w rest E Hall. unfold firstWord. cbv zeta. rewrite E.
    now rewrite (find_none _ _ (w :: rest) (stopwords_fail_test _ Hall)).
  - intros t E. unfold firstWord. cbv zeta. now rewrite E.
Qed.

Lemma firstWord_rule_witness :
  firstWord "An (the) Attention!" = "Attention" /\
  firstWord "The A" = "The" /\
  firstWord " ... " = "paper".
Proof.
  destruct firstWord_rule as (_ & Hfirst & Hstop & Hnone & _).
  split; [|split].
  - apply (Hfirst "An (the) Attention!" ["An"; "the"] "Attention" []);
      [reflexivity | repeat constructor | reflexivity].
  - apply (Hstop "The A" "The" ["A"]); [reflexivity | repeat constructor].
  - apply (Hnone " ... "). reflexivity.
Defined.

(** C3 as stated fails: the title "The" has only a stopword, and its first
    significant word is "The", not "paper". *)
Lemma firstWord_all_stopwords_not_paper :
  Forall (fun w => is_stopword w = true) (title_words "The") /\
  firstWord "The" = "The" /\
  firstWord "The" <> "paper".
Proof. split; [repeat constructor | split; [reflexivity | discriminate]]. Qed.

(* ================================================================== *)
(** ** Key and record *)

Section Synthesis.

Lemma includes_after (sub a s : string) :
  Js.includes sub s = true -> Js.includes sub (a ++ s) = true.
Proof.
  intros H. induction a as [|x a IH]; [exact H|].
  change (String x a ++ s) with (String x (a ++ s)). now apply includes_tail.
Qed.

Lemma includes_here (sub b : string) : Js.includes sub (sub ++ b) = true.
Proof. apply includes_prefix, prefix_append. Qed.

Lemma prefix_three (a b c r : string) :
  String.prefix (a ++ b ++ c) (a ++ b ++ c ++ r) = true.
Proof.
  rewrite <- (append_assoc b c r), <- (append_assoc a (b ++ c) r).
  apply prefix_append.
Qed.

Lemma key_bibtex (p : Paper) : key (bibtex p) = bibKey p.
Proof. unfold bibtex. now destruct (source p). Qed.

Lemma text_bibtex_dblp (p : Paper) :
  source p = dblp ->
  text (bibtex p) =
  base p ++ Js.nl ++
  "  journal= {" ++ or_default (journal p) "conference" ++ "}," ++ Js.nl ++
  "  " ++ idField p ++ Js.nl ++ "}" ++ Js.nl.
Proof. intros E. unfold bibtex. now rewrite E. Qed.

Lemma text_dblp_includes_idField (p : Paper) :
  source p = dblp -> Js.includes (idField p) (text (bibtex p)) = true.
Proof.
  intros E. rewrite (text_bibtex_dblp p E).
  do 7 apply includes_after. apply includes_here.
Qed.

End Synthesis.

Section KeyFormula.

Lemma clean_is_cleanForKey_spec (s : string) : clean s = cleanForKey_spec s.
Proof.
  unfold clean. induction s as [|c s IH]; [reflexivity|].
  cbn [Js.toLowerCase Js.filter cleanForKey_spec]. cbv zeta.
  now destruct (Js.is_lower_alnum (Js.lower_char c)); rewrite IH.
Qed.

Lemma firstAuthorOrFallback_is_spec (l : list string) :
  firstAuthorOrFallback l = firstAuthorOrFallback_spec l.
Proof. now destruct l. Qed.

Lemma bibKey_unfolded (p : Paper) :
  key (bibtex p) =
  cleanForKey_spec (surname (firstAuthorOrFallback_spec (authors p)))
  ++ year p ++ cleanForKey_spec (firstWord (title p)).
Proof.
  rewrite key_bibtex. unfold bibKey.
  now rewrite firstAuthorOrFallback_is_spec, !clean_is_cleanForKey_spec.
Qed.

(** On a name without white space at its ends, and none before the
    comma, [surname] is the surname of the specification. *)
Lemma surname_is_spec (a : string) :
  Js.trim a = a ->
  Js.trim (extractSurname_spec a) = extractSurname_spec a ->
  surname a = extractSurname_spec a.
Proof.
  unfold surname, extractSurname_spec. cbv zeta. intros Ha. rewrite Ha.
  now destruct (Js.includes "," (stripNumericSuffix a)).
Qed.

(** On a title without words, or with a word that is no stopword,
    [firstWord] is the first significant word of the specification. *)
Lemma firstWord_is_spec (t : string) :
  title_words t = [] \/
  (exists w, In w (title_words t) /\ is_stopword w = false) ->
  firstWord t = firstSignificantWord_spec t.
Proof.
  unfold firstWord, firstSignificantWord_spec. cbv zeta.
  change (fun w => negb (is_stopword w))
    with (fun w => negb (STOPWORDS_has (Js.toLowerCase w))).
  destruct (List.find _ (title_words t)) as [w|] eqn:E; [reflexivity|].
  intros [->|(w & Hin & Hw)]; [reflexivity|].
  apply (List.find_none _ _ E) in Hin. unfold is_stopword in Hw.
  rewrite Hw in Hin. discriminate.
Qed.

End KeyFormula.

(** C1, as the code has it: the key of every record is the cleaned
    surname of the first author, or of "anon" if there is no author, then
    the year, then the cleaned first word of the title, where the surname
    and the first word are those of the code.  This is the formula of the
    specification whenever the first author has no white space at its
    ends and none before the comma, and the title has a word that is no
    stopword or no word at all; if every word of the title is a stopword,
    the key ends with the cleaned first word.  Without authors the surname
    fragment is "anon".  The record of the end-to-end scenario has the key
    "tong2024diffusion" and a text with the eprint field and without a DOI
    field; a numeric suffix of one to four digits of the first author and
    punctuation within names and words leave no trace in the key, while a
    group of five digits is taken as the surname. *)
Theorem bibKey_rule :
  (forall p : Paper,
      key (bibtex p) =
      cleanForKey_spec (surname (firstAuthorOrFallback_spec (authors p)))
      ++ year p ++ cleanForKey_spec (firstWord (title p))) /\
  (forall p : Paper,
      Js.trim (firstAuthorOrFallback_spec (authors p)) =
      firstAuthorOrFallback_spec (authors p) ->
      Js.trim (extractSurname_spec (firstAuthorOrFallback_spec (authors p))) =
      extractSurname_spec (firstAuthorOrFallback_spec (authors p)) ->
      (title_words (title p) = [] \/
       exists w, In w (title_words (title p)) /\ is_stopword w = false) ->
      key (bibtex p) = key_spec p) /\
  (forall (p : Paper) (w : string) (rest : list string),
      title_words (title p) = w :: rest ->
      Forall (fun x => is_stopword x = true) (w :: rest) ->
      key (bibtex p) =
      cleanForKey_spec (surname (firstAuthorOrFallback_spec (authors p)))
      ++ year p ++ cleanForKey_spec w) /\
  (forall (src : Source) (t y i : string) (j : option string),
      key (bibtex (mkPaper src t [] y i j)) =
      "anon" ++ y ++ cleanForKey_spec (firstWord t)) /\
  (let p := mkPaper arxiv "Diffusion Models Beat GANs" ["Tong, Alex"]
                    "2024" "2401.00001" None in
   key (bibtex p) = "tong2024diffusion" /\
   key_spec p = "tong2024diffusion" /\
   Js.includes "eprint = {2401.00001}" (text (bibtex p)) = true /\
   Js.includes "doi" (text (bibtex p)) = false /\
   Js.includes "DOI" (text (bibtex p)) = false) /\
  key (bibtex (mkPaper dblp "k-Means++: The Advantages of Careful Seeding"
                       ["David Arthur 0001"; "Sergei Vassilvitskii"]
                       "2007" "https://dblp.org/rec/conf/soda/ArthurV07"
                       (Some "SODA"))) = "arthur2007kmeans" /\
  key (bibtex (mkPaper crossref "A (Big) Data Primer" ["O'Neil, Cathy"]
                       "2016" "10.1000/182" None)) = "oneil2016big" /\
  key (bibtex (mkPaper arxiv "On the Origin of Species" ["Charles Darwin 18590"]
                       "1859" "2401.00002" None)) = "185901859on".
Proof.
  split; [exact bibKey_unfolded|].
  split; [|split; [|split; [|split; [|split; [|split; reflexivity]]]]].
  - intros p Ha Hs Ht. rewrite bibKey_unfolded. unfold key_spec.
    now rewrite (surname_is_spec _ Ha Hs), (firstWord_is_spec _ Ht).
  - intros p w rest E Hall. rewrite bibKey_unfolded.
    unfold firstWord. cbv zeta. rewrite E.
    now rewrite (find_none _ _ (w :: rest) (stopwords_fail_test _ Hall)).
  - intros src t y i j. now rewrite bibKey_unfolded.
  - cbv zeta. repeat split; vm_compute; reflexivity.
  - reflexivity.
Qed.

Lemma bibKey_rule_witness :
  let p := mkPaper dblp "An Attention Model" ["Wang, Jianxin"] "2020"
                   "10.1000/182" None in
  key (bibtex p) = key_spec p /\ key_spec p = "wang2020attention".
Proof.
  intros p. destruct bibKey_rule as (_ & Hspec & _).
  split; [|reflexivity].
  apply (Hspec p); [reflexivity | reflexivity |].
  right. exists "Attention". split; [|reflexivity].
  right. left. reflexivity.
Defined.

(** C1 as stated fails: the title "The" has only a stopword; the key of
    the record ends with "the", the formula of the specification with
    "paper". *)
Lemma bibKey_differs_from_spec_formula :
  let p := mkPaper arxiv "The" ["Tong, Alex"] "2024" "2401.00001" None in
  key (bibtex p) = "tong2024the" /\
  key_spec p = "tong2024paper" /\
  key (bibtex p) <> key_spec p.
Proof. cbv zeta. split; [reflexivity | split; [reflexivity | discriminate]]. Qed.

(** C7: the text of a DBLP record ends with the venue line and one
    identifier line; the identifier line is a doi field if the identifier
    starts with "10." and a url field otherwise.  The identifier
    "10.1145/3.4" gives a doi field, "https://dblp.org/rec/x" a url field
    and no doi field. *)
Theorem dblp_doi_or_url :
  (forall p : Paper,
      source p = dblp ->
      text (bibtex p) =
        base p ++ Js.nl ++
        "  journal= {" ++ or_default (journal p) "conference" ++ "}," ++ Js.nl ++
        "  " ++ idField p ++ Js.nl ++ "}" ++ Js.nl /\
      Js.includes (idField p) (text (bibtex p)) = true /\
      (Js.startsWith "10." (id p) = true ->
       idField p = "doi    = {" ++ id p ++ "}") /\
      (Js.startsWith "10." (id p) = false ->
       idField p = "url    = {" ++ id p ++ "}")) /\
  (forall (t y : string) (a : list string) (j : option string),
      let p := mkPaper dblp t a y "10.1145/3.4" j in
      idField p = "doi    = {10.1145/3.4}" /\
      Js.includes "doi    = {10.1145/3.4}" (text (bibtex p)) = true) /\
  (forall (t y : string) (a : list string) (j : option string),
      let p := mkPaper dblp t a y "https://dblp.org/rec/x" j in
      idField p = "url    = {https://dblp.org/rec/x}" /\
      Js.includes "url    = {https://dblp.org/rec/x}" (text (bibtex p)) = true) /\
  (let p := mkPaper dblp "Attention Is All You Need" ["Ashish Vaswani"]
                    "2017" "https://dblp.org/rec/x" (Some "NIPS") in
   Js.includes "doi" (text (bibtex p)) = false) /\
  (let p := mkPaper dblp "Attention Is All You Need" ["Ashish Vaswani"]
                    "2017" "10.1145/3.4" (Some "NIPS") in
   Js.includes "url" (text (bibtex p)) = false).
Proof.
  split; [|split; [|split; [|split]]].
  - intros p E. split; [now apply text_bibtex_dblp|].
    split; [now apply text_dblp_includes_idField|].
    unfold idField. split; intros H; now rewrite H.
  - intros t y a j p. split; [reflexivity|].
    apply (text_dblp_includes_idField p eq_refl).
  - intros t y a j p. split; [reflexivity|].
    apply (text_dblp_includes_idField p eq_refl).
  - vm_compute. reflexivity.
  - vm_compute. reflexivity.
Qed.

Lemma dblp_doi_or_url_witness :
  let p := mkPaper dblp "On Keys" ["Wang, Jianxin"] "2020" "10.1000/182" None in
  Js.includes "doi    = {10.1000/182}" (text (bibtex p)) = true.
Proof.
  cbv zeta.
  destruct dblp_doi_or_url as (H & _).
  destruct (H (mkPaper dblp "On Keys" ["Wang, Jianxin"] "2020" "10.1000/182" None)
              eq_refl) as (_ & Hin & Hdoi & _).
  rewrite (Hdoi eq_refl) in Hin. exact Hin.
Defined.

(* ================================================================== *)
(** ** Run-time values *)

Section RuntimeValues.

Lemma bind_Some (A B : Type) (m : option A) (f : A -> option B) (b : B) :
  bind m f = Some b -> exists a, m = Some a /\ f a = Some b.
Proof. destruct m as [a|]; [now exists a | discriminate]. Qed.

Lemma bind_None (A B : Type) (m : option A) (f : A -> option B) :
  bind m f = None <-> m = None \/ exists a, m = Some a /\ f a = None.
Proof.
  destruct m as [a|]; cbn [bind]; split.
  - intros H. right. now exists a.
  - intros [H|(a' & H & E)]; [discriminate|]. now injection H as ->.
  - now left.
  - reflexivity.
Qed.

Lemma get_Some (v : JsVal) (k : string) (x : JsVal) :
  get v k = Some x -> nullish v = false /\ x = oget v k.
Proof.
  unfold get. destruct (nullish v); [discriminate|].
  intros H. now injection H as <-.
Qed.

Lemma get_defined (v : JsVal) (k : string) :
  nullish v = false -> get v k = Some (oget v k).
Proof. unfold get. now intros ->. Qed.

Lemma get_None (v : JsVal) (k : string) :
  get v k = None <-> nullish v = true.
Proof. unfold get. destruct (nullish v); split; congruence. Qed.

Lemma mapM_Forall (A B : Type) (f : A -> option B) (P : B -> Prop) :
  (forall a b, f a = Some b -> P b) ->
  forall l bs, mapM f l = Some bs -> Forall P bs.
Proof.
  intros Hf. induction l as [|a l IH]; intros bs H; cbn [mapM] in H.
  - injection H as <-. constructor.
  - apply bind_Some in H. destruct H as (b & Hb & H).
    apply bind_Some in H. destruct H as (bs' & Hbs & H).
    injection H as <-. constructor; [now apply (Hf a) | now apply IH].
Qed.

Lemma mapM_Forall2 (A B : Type) (f : A -> option B) (l : list A) :
  forall bs, mapM f l = Some bs <-> Forall2 (fun a b => f a = Some b) l bs.
Proof.
  induction l as [|a l IH]; intros bs; cbn [mapM]; split.
  - intros H. injection H as <-. constructor.
  - intros H. now inversion H.
  - intros H. apply bind_Some in H. destruct H as (b & Hb & H).
    apply bind_Some in H. destruct H as (bs' & Hbs & H).
    injection H as <-. constructor; [exact Hb | now apply IH].
  - intros H. inversion H as [|a' b l' bs' Hb Hbs]; subst.
    rewrite Hb. cbn [bind]. apply IH in Hbs. now rewrite Hbs.
Qed.

(** A mapping over a list throws exactly if it throws on an element. *)
Lemma mapM_None (A B : Type) (f : A -> option B) (l : list A) :
  mapM f l = None <-> exists a, In a l /\ f a = None.
Proof.
  induction l as [|a l IH]; cbn [mapM].
  - split; [discriminate | now intros (a & [] & _)].
  - rewrite bind_None. split.
    + intros [H|(b & Hb & H)].
      * exists a. split; [now left | exact H].
      * apply bind_None in H. destruct H as [H|(bs & _ & H)]; [|discriminate].
        apply IH in H. destruct H as (x & Hin & Hx).
        exists x. split; [now right | exact Hx].
    + intros (x & [->|Hin] & Hx); [now left|].
      destruct (f a) as [b|]; [right | now left].
      exists b. split; [reflexivity|]. apply bind_None. left.
      apply IH. now exists x.
Qed.

Lemma expect_string_Some (v : JsVal) (s : string) :
  expect_string v = Some s <-> v = JStr s.
Proof. destruct v; cbn; split; congruence. Qed.

Lemma expect_string_None (v : JsVal) :
  expect_string v = None <-> forall s, v <> JStr s.
Proof.
  destruct v; cbn; split; try congruence; try discriminate.
  intros H. now elim (H s).
Qed.

Lemma mapM_expect_string (l : list JsVal) (a : list string) :
  mapM expect_string l = Some a <-> l = List.map JStr a.
Proof.
  rewrite mapM_Forall2. revert a.
  induction l as [|x l IH]; intros a; split.
  - intros H. now inversion H.
  - destruct a; [constructor | discriminate].
  - intros H. inversion H as [|x' s l' a' Hx Hl]; subst.
    apply expect_string_Some in Hx. apply IH in Hl. now subst.
  - destruct a as [|s a]; [discriminate|]. cbn [List.map]. intros H.
    injection H as -> ->. constructor; [reflexivity | now apply IH].
Qed.

Lemma strictEquals_true (v : JsVal) (s : string) :
  strictEquals v s = true <-> v = JStr s.
Proof.
  destruct v; cbn; split; try congruence; try discriminate.
  - intros H. apply String.eqb_eq in H. now subst.
  - intros H. injection H as ->. apply String.eqb_refl.
Qed.

(** *** Rendering *)

Lemma renders_false (v : JsVal) : renders v = false <-> ToString v = None.
Proof. unfold renders. destruct (ToString v); split; congruence. Qed.

Lemma renders_true (v : JsVal) :
  renders v = true <-> exists s, ToString v = Some s.
Proof.
  unfold renders. destruct (ToString v) as [s|]; split; try congruence.
  - intros _. now exists s.
  - intros [s H]. discriminate.
Qed.

Lemma renders_nullish (v : JsVal) : nullish v = true -> renders v = true.
Proof. destruct v; try discriminate; reflexivity. Qed.

Lemma renders_coalesce (v : JsVal) (d : string) :
  renders (coalesce v (JStr d)) = renders v.
Proof.
  unfold coalesce. destruct (nullish v) eqn:E; [|reflexivity].
  now rewrite (renders_nullish v E).
Qed.

Lemma ToString_coalesce_None (v : JsVal) (d : string) :
  ToString (coalesce v (JStr d)) = None <-> renders v = false.
Proof. now rewrite <- renders_false, renders_coalesce. Qed.

(** An element in [join]: [undefined] and [null] give the empty string. *)
Lemma element_None (x : JsVal) :
  (if nullish x then Some EmptyString else ToString x) = None <->
  renders x = false.
Proof.
  destruct (nullish x) eqn:E.
  - rewrite (renders_nullish x E). split; discriminate.
  - symmetry. apply renders_false.
Qed.

Lemma joinAuthors_None (v : JsVal) :
  Untyped.joinAuthors v = None <->
  (forall l, v <> JArr l) \/
  (exists l x, v = JArr l /\ In x l /\ renders x = false).
Proof.
  unfold Untyped.joinAuthors.
  destruct v as [| |b|n|s|l|props];
    try (split; [intros _; left; discriminate | reflexivity]).
  rewrite bind_None. split.
  - intros [H|(parts & _ & H)]; [|discriminate].
    apply mapM_None in H. destruct H as (x & Hin & Hx).
    right. exists l, x. split; [reflexivity|]. split; [exact Hin|].
    now apply element_None.
  - intros [H|(l' & x & E & Hin & Hx)]; [now elim (H l)|].
    injection E as <-. left. apply mapM_None. exists x.
    split; [exact Hin | now apply element_None].
Qed.

Lemma joinAuthors_strings (names : list string) :
  Untyped.joinAuthors (Untyped.strings names) = Some (Js.join " and " names).
Proof.
  unfold Untyped.joinAuthors, Untyped.strings.
  assert (E : mapM (fun x => if nullish x then Some EmptyString else ToString x)
                   (List.map JStr names) = Some names).
  { induction names as [|a names IH]; [reflexivity|].
    cbn [List.map mapM nullish ToString bind]. now rewrite IH. }
  now rewrite E.
Qed.

(** If the author list can be joined, its first element, or "anon" in its
    place, can be rendered. *)
Lemma first_author_renders (v : JsVal) (names : string) :
  Untyped.joinAuthors v = Some names ->
  nullish v = false /\
  exists name, ToString (coalesce (oindex0 v) (JStr "anon")) = Some name.
Proof.
  unfold Untyped.joinAuthors. destruct v as [| |b|n|s|l|props]; try discriminate.
  intros H. split; [reflexivity|].
  apply bind_Some in H. destruct H as (parts & H & _).
  destruct l as [|x l]; [now exists "anon"|].
  cbn [mapM] in H. apply bind_Some in H. destruct H as (sx & Hx & _).
  cbn [oindex0 hd]. unfold coalesce.
  destruct (nullish x); [now exists "anon" | now exists sx].
Qed.

End RuntimeValues.

Section RuntimeSynthesis.

Lemma bibKey_Some (r : Untyped.Paper) (names t y : string) :
  Untyped.joinAuthors (Untyped.authors r) = Some names ->
  Untyped.title r = JStr t ->
  ToString (Untyped.year r) = Some y ->
  exists name,
    ToString (coalesce (oindex0 (Untyped.authors r)) (JStr "anon")) = Some name /\
    Untyped.bibKey r = Some (clean (surname name) ++ y ++ clean (firstWord t)).
Proof.
  intros HA HT HY.
  destruct (first_author_renders _ _ HA) as (Hn & name & Hname).
  exists name. split; [exact Hname|].
  unfold Untyped.bibKey, Untyped.firstAuthorOrFallback.
  rewrite Hn. cbn [bind]. rewrite Hname. cbn [bind].
  rewrite HY. cbn [bind]. now rewrite HT.
Qed.

Lemma bibKey_None_without (r : Untyped.Paper) :
  expect_string (Untyped.title r) = None \/ ToString (Untyped.year r) = None ->
  Untyped.bibKey r = None.
Proof.
  intros H. unfold Untyped.bibKey.
  destruct (Untyped.firstAuthorOrFallback r) as [first|]; [|reflexivity].
  cbn [bind]. destruct (ToString first); [|reflexivity]. cbn [bind].
  destruct (ToString (Untyped.year r)); [|reflexivity]. cbn [bind].
  destruct H as [H|H]; [now rewrite H | discriminate].
Qed.

(** The part of the record text that depends on the source. *)
Lemma bibtex_None (r : Untyped.Paper) :
  Untyped.bibtex r = None <->
  Untyped.joinAuthors (Untyped.authors r) = None \/
  expect_string (Untyped.title r) = None \/
  ToString (Untyped.year r) = None \/
  (if strictEquals (Untyped.source r) "arxiv"
   then ToString (Untyped.id r) = None
   else if strictEquals (Untyped.source r) "crossref"
        then ToString (coalesce (Untyped.journal r) (JStr "journal")) = None \/
             ToString (Untyped.id r) = None
        else expect_string (Untyped.id r) = None \/
             ToString (coalesce (Untyped.journal r) (JStr "conference")) = None).
Proof.
  destruct (Untyped.joinAuthors (Untyped.authors r)) as [names|] eqn:HA.
  2:{ split; [now left|]. intros _. unfold Untyped.bibtex.
      destruct (Untyped.bibKey r); cbn [bind]; [now rewrite HA | reflexivity]. }
  destruct (expect_string (Untyped.title r)) as [t|] eqn:HT.
  2:{ split; [now right; left|]. intros _. unfold Untyped.bibtex.
      rewrite bibKey_None_without; [reflexivity | now left]. }
  destruct (ToString (Untyped.year r)) as [y|] eqn:HY.
  2:{ split; [now right; right; left|]. intros _. unfold Untyped.bibtex.
      rewrite bibKey_None_without; [reflexivity | now right]. }
  apply expect_string_Some in HT.
  destruct (bibKey_Some r names t y HA HT HY) as (name & _ & HK).
  unfold Untyped.bibtex. rewrite HK, HA, HY, HT. cbn [bind ToString]. cbv zeta.
  destruct (strictEquals (Untyped.source r) "arxiv").
  { destruct (ToString (Untyped.id r)); cbn [bind]; split; intros H;
      first [discriminate | reflexivity | intuition discriminate | tauto]. }
  destruct (strictEquals (Untyped.source r) "crossref").
  { destruct (ToString (coalesce (Untyped.journal r) (JStr "journal")));
      destruct (ToString (Untyped.id r)); cbn [bind]; split; intros H;
      first [discriminate | reflexivity | intuition discriminate | tauto]. }
  destruct (expect_string (Untyped.id r));
    destruct (ToString (coalesce (Untyped.journal r) (JStr "conference")));
    cbn [bind]; split; intros H;
    first [discriminate | reflexivity | intuition discriminate | tauto].
Qed.

Lemma typedSource_Some (v : JsVal) (src : Source) :
  typedSource v = Some src -> v = JStr (sourceTag src).
Proof.
  unfold typedSource.
  destruct (strictEquals v "arxiv") eqn:E1.
  { intros H. injection H as <-. now apply strictEquals_true. }
  destruct (strictEquals v "crossref") eqn:E2.
  { intros H. injection H as <-. now apply strictEquals_true. }
  destruct (strictEquals v "dblp") eqn:E3; [|discriminate].
  intros H. injection H as <-. now apply strictEquals_true.
Qed.

(** A run-time record is a [Paper] exactly if its properties are those
    of the [Paper], up to [null] for an absent journal. *)
Lemma typed_Some (r : Untyped.Paper) (p : Paper) :
  typed r = Some p ->
  Untyped.source r = JStr (sourceTag (source p)) /\
  Untyped.title r = JStr (title p) /\
  Untyped.authors r = Untyped.strings (authors p) /\
  Untyped.year r = JStr (year p) /\
  Untyped.id r = JStr (id p) /\
  expect_optional_string (Untyped.journal r) = Some (journal p).
Proof.
  unfold typed. intros H.
  apply bind_Some in H. destruct H as (src & Hsrc & H).
  apply bind_Some in H. destruct H as (t & Ht & H).
  apply bind_Some in H. destruct H as (a & Ha & H).
  apply bind_Some in H. destruct H as (y & Hy & H).
  apply bind_Some in H. destruct H as (i & Hi & H).
  apply bind_Some in H. destruct H as (j & Hj & H).
  injection H as <-. cbn [source title authors year id journal].
  apply typedSource_Some in Hsrc. apply expect_string_Some in Ht, Hy, Hi.
  repeat split; trivial.
  destruct (Untyped.authors r); try discriminate.
  apply mapM_expect_string in Ha. now subst.
Qed.

Lemma typed_untyped (p : Paper) : typed (untyped p) = Some p.
Proof.
  destruct p as [src t a y i j]. unfold typed, untyped.
  cbn [Untyped.source Untyped.title Untyped.authors Untyped.year Untyped.id
       Untyped.journal source title authors year id journal].
  replace (typedSource (JStr (sourceTag src))) with (Some src)
    by now destruct src.
  cbn [bind expect_string]. unfold Untyped.strings.
  rewrite (proj2 (mapM_expect_string (List.map JStr a) a) eq_refl).
  cbn [bind]. now destruct j.
Qed.

Lemma first_of_strings (a : list string) :
  ToString (coalesce (oindex0 (Untyped.strings a)) (JStr "anon")) =
  Some (firstAuthorOrFallback a).
Proof. now destruct a. Qed.

(** On a record of the declared type the synthesiser returns, and what
    it returns is [bibtex] of the [Paper]. *)
Lemma bibtex_typed (r : Untyped.Paper) (p : Paper) :
  typed r = Some p -> Untyped.bibtex r = Some (bibtex p).
Proof.
  intros H. apply typed_Some in H.
  destruct H as (Hs & Ht & Ha & Hy & Hi & Hj).
  assert (HK : Untyped.bibKey r = Some (bibKey p)).
  { unfold Untyped.bibKey, Untyped.firstAuthorOrFallback.
    rewrite Ha, Ht, Hy. cbn [Untyped.strings nullish bind].
    change (JArr (List.map JStr (authors p))) with (Untyped.strings (authors p)).
    now rewrite first_of_strings. }
  unfold Untyped.bibtex. rewrite HK, Ha, joinAuthors_strings, Ht, Hy, Hi, Hs.
  cbn [bind ToString expect_string]. cbv zeta.
  assert (Hjournal : forall d,
             ToString (coalesce (Untyped.journal r) (JStr d)) =
             Some (or_default (journal p) d)).
  { intros d. destruct (Untyped.journal r); try discriminate;
      cbn in Hj; injection Hj as <-; reflexivity. }
  unfold bibtex, base, idField.
  destruct (source p); cbn [sourceTag strictEquals String.eqb Ascii.eqb Bool.eqb];
    cbn [andb]; rewrite ?Hjournal; reflexivity.
Qed.

End RuntimeSynthesis.

(** C8, as the code has it: the synthesiser has no error of its own and
    checks nothing.  On every record of the declared type it returns the
    pair of key and text.  On a record as found at run time it throws
    exactly if [authors] is no array or holds a value that cannot be
    rendered, [title] is no string, [year] cannot be rendered, the journal
    of a Crossref or DBLP record cannot be rendered, or the identifier
    cannot be rendered (arXiv, Crossref) or is no string (DBLP).  So it
    throws without title and without authors, but not for an absent year,
    which is rendered as "undefined". *)
Theorem synthesis_of_runtime_records :
  (forall p : Paper, Untyped.bibtex (untyped p) = Some (bibtex p)) /\
  (forall (r : Untyped.Paper) (p : Paper),
      typed r = Some p -> Untyped.bibtex r = Some (bibtex p)) /\
  (forall p : Paper,
      String.prefix ("@article{" ++ key (bibtex p) ++ ",") (text (bibtex p)) = true) /\
  (forall r : Untyped.Paper,
      Untyped.bibtex r = None <->
      (forall l, Untyped.authors r <> JArr l) \/
      (exists l x, Untyped.authors r = JArr l /\ In x l /\ renders x = false) \/
      (forall t, Untyped.title r <> JStr t) \/
      renders (Untyped.year r) = false \/
      (strictEquals (Untyped.source r) "arxiv" = false /\
       renders (Untyped.journal r) = false) \/
      (if strictEquals (Untyped.source r) "arxiv" ||
          strictEquals (Untyped.source r) "crossref"
       then renders (Untyped.id r) = false
       else forall i, Untyped.id r <> JStr i)) /\
  (forall r : Untyped.Paper,
      nullish (Untyped.title r) = true -> Untyped.bibtex r = None) /\
  (forall r : Untyped.Paper,
      nullish (Untyped.authors r) = true -> Untyped.bibtex r = None) /\
  (forall (src : Source) (t i : string) (a : list string) (j : option string),
      Untyped.bibtex
        {| Untyped.source := JStr (sourceTag src);
           Untyped.title := JStr t;
           Untyped.authors := Untyped.strings a;
           Untyped.year := JUndefined;
           Untyped.id := JStr i;
           Untyped.journal := match j with Some v => JStr v | None => JUndefined end |}
      = Some (bibtex (mkPaper src t a "undefined" i j))).
Proof.
  assert (Hfail : forall r : Untyped.Paper,
      Untyped.bibtex r = None <->
      (forall l, Untyped.authors r <> JArr l) \/
      (exists l x, Untyped.authors r = JArr l /\ In x l /\ renders x = false) \/
      (forall t, Untyped.title r <> JStr t) \/
      renders (Untyped.year r) = false \/
      (strictEquals (Untyped.source r) "arxiv" = false /\
       renders (Untyped.journal r) = false) \/
      (if strictEquals (Untyped.source r) "arxiv" ||
          strictEquals (Untyped.source r) "crossref"
       then renders (Untyped.id r) = false
       else forall i, Untyped.id r <> JStr i)).
  { intros r. rewrite bibtex_None, joinAuthors_None, expect_string_None,
      <- renders_false.
    destruct (strictEquals (Untyped.source r) "arxiv");
      [|destruct (strictEquals (Untyped.source r) "crossref")];
      cbn [orb];
      rewrite ?ToString_coalesce_None, ?expect_string_None, <- ?renders_false;
      intuition congruence. }
  split; [intros p; apply bibtex_typed, typed_untyped|].
  split; [exact bibtex_typed|].
  split; [|split; [exact Hfail|split; [|split]]].
  - intros p. rewrite key_bibtex. unfold bibtex.
    destruct (source p); cbn [text]; unfold base;
      rewrite !append_assoc; apply prefix_three.
  - intros r Hn. apply Hfail. right. right. left. intros t E.
    rewrite E in Hn. discriminate.
  - intros r Hn. apply Hfail. left. intros l E. rewrite E in Hn. discriminate.
  - intros src t i a j.
    pose proof (bibtex_typed
                  {| Untyped.source := JStr (sourceTag src);
                     Untyped.title := JStr t;
                     Untyped.authors := Untyped.strings a;
                     Untyped.year := JStr "undefined";
                     Untyped.id := JStr i;
                     Untyped.journal := match j with
                                        | Some v => JStr v
                                        | None => JUndefined
                                        end |}
                  (mkPaper src t a "undefined" i j)
                  (typed_untyped (mkPaper src t a "undefined" i j))) as H.
    exact H.
Qed.

Lemma synthesis_of_runtime_records_witness :
  Untyped.bibtex
    {| Untyped.source := JStr "crossref";
       Untyped.title := JStr "Deep Learning";
       Untyped.authors := JArr [JStr "LeCun, Yann"];
       Untyped.year := JStr "2015";
       Untyped.id := JStr "10.1038/nature14539";
       Untyped.journal := JNull |}
  = Some (bibtex (mkPaper crossref "Deep Learning" ["LeCun, Yann"] "2015"
                          "10.1038/nature14539" None)) /\
  Untyped.bibtex
    {| Untyped.source := JStr "crossref";
       Untyped.title := JUndefined;
       Untyped.authors := JArr [JStr "LeCun, Yann"];
       Untyped.year := JStr "2015";
       Untyped.id := JStr "10.1038/nature14539";
       Untyped.journal := JNull |} = None.
Proof.
  destruct synthesis_of_runtime_records as (_ & Htyped & _ & _ & Htitle & _).
  split; [now apply Htyped | now apply Htitle].
Defined.

(** C8 as stated fails: a record with title and year but without the
    property [authors] makes the synthesiser throw, and so does one whose
    title is a number; a record without year does not. *)
Lemma synthesis_throws_with_title_and_year :
  Untyped.bibtex
    {| Untyped.source := JStr "arxiv";
       Untyped.title := JStr "Diffusion Models Beat GANs";
       Untyped.authors := JUndefined;
       Untyped.year := JStr "2024";
       Untyped.id := JStr "2401.00001";
       Untyped.journal := JUndefined |} = None /\
  Untyped.bibtex
    {| Untyped.source := JStr "arxiv";
       Untyped.title := JNum "2024";
       Untyped.authors := JArr [JStr "Tong, Alex"];
       Untyped.year := JStr "2024";
       Untyped.id := JStr "2401.00001";
       Untyped.journal := JUndefined |} = None /\
  (exists e,
      Untyped.bibtex
        {| Untyped.source := JStr "arxiv";
           Untyped.title := JStr "Diffusion Models Beat GANs";
           Untyped.authors := JArr [JStr "Tong, Alex"];
           Untyped.year := JUndefined;
           Untyped.id := JStr "2401.00001";
           Untyped.journal := JUndefined |} = Some e /\
      key e = "tongundefineddiffusion").
Proof.
  split; [reflexivity | split; [reflexivity|]].
  eexists. split; [vm_compute; reflexivity | reflexivity].
Qed.

(* ================================================================== *)
(** ** Source adapters *)

Section Adapters.

Lemma collapsed_collapse_from (s : string) (b : bool) :
  collapsed_from b (Js.collapse_from b s) = true.
Proof.
  revert b. induction s as [|c s IH]; intros b; [reflexivity|].
  cbn [Js.collapse_from]. destruct (Js.is_space c) eqn:Sc.
  - destruct b; [apply IH|]. cbn. apply IH.
  - cbn [collapsed_from]. rewrite Sc. apply IH.
Qed.

Lemma collapsed_collapse_ws (s : string) : collapsed (Js.collapse_ws s) = true.
Proof. apply collapsed_collapse_from. Qed.

Lemma collapse_ws_empty (s : string) : Js.collapse_ws s = "" <-> s = "".
Proof.
  destruct s as [|c s]; [now split|].
  unfold Js.collapse_ws. cbn [Js.collapse_from].
  destruct (Js.is_space c); split; discriminate.
Qed.

Lemma trim_empty (s : string) :
  Js.trim s = "" <-> Js.dropStart Js.is_space s = "".
Proof.
  unfold Js.trim.
  destruct (dropStart_head Js.is_space s) as [->|(c & r & -> & Hc)].
  - now split.
  - rewrite dropEnd_keeps_head by exact Hc. split; discriminate.
Qed.

(** *** The records the mappings return *)

Lemma untyped_arxivEntry_fields (e : JsVal) (r : Untyped.Paper) :
  Untyped.arxivEntry e = Some r ->
  exists t names y i,
    oget e "title" = JStr t /\
    Untyped.slice_0_4 (oget e "published") = Some y /\
    oget e "id" = JStr i /\
    r = {| Untyped.source := JStr "arxiv";
           Untyped.title := JStr (Js.collapse_ws (Js.trim t));
           Untyped.authors := Untyped.strings names;
           Untyped.year := y;
           Untyped.id := match nth_error (Js.split "/abs/" i) 1 with
                         | Some x => JStr x
                         | None => JUndefined
                         end;
           Untyped.journal := JUndefined |}.
Proof.
  unfold Untyped.arxivEntry. intros H.
  apply bind_Some in H. destruct H as (t0 & Ht0 & H).
  apply get_Some in Ht0. destruct Ht0 as [_ ->].
  apply bind_Some in H. destruct H as (t & Ht & H).
  apply expect_string_Some in Ht.
  apply bind_Some in H. destruct H as (au & _ & H).
  apply bind_Some in H. destruct H as (names & _ & H).
  apply bind_Some in H. destruct H as (p0 & Hp0 & H).
  apply get_Some in Hp0. destruct Hp0 as [_ ->].
  apply bind_Some in H. destruct H as (y & Hy & H).
  apply bind_Some in H. destruct H as (i0 & Hi0 & H).
  apply get_Some in Hi0. destruct Hi0 as [_ ->].
  apply bind_Some in H. destruct H as (i & Hi & H).
  apply expect_string_Some in Hi.
  injection H as <-. now exists t, names, y, i.
Qed.

Lemma untyped_crossrefItem_fields (it : JsVal) (r : Untyped.Paper) :
  Untyped.crossrefItem it = Some r ->
  exists names y,
    nullish it = false /\
    Untyped.crossrefYear it = Some y /\
    r = {| Untyped.source := JStr "crossref";
           Untyped.title := coalesce (oindex0 (oget it "title")) (JStr "(untitled)");
           Untyped.authors := Untyped.strings names;
           Untyped.year := y;
           Untyped.id := coalesce (oget it "DOI") (JStr "");
           Untyped.journal := oindex0 (oget it "container-title") |}.
Proof.
  unfold Untyped.crossrefItem. intros H.
  apply bind_Some in H. destruct H as (t0 & Ht0 & H).
  apply get_Some in Ht0. destruct Ht0 as [Hn ->].
  apply bind_Some in H. destruct H as (au & _ & H).
  apply bind_Some in H. destruct H as (names & _ & H).
  apply bind_Some in H. destruct H as (y & Hy & H).
  injection H as <-. now exists names, y.
Qed.

Lemma untyped_dblpHit_fields (hit : JsVal) (r : Untyped.Paper) :
  Untyped.dblpHit hit = Some r ->
  exists info auth t y j,
    get hit "info" = Some info /\ nullish info = false /\
    Untyped.dblpAuthors info = Some auth /\
    ToString (coalesce (oget info "title") (JStr "(untitled)")) = Some t /\
    ToString (coalesce (oget info "year") (JStr "????")) = Some y /\
    Untyped.dblpJournal info = Some j /\
    r = {| Untyped.source := JStr "dblp";
           Untyped.title := JStr (Js.collapse_ws t);
           Untyped.authors := Untyped.strings auth;
           Untyped.year := JStr y;
           Untyped.id := coalesce (oget info "doi")
                                  (coalesce (oget info "url") (JStr ""));
           Untyped.journal := j |}.
Proof.
  unfold Untyped.dblpHit. intros H.
  apply bind_Some in H. destruct H as (info & Hinfo & H).
  apply bind_Some in H. destruct H as (auth & Hauth & H).
  apply bind_Some in H. destruct H as (t & Ht & H).
  apply bind_Some in H. destruct H as (y & Hy & H).
  apply bind_Some in H. destruct H as (j & Hj & H).
  injection H as <-. exists info, auth, t, y, j.
  repeat split; trivial.
  unfold Untyped.dblpAuthors in Hauth. apply bind_Some in Hauth.
  destruct Hauth as (au & Hau & _). now apply get_Some in Hau.
Qed.


(** The venue falls back to a [type] on which [replace] cannot be
    called. *)
Lemma dblpJournal_None (info : JsVal) :
  Untyped.dblpJournal info = None <->
  nullish (oget info "venue") = true /\
  nullish (oget info "journal") = true /\
  nullish (oget info "booktitle") = true /\
  nullish (oget info "type") = false /\
  (forall s, oget info "type" <> JStr s).
Proof.
  unfold Untyped.dblpJournal.
  destruct (nullish (oget info "venue")); cbn [negb];
    [|split; [discriminate | intuition discriminate]].
  destruct (nullish (oget info "journal")); cbn [negb];
    [|split; [discriminate | intuition discriminate]].
  destruct (nullish (oget info "booktitle")); cbn [negb];
    [|split; [discriminate | intuition discriminate]].
  destruct (oget info "type") as [| |b|n|s|l|props]; cbn [nullish]; split;
    try discriminate; try (intuition discriminate).
  intros (_ & _ & _ & _ & H). now elim (H s).
Qed.

Lemma dblpAuthors_None (info : JsVal) :
  Untyped.dblpAuthors info = None <->
  nullish info = true \/
  (exists l a, oget (oget info "authors") "author" = JArr l /\ In a l /\
               toAuthorStr a = None) \/
  ((forall l, oget (oget info "authors") "author" <> JArr l) /\
   nullish (oget (oget info "authors") "author") = false /\
   toAuthorStr (oget (oget info "authors") "author") = None).
Proof.
  unfold Untyped.dblpAuthors. rewrite bind_None, get_None. split.
  - intros [H|(au & Hau & H)]; [now left | right].
    apply get_Some in Hau. destruct Hau as [_ ->].
    unfold coalesce in H.
    destruct (oget (oget info "authors") "author") as [| |b|n|s|l|props] eqn:E;
      cbn [nullish] in H; cbn [mapM] in H; try discriminate;
      try (right; split; [discriminate|]; split; [reflexivity|];
           apply bind_None in H; destruct H as [H|(x & _ & H)];
           [exact H | discriminate]).
    left. apply mapM_None in H. destruct H as (a & Hin & Ha).
    now exists l, a.
  - intros [H|H]; [now left|]. right.
    destruct (nullish info) eqn:Hn.
    + exfalso. destruct info; try discriminate;
        destruct H as [(l & a & E & _)|(_ & E & _)]; discriminate.
    + exists (oget info "authors"). split; [now apply get_defined|].
      destruct H as [(l & a & E & Hin & Ha)|(Hl & Hnn & Ha)].
      * rewrite E. cbn [coalesce nullish]. apply mapM_None. now exists a.
      * unfold coalesce. rewrite Hnn.
        destruct (oget (oget info "authors") "author") as [| |b|n|s|l|props];
          try (now rewrite Ha); try discriminate; try (now elim (Hl l)).
Qed.

(** When the DBLP mapping throws. *)
Lemma untyped_dblpHit_None (hit info : JsVal) :
  get hit "info" = Some info ->
  (Untyped.dblpHit hit = None <->
   Untyped.dblpAuthors info = None \/
   renders (oget info "title") = false \/
   renders (oget info "year") = false \/
   Untyped.dblpJournal info = None).
Proof.
  intros Hinfo. unfold Untyped.dblpHit. rewrite Hinfo. cbn [bind].
  rewrite <- (ToString_coalesce_None (oget info "title") "(untitled)").
  rewrite <- (ToString_coalesce_None (oget info "year") "????").
  destruct (Untyped.dblpAuthors info); cbn [bind]; [|intuition congruence].
  destruct (ToString (coalesce (oget info "title") (JStr "(untitled)")));
    cbn [bind]; [|intuition congruence].
  destruct (ToString (coalesce (oget info "year") (JStr "????")));
    cbn [bind]; [|intuition congruence].
  destruct (Untyped.dblpJournal info); cbn [bind]; intuition congruence.
Qed.

(** *** The records of the declared type *)

Lemma arxivEntry_fields (e : JsVal) (p : Paper) :
  arxivEntry e = Some p ->
  exists t published i,
    oget e "title" = JStr t /\
    oget e "published" = JStr published /\
    oget e "id" = JStr i /\
    nth_error (Js.split "/abs/" i) 1 = Some (id p) /\
    source p = arxiv /\
    title p = Js.collapse_ws (Js.trim t) /\
    year p = Js.slice_0_4 published /\
    journal p = None.
Proof.
  unfold arxivEntry. intros H.
  apply bind_Some in H. destruct H as (r & Hr & H).
  apply untyped_arxivEntry_fields in Hr.
  destruct Hr as (t & names & y & i & Ht & Hy & Hi & ->).
  apply typed_Some in H.
  cbn [Untyped.source Untyped.title Untyped.authors Untyped.year Untyped.id
       Untyped.journal] in H.
  destruct H as (Hs & Htitle & _ & Hyear & Hid & Hj).
  subst y.
  destruct (oget e "published") as [| |b|n|published|l|props];
    cbn [Untyped.slice_0_4] in Hy; try discriminate.
  exists t, published, i.
  injection Hy as Hy. injection Htitle as Htitle.
  cbn in Hj. injection Hj as Hj.
  destruct (nth_error (Js.split "/abs/" i) 1) as [x|] eqn:En; [|discriminate].
  injection Hid as Hid. subst x.
  repeat split; trivial; try (now symmetry).
  destruct (source p); trivial; discriminate.
Qed.

(** The title of an arXiv record. *)
Lemma arxivEntry_title (e : JsVal) (p : Paper) :
  arxivEntry e = Some p ->
  exists t, oget e "title" = JStr t /\ title p = Js.collapse_ws (Js.trim t).
Proof.
  intros H. apply arxivEntry_fields in H.
  destruct H as (t & published & i & Ht & _ & _ & _ & _ & E & _).
  now exists t.
Qed.

Lemma sourceTag_inj (a b : Source) : sourceTag a = sourceTag b -> a = b.
Proof. destruct a, b; trivial; discriminate. Qed.

Lemma arxivEntry_source (e : JsVal) (p : Paper) :
  arxivEntry e = Some p -> source p = arxiv.
Proof.
  intros H. apply arxivEntry_fields in H.
  now destruct H as (t & pub & i & _ & _ & _ & _ & Hs & _).
Qed.

Lemma crossrefItem_fields (it : JsVal) (p : Paper) :
  crossrefItem it = Some p ->
  source p = crossref /\
  expect_string (coalesce (oindex0 (oget it "title")) (JStr "(untitled)"))
    = Some (title p) /\
  expect_optional_string (oindex0 (oget it "container-title")) = Some (journal p).
Proof.
  unfold crossrefItem. intros H.
  apply bind_Some in H. destruct H as (r & Hr & H).
  apply untyped_crossrefItem_fields in Hr.
  destruct Hr as (names & y & _ & _ & ->).
  apply typed_Some in H. cbn in H.
  destruct H as (Hs & Htitle & _ & _ & _ & Hj).
  injection Hs as Hs. split; [now apply sourceTag_inj|].
  split; [now apply expect_string_Some | exact Hj].
Qed.

Lemma crossrefItem_source (it : JsVal) (p : Paper) :
  crossrefItem it = Some p -> source p = crossref.
Proof. intros H. now apply crossrefItem_fields in H. Qed.

(** The fields the DBLP adapter fills from [info]. *)
Lemma dblpHit_fields (hit : JsVal) (p : Paper) :
  dblpHit hit = Some p ->
  exists info t y j,
    get hit "info" = Some info /\ nullish info = false /\
    Untyped.dblpAuthors info = Some (authors p) /\
    ToString (coalesce (oget info "title") (JStr "(untitled)")) = Some t /\
    ToString (coalesce (oget info "year") (JStr "????")) = Some y /\
    Untyped.dblpJournal info = Some j /\
    coalesce (oget info "doi") (coalesce (oget info "url") (JStr "")) = JStr (id p) /\
    expect_optional_string j = Some (journal p) /\
    source p = dblp /\
    title p = Js.collapse_ws t /\
    year p = y.
Proof.
  unfold dblpHit. intros H.
  apply bind_Some in H. destruct H as (r & Hr & H).
  apply untyped_dblpHit_fields in Hr.
  destruct Hr as (info & auth & t & y & j & Hinfo & Hn & Hauth & Ht & Hy & Hj & ->).
  apply typed_Some in H. cbn in H.
  destruct H as (Hs & Htitle & Ha & Hyear & Hid & Hjournal).
  exists info, t, y, j.
  injection Hs as Hs. injection Htitle as Htitle. injection Hyear as Hyear.
  assert (Ea : auth = authors p).
  { unfold Untyped.strings in Ha. injection Ha as Ha.
    revert Ha. generalize (authors p). clear.
    induction auth as [|x auth IH]; intros [|z l] H; try discriminate;
      [reflexivity|].
    cbn in H. injection H as -> H. now rewrite (IH l H). }
  subst auth.
  repeat split; trivial; try (now symmetry).
  now apply sourceTag_inj.
Qed.

Lemma dblpHit_source (hit : JsVal) (p : Paper) :
  dblpHit hit = Some p -> source p = dblp.
Proof.
  intros H. apply dblpHit_fields in H.
  now destruct H as (info & t & y & j & _ & _ & _ & _ & _ & _ & _ & _ & Hs & _).
Qed.

(** The synthesiser on a DBLP record as the adapter returns it. *)
Lemma untyped_bibtex_dblp (auth : list string) (t y i : string) (j : JsVal) :
  Untyped.bibtex {| Untyped.source := JStr "dblp";
                    Untyped.title := JStr t;
                    Untyped.authors := Untyped.strings auth;
                    Untyped.year := JStr y;
                    Untyped.id := JStr i;
                    Untyped.journal := j |} =
  (v <- ToString (coalesce j (JStr "conference")) ;;
   Some (bibtex (mkPaper dblp t auth y i (Some v)))).
Proof.
  unfold Untyped.bibtex, Untyped.bibKey, Untyped.firstAuthorOrFallback.
  cbn [Untyped.source Untyped.title Untyped.authors Untyped.year Untyped.id
       Untyped.journal].
  change (nullish (Untyped.strings auth)) with false. cbv iota.
  cbn [bind]. rewrite first_of_strings, joinAuthors_strings.
  cbn [bind ToString expect_string]. cbv zeta.
  change (strictEquals (JStr "dblp") "arxiv") with false.
  change (strictEquals (JStr "dblp") "crossref") with false. cbv iota.
  destruct (ToString (coalesce j (JStr "conference"))); reflexivity.
Qed.

End Adapters.





(** C9, as the code has it: the title of an arXiv record is the raw
    title, a string, trimmed and with every run of white space collapsed
    to one space, and empty exactly if the raw title is blank; the title
    of a DBLP record is the text of the raw title, or "(untitled)" if
    there is none, with every run of white space collapsed, and empty
    exactly if that text is empty, as it is for the raw titles "" and [];
    a Crossref record has the title "(untitled)" if the item's first title
    is missing, and that first title if it is a string, so a non-empty
    title if it is a non-empty string.  This
    holds for every record the mapping returns, and so for every record of
    a whole response. *)
Theorem adapter_titles :
  (forall (e : JsVal) (r : Untyped.Paper),
      Untyped.arxivEntry e = Some r ->
      exists t, oget e "title" = JStr t /\
                Untyped.title r = JStr (Js.collapse_ws (Js.trim t)) /\
                collapsed (Js.collapse_ws (Js.trim t)) = true /\
                (Js.collapse_ws (Js.trim t) = "" <->
                 Js.dropStart Js.is_space t = "")) /\
  (forall (hit : JsVal) (r : Untyped.Paper),
      Untyped.dblpHit hit = Some r ->
      exists info s,
        get hit "info" = Some info /\
        ToString (coalesce (oget info "title") (JStr "(untitled)")) = Some s /\
        Untyped.title r = JStr (Js.collapse_ws s) /\
        collapsed (Js.collapse_ws s) = true /\
        (Js.collapse_ws s = "" <-> s = "") /\
        (nullish (oget info "title") = true -> s = "(untitled)") /\
        (forall t, oget info "title" = JStr t -> s = t)) /\
  (forall (it : JsVal) (r : Untyped.Paper),
      Untyped.crossrefItem it = Some r ->
      (nullish (oindex0 (oget it "title")) = true ->
       Untyped.title r = JStr "(untitled)") /\
      (forall t, oindex0 (oget it "title") = JStr t ->
                 Untyped.title r = JStr t)) /\
  (forall (feed : JsVal) (rs : list Untyped.Paper),
      Untyped.searchArxiv feed = Some rs ->
      Forall (fun r => exists t, Untyped.title r = JStr t /\ collapsed t = true)
             rs) /\
  (forall (response : JsVal) (rs : list Untyped.Paper),
      Untyped.searchDblp response = Some rs ->
      Forall (fun r => exists t, Untyped.title r = JStr t /\ collapsed t = true)
             rs) /\
  ToString (JArr []) = Some "" /\
  ToString (JArr [JNull]) = Some "".
Proof.
  assert (Harxiv : forall e r,
             Untyped.arxivEntry e = Some r ->
             exists t, Untyped.title r = JStr t /\ collapsed t = true).
  { intros e r H. apply untyped_arxivEntry_fields in H.
    destruct H as (t & names & y & i & _ & _ & _ & ->).
    eexists. split; [reflexivity | apply collapsed_collapse_ws]. }
  assert (Hdblp : forall h r,
             Untyped.dblpHit h = Some r ->
             exists t, Untyped.title r = JStr t /\ collapsed t = true).
  { intros h r H. apply untyped_dblpHit_fields in H.
    destruct H as (info & auth & t & y & j & _ & _ & _ & _ & _ & _ & ->).
    eexists. split; [reflexivity | apply collapsed_collapse_ws]. }
  split; [|split; [|split; [|split; [|split; [|split; reflexivity]]]]].
  - intros e r H. apply untyped_arxivEntry_fields in H.
    destruct H as (t & names & y & i & Ht & _ & _ & ->).
    exists t. split; [exact Ht|]. split; [reflexivity|].
    split; [apply collapsed_collapse_ws|].
    rewrite collapse_ws_empty. apply trim_empty.
  - intros hit r H. apply untyped_dblpHit_fields in H.
    destruct H as (info & auth & s & y & j & Hinfo & _ & _ & Hs & _ & _ & ->).
    exists info, s. split; [exact Hinfo|]. split; [exact Hs|].
    split; [reflexivity|]. split; [apply collapsed_collapse_ws|].
    split; [apply collapse_ws_empty|]. split.
    + intros Hn. unfold coalesce in Hs. rewrite Hn in Hs. now injection Hs.
    + intros t Ht. rewrite Ht in Hs. now injection Hs.
  - intros it r H. apply untyped_crossrefItem_fields in H.
    destruct H as (names & y & _ & _ & ->). cbn [Untyped.title]. split.
    + intros Hn. unfold coalesce. now rewrite Hn.
    + intros t Ht. now rewrite Ht.
  - intros feed rs H. unfold Untyped.searchArxiv in H.
    apply bind_Some in H. destruct H as (root & _ & H).
    now apply (mapM_Forall _ _ Untyped.arxivEntry _ Harxiv) in H.
  - intros response rs H. unfold Untyped.searchDblp in H.
    apply bind_Some in H. destruct H as (result & _ & H).
    destruct (coalesce (oget (oget result "hits") "hit") (JArr []));
      try discriminate.
    now apply (mapM_Forall _ _ Untyped.dblpHit _ Hdblp) in H.
Qed.

Lemma adapter_titles_witness :
  exists r,
    Untyped.dblpHit (JObj [("info", JObj [("title", JStr "Deep   Residual
 Learning");
                                          ("venue", JArr [JStr "CVPR"; JStr "CoRR"]);
                                          ("year", JStr "2016")])]) = Some r /\
    Untyped.title r = JStr "Deep Residual Learning".
Proof.
  eexists. split; [vm_compute; reflexivity|].
  destruct adapter_titles as (_ & Hdblp & _).
  destruct (Hdblp (JObj [("info", JObj [("title", JStr "Deep   Residual
 Learning");
                                        ("venue", JArr [JStr "CVPR"; JStr "CoRR"]);
                                        ("year", JStr "2016")])])
                  _ eq_refl)
    as (info & s & Hinfo & Hs & Ht & _).
  injection Hinfo as <-. injection Hs as <-. exact Ht.
Defined.

(** C9 as stated fails: an arXiv entry with an empty title, and DBLP hits
    with the raw titles "" and [], give records with the empty title; a
    Crossref item keeps the line break and the run of spaces of its
    title, and stores a first title that is no string as it is. *)
Lemma adapter_title_empty_or_not_collapsed :
  (exists r,
      Untyped.arxivEntry
        (JObj [("title", JStr "");
               ("author", JObj [("name", JStr "Alex Tong")]);
               ("published", JStr "2024-01-02T10:00:00Z");
               ("id", JStr "http://arxiv.org/abs/2401.00001v1")]) = Some r /\
      Untyped.title r = JStr "") /\
  (exists r,
      Untyped.dblpHit (JObj [("info", JObj [("title", JStr ""); ("year", JStr "2020")])])
      = Some r /\
      Untyped.title r = JStr "") /\
  (exists r,
      Untyped.dblpHit (JObj [("info", JObj [("title", JArr []); ("year", JStr "2020")])])
      = Some r /\
      Untyped.title r = JStr "") /\
  (exists r,
      Untyped.crossrefItem (JObj [("title", JArr [JStr "Deep
  Learning"]);
                                  ("DOI", JStr "10.1000/1")]) = Some r /\
      Untyped.title r = JStr "Deep
  Learning" /\
      collapsed "Deep
  Learning" = false) /\
  (exists r,
      Untyped.crossrefItem (JObj [("title", JArr [JStr ""]);
                                  ("DOI", JStr "10.1000/1")]) = Some r /\
      Untyped.title r = JStr "").
Proof.
  repeat split; eexists; (split; [vm_compute; reflexivity|]);
    try split; vm_compute; reflexivity.
Qed.

(** C10, as the code has it: on a DBLP hit without doi and without url
    the mapping throws exactly if [info] is missing, an author cannot be
    turned into a string, the title or the year cannot be rendered, or
    the venue falls back to a [type] that is no string.  Otherwise it
    returns a record with the empty identifier.  The empty string does not
    start with "10.", so the text of that record has the url field with
    nothing between the braces, whenever the synthesiser returns; and it
    returns unless the venue of the record cannot be rendered. *)
Theorem dblp_hit_without_doi_and_url :
  forall hit info : JsVal,
    get hit "info" = Some info ->
    nullish (oget info "doi") = true ->
    nullish (oget info "url") = true ->
    (Untyped.dblpHit hit = None <->
     nullish info = true \/
     (exists l a, oget (oget info "authors") "author" = JArr l /\ In a l /\
                  toAuthorStr a = None) \/
     ((forall l, oget (oget info "authors") "author" <> JArr l) /\
      nullish (oget (oget info "authors") "author") = false /\
      toAuthorStr (oget (oget info "authors") "author") = None) \/
     renders (oget info "title") = false \/
     renders (oget info "year") = false \/
     (nullish (oget info "venue") = true /\
      nullish (oget info "journal") = true /\
      nullish (oget info "booktitle") = true /\
      nullish (oget info "type") = false /\
      (forall s, oget info "type" <> JStr s))) /\
    (forall r : Untyped.Paper,
        Untyped.dblpHit hit = Some r ->
        Untyped.source r = JStr "dblp" /\
        Untyped.id r = JStr "" /\
        (Untyped.bibtex r = None <-> renders (Untyped.journal r) = false) /\
        (forall e : BibEntry,
            Untyped.bibtex r = Some e ->
            Js.includes "url    = {}" (text e) = true) /\
        (forall p : Paper,
            typed r = Some p ->
            id p = "" /\
            Js.startsWith "10." (id p) = false /\
            idField p = "url    = {}" /\
            Js.includes "url    = {}" (text (bibtex p)) = true)).
Proof.
  intros hit info Hinfo Hdoi Hurl. split.
  - rewrite (untyped_dblpHit_None hit info Hinfo), dblpAuthors_None,
      dblpJournal_None. tauto.
  - intros r H. apply untyped_dblpHit_fields in H.
    destruct H as (info' & auth & t & y & j & Hinfo' & _ & _ & _ & _ & _ & ->).
    rewrite Hinfo in Hinfo'. injection Hinfo' as <-.
    unfold coalesce. rewrite Hdoi, Hurl.
    cbn [Untyped.source Untyped.id Untyped.journal].
    split; [reflexivity|]. split; [reflexivity|].
    rewrite untyped_bibtex_dblp. split; [|split].
    + rewrite bind_None, <- renders_false, renders_coalesce.
      split; [|now left]. intros [H|(v & _ & H)]; [exact H | discriminate].
    + intros e H. apply bind_Some in H. destruct H as (v & _ & H).
      injection H as <-.
      apply (text_dblp_includes_idField (mkPaper dblp _ auth y "" (Some v)) eq_refl).
    + intros p H. apply typed_Some in H.
      destruct H as (Hs & _ & _ & _ & Hid & _).
      cbn [Untyped.source Untyped.id] in Hs, Hid.
      injection Hid as Hid. injection Hs as Hs.
      assert (Es : source p = dblp) by (destruct (source p); trivial; discriminate).
      assert (Ef : idField p = "url    = {}") by (unfold idField; now rewrite <- Hid).
      rewrite <- Hid. repeat split; trivial.
      rewrite <- Ef. now apply text_dblp_includes_idField.
Qed.

Lemma dblp_hit_without_doi_and_url_witness :
  exists r e,
    Untyped.dblpHit
      (JObj [("info", JObj [("title", JStr "Adam");
                            ("authors", JObj [("author", JArr [JStr "Diederik P. Kingma";
                                                                JStr "Jimmy Ba"])]);
                            ("venue", JArr [JStr "ICLR"; JStr "CoRR"]);
                            ("year", JStr "2015")])]) = Some r /\
    Untyped.id r = JStr "" /\
    Untyped.bibtex r = Some e /\
    Js.includes "url    = {}" (text e) = true.
Proof.
  do 2 eexists.
  split; [vm_compute; reflexivity|].
  destruct (dblp_hit_without_doi_and_url
              (JObj [("info", JObj [("title", JStr "Adam");
                                    ("authors", JObj [("author", JArr [JStr "Diederik P. Kingma";
                                                                        JStr "Jimmy Ba"])]);
                                    ("venue", JArr [JStr "ICLR"; JStr "CoRR"]);
                                    ("year", JStr "2015")])])
              _ eq_refl eq_refl eq_refl) as (_ & H).
  destruct (H _ eq_refl) as (_ & Hid & _ & Htext & _).
  split; [exact Hid|].
  split; [vm_compute; reflexivity|].
  apply Htext. vm_compute. reflexivity.
Defined.

(** C10 as stated fails: a hit without doi and url whose list of authors
    holds [null] gives no record, because the mapping throws, and with it
    the whole search; so does a hit whose title has a property
    "toString". *)
Lemma dblp_hit_without_doi_and_url_no_record :
  let info := JObj [("title", JStr "Adam");
                    ("authors", JObj [("author", JArr [JStr "Diederik P. Kingma";
                                                        JNull])]);
                    ("venue", JStr "ICLR");
                    ("year", JStr "2015")] in
  let hit := JObj [("info", info)] in
  nullish (oget info "doi") = true /\
  nullish (oget info "url") = true /\
  Untyped.dblpHit hit = None /\
  dblpHit hit = None /\
  Untyped.searchDblp
    (JObj [("result", JObj [("hits", JObj [("hit", JArr [hit])])])]) = None /\
  Untyped.dblpHit
    (JObj [("info", JObj [("title", JObj [("toString", JNum "1")]);
                          ("year", JStr "2015")])]) = None.
Proof. cbv zeta. repeat split. Qed.

(* ================================================================== *)
(** ** Aggregator *)

Section Aggregator.

Lemma Source_eqb_eq (a b : Source) : Source_eqb a b = true <-> a = b.
Proof. destruct a, b; cbn; split; congruence. Qed.

Lemma Source_eqb_refl (a : Source) : Source_eqb a a = true.
Proof. now apply Source_eqb_eq. Qed.

Lemma run_snoc (trace : list Callback) (cb : Callback) :
  run (trace ++ [cb])%list = step (run trace) cb.
Proof. unfold run. now rewrite fold_left_app. Qed.

Lemma toItems_app (a b : list Paper) :
  toItems (a ++ b)%list = (toItems a ++ toItems b)%list.
Proof. unfold toItems. apply List.map_app. Qed.

Lemma length_toItems (l : list Paper) : List.length (toItems l) = List.length l.
Proof. unfold toItems. apply List.length_map. Qed.

Lemma arrived_snoc (trace : list Callback) (cb : Callback) :
  arrived (trace ++ [cb])%list = (arrived trace ++ batch cb)%list.
Proof.
  unfold arrived. rewrite flat_map_app. cbn [flat_map].
  now rewrite List.app_nil_r.
Qed.

Lemma finished_app (a b : list Callback) :
  finished (a ++ b)%list = finished a + finished b.
Proof. unfold finished. now rewrite List.map_app, list_sum_app. Qed.

Lemma step_pending (s : Session) (cb : Callback) :
  pending (step s cb) = (pending s - Z.of_nat (finished [cb]))%Z.
Proof.
  destruct cb; cbn; try lia.
  unfold finish. cbv zeta. destruct (pending s - 1 =? 0)%Z; cbn; lia.
Qed.

Lemma step_items (s : Session) (cb : Callback) :
  items (qp (step s cb)) = (items (qp s) ++ toItems (batch cb))%list.
Proof.
  destruct cb; cbn [step batch toItems List.map].
  - reflexivity.
  - cbn. now rewrite List.app_nil_r.
  - unfold finish. cbv zeta. rewrite List.app_nil_r.
    now destruct (pending s - 1 =? 0)%Z.
Qed.

Lemma step_busy (s : Session) (cb : Callback) :
  busy (qp (step s cb)) =
  match cb with
  | Finally _ => if (pending s - 1 =? 0)%Z then false else busy (qp s)
  | _ => busy (qp s)
  end.
Proof.
  destruct cb; cbn [step]; try reflexivity.
  unfold finish. cbv zeta. now destruct (pending s - 1 =? 0)%Z.
Qed.

(** The session after any sequence of callbacks: the counter has gone
    down by the number of chains that reached [finish], the list holds the
    batches in the order of arrival, and the flag is up as long as fewer
    than three chains have reached [finish]. *)
Lemma run_invariant (trace : list Callback) :
  pending (run trace) = (3 - Z.of_nat (finished trace))%Z /\
  items (qp (run trace)) = toItems (arrived trace) /\
  busy (qp (run trace)) = (finished trace <? 3)%nat.
Proof.
  induction trace as [|cb trace (Hp & Hi & Hb)] using rev_ind.
  - now repeat split.
  - rewrite run_snoc, step_pending, step_items, step_busy.
    rewrite Hp, Hi, Hb, arrived_snoc, toItems_app, finished_app.
    repeat split; [lia|].
    destruct cb as [s ps|s m|s];
      [change (finished [Then s ps]) with 0
      |change (finished [Catch s m]) with 0
      |change (finished [Finally s]) with 1];
      try (now rewrite Nat.add_0_r).
    destruct (3 - Z.of_nat (finished trace) - 1 =? 0)%Z eqn:E.
    + apply Z.eqb_eq in E. symmetry. apply Nat.ltb_ge. lia.
    + apply Z.eqb_neq in E.
      destruct (finished trace <? 3)%nat eqn:L.
      * apply Nat.ltb_lt in L. symmetry. apply Nat.ltb_lt. lia.
      * apply Nat.ltb_ge in L. symmetry. apply Nat.ltb_ge. lia.
Qed.

(** A count over a trace is the sum of the counts over the three chains. *)
Lemma total_split (m : Callback -> nat) (trace : list Callback) :
  list_sum (List.map m trace) =
  list_sum (List.map m (chain arxiv trace)) +
  list_sum (List.map m (chain crossref trace)) +
  list_sum (List.map m (chain dblp trace)).
Proof.
  unfold chain. induction trace as [|cb trace IH]; [reflexivity|].
  cbn [List.filter].
  destruct (origin cb); cbn [Source_eqb]; simpl; simpl in IH; lia.
Qed.

Lemma length_arrived (trace : list Callback) :
  List.length (arrived trace) =
  list_sum (List.map (fun cb => List.length (batch cb)) trace).
Proof.
  unfold arrived. induction trace as [|cb trace IH]; [reflexivity|].
  cbn [flat_map List.map list_sum]. now rewrite List.length_app, IH.
Qed.

Lemma chain_app (src : Source) (a b : list Callback) :
  chain src (a ++ b)%list = (chain src a ++ chain src b)%list.
Proof. apply List.filter_app. Qed.

Lemma in_chain (src : Source) (cb : Callback) (trace : list Callback) :
  In cb (chain src trace) <-> In cb trace /\ origin cb = src.
Proof. unfold chain. rewrite List.filter_In. now rewrite Source_eqb_eq. Qed.

Lemma chain_complete_finished (src : Source) (l : list Callback) :
  chain_complete src l -> finished l = 1.
Proof. intros [[ps ->]|[m ->]]; reflexivity. Qed.

Lemma complete_finished (trace : list Callback) :
  complete trace -> finished trace = 3.
Proof.
  intros H. unfold finished. rewrite total_split.
  fold (finished (chain arxiv trace)) (finished (chain crossref trace))
       (finished (chain dblp trace)).
  now rewrite !(chain_complete_finished _ _ (H _)).
Qed.

Lemma chain_of_then (trace : list Callback) (src : Source) (ps : list Paper) :
  complete trace -> In (Then src ps) trace ->
  chain src trace = [Then src ps; Finally src].
Proof.
  intros H Hin.
  assert (Hc : In (Then src ps) (chain src trace)) by now apply in_chain.
  destruct (H src) as [[ps' E]|[m E]]; rewrite E in Hc |- *;
    destruct Hc as [Hc|[Hc|[]]]; try discriminate.
  now injection Hc as ->.
Qed.

Lemma chain_of_catch (trace : list Callback) (src : Source) (m : string) :
  complete trace -> In (Catch src m) trace ->
  chain src trace = [Catch src m; Finally src].
Proof.
  intros H Hin.
  assert (Hc : In (Catch src m) (chain src trace)) by now apply in_chain.
  destruct (H src) as [[ps' E]|[m' E]]; rewrite E in Hc |- *;
    destruct Hc as [Hc|[Hc|[]]]; try discriminate.
  now injection Hc as ->.
Qed.

Lemma finished_cons (cb : Callback) (l : list Callback) :
  finished (cb :: l) = finished [cb] + finished l.
Proof. apply (finished_app [cb] l). Qed.

Lemma finished_in (l : list Callback) :
  0 < finished l <-> exists src, In (Finally src) l.
Proof.
  induction l as [|cb l IH].
  - change (finished []) with 0. split; [lia | now intros [? []]].
  - rewrite finished_cons. split.
    + intros H. destruct cb as [s ps|s m|s];
        [change (finished [Then s ps]) with 0 in H
        |change (finished [Catch s m]) with 0 in H
        |exists s; now left];
        apply IH in H; destruct H as [src H]; exists src; now right.
    + intros [src [->|H]].
      * change (finished [Finally src]) with 1. lia.
      * assert (0 < finished l) by (apply IH; now exists src). lia.
Qed.

Lemma finished_chain_in (src : Source) (l : list Callback) :
  0 < finished (chain src l) <-> In (Finally src) l.
Proof.
  rewrite finished_in. split.
  - intros [s H]. apply in_chain in H. destruct H as [H E].
    cbn in E. now subst.
  - intros H. exists src. now apply in_chain.
Qed.

(** In a part of a complete trace each chain has reached [finish] at most
    once. *)
Lemma finished_chain_prefix (src : Source) (pre post : list Callback) :
  complete (pre ++ post)%list -> finished (chain src pre) <= 1.
Proof.
  intros H. pose proof (chain_complete_finished _ _ (H src)) as E.
  rewrite chain_app, finished_app in E. lia.
Qed.

Lemma finished_prefix_all (pre post : list Callback) :
  complete (pre ++ post)%list ->
  (3 <= finished pre <-> forall src, In (Finally src) pre).
Proof.
  intros H.
  pose proof (finished_chain_prefix arxiv pre post H) as Ha.
  pose proof (finished_chain_prefix crossref pre post H) as Hc.
  pose proof (finished_chain_prefix dblp pre post H) as Hd.
  assert (E : finished pre = finished (chain arxiv pre) +
                             finished (chain crossref pre) +
                             finished (chain dblp pre))
    by apply total_split.
  split.
  - intros H3 src. apply finished_chain_in. destruct src; lia.
  - intros Hall.
    pose proof (proj2 (finished_chain_in arxiv pre) (Hall arxiv)).
    pose proof (proj2 (finished_chain_in crossref pre) (Hall crossref)).
    pose proof (proj2 (finished_chain_in dblp pre) (Hall dblp)).
    lia.
Qed.

(** A chain that has reached [finish] has settled before. *)
Lemma finally_after_settled (src : Source) (pre post : list Callback) :
  complete (pre ++ post)%list -> In (Finally src) pre ->
  has_settled src pre = true.
Proof.
  intros H Hin.
  assert (Hc : In (Finally src) (chain src pre)) by now apply in_chain.
  assert (Hsettled : exists cb, In cb (chain src pre) /\
                                ((exists ps, cb = Then src ps) \/
                                 (exists m, cb = Catch src m))).
  { specialize (H src). rewrite chain_app in H.
    destruct (chain src pre) as [|x [|y [|z l]]]; cbn [List.app] in H.
    - destruct Hc.
    - destruct Hc as [->|[]].
      destruct H as [[ps E]|[m E]]; discriminate.
    - exists x. split; [now left|].
      destruct H as [[ps E]|[m E]]; injection E as -> _; eauto.
    - destruct H as [[ps E]|[m E]]; discriminate. }
  unfold has_settled. apply existsb_exists.
  destruct Hsettled as (cb & Hcb & Hkind).
  apply in_chain in Hcb. destruct Hcb as [Hcb _].
  exists cb. split; [exact Hcb|].
  destruct Hkind as [[ps ->]|[m ->]]; apply Source_eqb_refl.
Qed.

(** The last callback of a complete trace is a [finish]. *)
Lemma complete_last (trace : list Callback) :
  complete trace -> exists pre src, trace = (pre ++ [Finally src])%list.
Proof.
  intros H.
  destruct trace as [|cb0 trace0] using rev_ind.
  - destruct (H arxiv) as [[ps E]|[m E]]; discriminate.
  - clear IHtrace0. destruct cb0 as [s ps|s m|s]; [| |now exists trace0, s];
      exfalso; specialize (H s); rewrite chain_app in H;
      cbn [chain List.filter origin] in H; rewrite Source_eqb_refl in H;
      destruct H as [[ps' E]|[m' E]];
      destruct (chain s trace0) as [|x [|y [|z l]]]; cbn [List.app] in E;
      try discriminate; destruct l; discriminate.
Qed.

Lemma run_placeholder (trace : list Callback) :
  complete trace ->
  placeholder (qp (run trace)) =
  match items (qp (run trace)) with
  | [] => "No results found"
  | _ :: _ => "Select a paper"
  end%string.
Proof.
  intros H. pose proof (complete_finished trace H) as Hf.
  destruct (complete_last trace H) as (pre & src & ->).
  rewrite finished_app in Hf. cbn in Hf.
  rewrite run_snoc. cbn [step]. unfold finish. cbv zeta.
  destruct (run_invariant pre) as (-> & _).
  replace (finished pre) with 2 by lia. reflexivity.
Qed.

End Aggregator.

Section RunningChains.

Lemma chain_running_finished (src : Source) (l : list Callback) :
  chain_running src l -> finished l <= 1.
Proof.
  intros [->|[(ps & [->| ->])|(m & [->| ->])]]; cbn; lia.
Qed.

Lemma well_formed_finished (trace : list Callback) :
  well_formed trace ->
  (3 <= finished trace <-> forall src, In (Finally src) trace).
Proof.
  intros H.
  pose proof (chain_running_finished _ _ (H arxiv)) as Ha.
  pose proof (chain_running_finished _ _ (H crossref)) as Hc.
  pose proof (chain_running_finished _ _ (H dblp)) as Hd.
  assert (E : finished trace = finished (chain arxiv trace) +
                               finished (chain crossref trace) +
                               finished (chain dblp trace))
    by apply total_split.
  split.
  - intros H3 src. apply finished_chain_in. destruct src; lia.
  - intros Hall.
    pose proof (proj2 (finished_chain_in arxiv trace) (Hall arxiv)).
    pose proof (proj2 (finished_chain_in crossref trace) (Hall crossref)).
    pose proof (proj2 (finished_chain_in dblp trace) (Hall dblp)).
    lia.
Qed.

Lemma settled_of_chain (src : Source) (cb : Callback) (trace : list Callback) :
  In cb (chain src trace) ->
  (exists ps, cb = Then src ps) \/ (exists m, cb = Catch src m) ->
  has_settled src trace = true.
Proof.
  intros Hin Hkind. apply in_chain in Hin. destruct Hin as [Hin _].
  unfold has_settled. apply existsb_exists. exists cb. split; [exact Hin|].
  destruct Hkind as [[ps ->]|[m ->]]; apply Source_eqb_refl.
Qed.

Lemma finally_after_settling (src : Source) (trace : list Callback) :
  well_formed trace -> In (Finally src) trace -> has_settled src trace = true.
Proof.
  intros H Hin.
  assert (Hc : In (Finally src) (chain src trace)) by now apply in_chain.
  destruct (H src) as [E|[(ps & [E|E])|(m & [E|E])]]; rewrite E in Hc.
  - destruct Hc.
  - destruct Hc as [Hc|[]]. discriminate.
  - apply (settled_of_chain src (Then src ps)); [rewrite E; now left | eauto].
  - destruct Hc as [Hc|[]]. discriminate.
  - apply (settled_of_chain src (Catch src m)); [rewrite E; now left | eauto].
Qed.

End RunningChains.

(** C2, as the code runs: the flag goes down when the third chain reaches
    [finish], and so never before every source has settled; but a source
    that has failed keeps the flag up after it has settled, until the
    promise of its error notification settles and its chain reaches
    [finish].  With the arXiv and DBLP searches fulfilled (5 and 7
    records) and the Crossref search rejected, every source has settled
    and the list has its 12 records, yet the flag is up and one search is
    counted as pending; with three failures the flag is up as long as one
    of the three notifications is open. *)
Theorem busy_waits_for_the_error_notification :
  (forall trace : list Callback,
      well_formed trace ->
      (busy (qp (run trace)) = false <-> forall src, In (Finally src) trace) /\
      (busy (qp (run trace)) = false -> forall src, has_settled src trace = true)) /\
  (forall (trace : list Callback) (src : Source) (m : string),
      well_formed trace ->
      chain src trace = [Catch src m] ->
      has_settled src trace = true /\ busy (qp (run trace)) = true) /\
  (let p := mkPaper crossref "On Keys" ["Wang, Jianxin"] "2020" "10.1000/182" None in
   let trace := [Then arxiv (repeat p 5); Finally arxiv;
                 Then dblp (repeat p 7); Finally dblp;
                 Catch crossref "fetch failed"] in
   well_formed trace /\
   (forall src, has_settled src trace = true) /\
   busy (qp (run trace)) = true /\
   pending (run trace) = 1%Z /\
   List.length (items (qp (run trace))) = 12 /\
   busy (qp (run (trace ++ [Finally crossref]))) = false) /\
  (let trace := [Catch arxiv "fetch failed"; Catch dblp "fetch failed";
                 Catch crossref "fetch failed"; Finally dblp; Finally arxiv] in
   well_formed trace /\
   (forall src, has_settled src trace = true) /\
   busy (qp (run trace)) = true /\
   items (qp (run trace)) = []).
Proof.
  assert (Hbusy : forall trace, well_formed trace ->
            (busy (qp (run trace)) = false <-> forall src, In (Finally src) trace)).
  { intros trace H. destruct (run_invariant trace) as (_ & _ & ->).
    rewrite Nat.ltb_ge. now apply well_formed_finished. }
  split; [|split; [|split]].
  - intros trace H. split; [now apply Hbusy|].
    intros Hb src. apply (finally_after_settling src trace H).
    now apply (Hbusy trace H).
  - intros trace src m H E. split.
    + apply (settled_of_chain src (Catch src m)); [rewrite E; now left | eauto].
    + destruct (busy (qp (run trace))) eqn:Hb; [reflexivity|].
      exfalso. pose proof (proj1 (Hbusy trace H) Hb src) as Hin.
      assert (Hc : In (Finally src) (chain src trace)) by now apply in_chain.
      rewrite E in Hc. destruct Hc as [Hc|[]]. discriminate.
  - cbv zeta. split.
    { intros [| |]; unfold chain_running; cbn; eauto. }
    split; [now intros [| |]|]. repeat split.
  - cbv zeta. split.
    { intros [| |]; unfold chain_running; cbn; eauto. }
    split; [now intros [| |]|]. repeat split.
Qed.

Lemma busy_waits_for_the_error_notification_witness :
  let p := mkPaper dblp "On Keys" ["Wang, Jianxin"] "2020" "10.1000/182" None in
  let trace := [Catch crossref "fetch failed"; Then dblp [p]; Then arxiv [];
                Finally arxiv; Finally dblp] in
  has_settled crossref trace = true /\ busy (qp (run trace)) = true.
Proof.
  intros p trace.
  destruct busy_waits_for_the_error_notification as (_ & Hopen & _).
  apply (Hopen trace crossref "fetch failed"); [|reflexivity].
  intros [| |]; unfold chain_running; cbn; eauto.
Defined.

(** X24: a source that fails adds no record, and its chain still takes one
    off the pending count.  When the chains of the three sources have run
    to [finish], in whatever interleaving, the flag is down and the list
    holds the batches of the sources that succeeded, in the order of
    arrival.  At any earlier point the flag is down only if all three
    chains have reached [finish], so only after every source has settled.
    With one failure and batches of 5 and 7 records the final list has 12
    records; with three failures it is empty and the flag is down all the
    same. *)
Theorem aggregating_until_all_settled :
  (forall (s : Session) (src : Source) (m : string),
      items (qp (step (step s (Catch src m)) (Finally src))) = items (qp s) /\
      pending (step (step s (Catch src m)) (Finally src)) = (pending s - 1)%Z) /\
  (forall trace : list Callback,
      complete trace ->
      busy (qp (run trace)) = false /\
      pending (run trace) = 0%Z /\
      items (qp (run trace)) = toItems (arrived trace)) /\
  (forall pre post : list Callback,
      complete (pre ++ post)%list ->
      (busy (qp (run pre)) = false <-> forall src, In (Finally src) pre) /\
      (busy (qp (run pre)) = false -> forall src, has_settled src pre = true) /\
      (post <> [] -> busy (qp (run pre)) = true)) /\
  (forall (trace : list Callback) (failed ok5 ok7 : Source) (m : string)
          (a b : list Paper),
      complete trace ->
      In (Catch failed m) trace ->
      In (Then ok5 a) trace -> In (Then ok7 b) trace -> ok5 <> ok7 ->
      List.length a = 5 -> List.length b = 7 ->
      List.length (items (qp (run trace))) = 12 /\
      busy (qp (run trace)) = false) /\
  (forall trace : list Callback,
      complete trace ->
      (forall src, exists m, In (Catch src m) trace) ->
      busy (qp (run trace)) = false /\
      items (qp (run trace)) = [] /\
      placeholder (qp (run trace)) = "No results found").
Proof.
  assert (Hdone : forall trace, complete trace -> busy (qp (run trace)) = false).
  { intros trace H. destruct (run_invariant trace) as (_ & _ & ->).
    now rewrite (complete_finished trace H). }
  assert (Hbusy : forall pre post, complete (pre ++ post)%list ->
            (busy (qp (run pre)) = false <-> forall src, In (Finally src) pre)).
  { intros pre post H. destruct (run_invariant pre) as (_ & _ & ->).
    rewrite Nat.ltb_ge. now apply finished_prefix_all with (post := post). }
  split; [|split; [|split; [|split]]].
  - intros s src m. rewrite !step_items, !step_pending. cbn.
    rewrite !List.app_nil_r. split; [reflexivity | lia].
  - intros trace H. split; [now apply Hdone|].
    destruct (run_invariant trace) as (Hp & Hi & _).
    rewrite (complete_finished trace H) in Hp. now split.
  - intros pre post H. split; [now apply Hbusy with (post := post)|]. split.
    + intros Hb src. apply (finally_after_settled src pre post H).
      now apply (Hbusy pre post H).
    + intros Hpost. destruct (busy (qp (run pre))) eqn:Hb; [reflexivity|].
      exfalso. destruct (complete_last _ H) as (pre' & src & E).
      pose proof (proj1 (Hbusy pre post H) Hb src) as Hin.
      pose proof (chain_complete_finished _ _ (H src)) as Hone.
      rewrite chain_app, finished_app in Hone.
      pose proof (proj2 (finished_chain_in src pre) Hin) as Hpre.
      assert (Hlast : exists src', In (Finally src') post).
      { destruct post as [|cb post] using rev_ind; [congruence|].
        rewrite List.app_assoc in E. apply List.app_inj_tail in E.
        destruct E as [_ ->]. exists src. apply List.in_or_app. right. now left. }
      destruct Hlast as [src' Hin'].
      pose proof (proj1 (Hbusy pre post H) Hb src') as Hin2.
      pose proof (chain_complete_finished _ _ (H src')) as Hone'.
      rewrite chain_app, finished_app in Hone'.
      pose proof (proj2 (finished_chain_in src' pre) Hin2).
      pose proof (proj2 (finished_chain_in src' post) Hin').
      lia.
  - intros trace failed ok5 ok7 m a b H Hf Ha Hb Hne La Lb.
    split; [|now apply Hdone].
    destruct (run_invariant trace) as (_ & -> & _).
    rewrite length_toItems, length_arrived, total_split.
    pose proof (chain_of_catch trace failed m H Hf) as Ef.
    pose proof (chain_of_then trace ok5 a H Ha) as Ea.
    pose proof (chain_of_then trace ok7 b H Hb) as Eb.
    destruct failed, ok5, ok7; try congruence;
      rewrite Ef, Ea, Eb; cbn; lia.
  - intros trace H Hfail. split; [now apply Hdone|].
    assert (Hitems : items (qp (run trace)) = []).
    { destruct (run_invariant trace) as (_ & -> & _).
      assert (E : arrived trace = []).
      { apply List.length_zero_iff_nil. rewrite length_arrived, total_split.
        destruct (Hfail arxiv) as [m1 H1]. destruct (Hfail crossref) as [m2 H2].
        destruct (Hfail dblp) as [m3 H3].
        rewrite (chain_of_catch trace _ _ H H1), (chain_of_catch trace _ _ H H2),
                (chain_of_catch trace _ _ H H3).
        reflexivity. }
      now rewrite E. }
    split; [exact Hitems|].
    rewrite (run_placeholder trace H). now rewrite Hitems.
Qed.

Lemma aggregating_until_all_settled_witness :
  let p := mkPaper crossref "On Keys" ["Wang, Jianxin"] "2020" "10.1000/182" None in
  let pre := [Then dblp (repeat p 7); Catch arxiv "fetch failed";
              Then crossref (repeat p 5); Finally dblp; Finally crossref] in
  let trace := (pre ++ [Finally arxiv])%list in
  (List.length (items (qp (run trace))) = 12 /\ busy (qp (run trace)) = false) /\
  busy (qp (run pre)) = true.
Proof.
  intros p pre trace.
  destruct aggregating_until_all_settled as (_ & _ & Hpre & Hpartial & _).
  assert (Hcomplete : complete trace).
  { intros [| |]; [right; now exists "fetch failed" | left | left];
      eexists; reflexivity. }
  split.
  - apply (Hpartial trace arxiv crossref dblp "fetch failed"
                    (repeat p 5) (repeat p 7) Hcomplete);
      cbn; try discriminate; try reflexivity; tauto.
  - apply (Hpre pre [Finally arxiv] Hcomplete). discriminate.
Defined.

(* ================================================================== *)
(** ** Further properties: key fragments *)

Section Characters.

Lemma code_bound (c : ascii) : (Js.code c < 256)%N.
Proof. apply N_ascii_bounded. Qed.

Lemma code_ascii_of_N (n : N) : (n < 256)%N -> Js.code (ascii_of_N n) = n.
Proof. apply N_ascii_embedding. Qed.

Ltac compare_codes :=
  repeat match goal with
         | |- context [(?a <=? ?b)%N] => destruct (N.leb_spec a b)
         | |- context [(?a =? ?b)%N] => destruct (N.eqb_spec a b)
         | H : context [(?a <=? ?b)%N] |- _ => destruct (N.leb_spec a b)
         | H : context [(?a =? ?b)%N] |- _ => destruct (N.eqb_spec a b)
         end;
  cbn in *; try reflexivity; try discriminate; try lia.

Lemma lower_alnum_fixed (c : ascii) :
  Js.is_lower_alnum c = true -> Js.lower_char c = c.
Proof.
  unfold Js.lower_char, Js.is_lower_alnum, Js.is_lower, Js.is_digit,
    Js.is_upper, Js.is_upper_latin1.
  cbv zeta. intros H. compare_codes.
Qed.

Lemma alnum_lowered (c : ascii) :
  Js.is_alnum c = true -> Js.is_lower_alnum (Js.lower_char c) = true.
Proof.
  intros H. unfold Js.lower_char.
  destruct (Js.is_upper c || Js.is_upper_latin1 c) eqn:U.
  - unfold Js.is_lower_alnum, Js.is_lower, Js.is_digit. cbv zeta.
    pose proof (code_bound c) as B.
    assert (Hup : Js.is_upper c = true).
    { revert H U. unfold Js.is_alnum, Js.is_upper, Js.is_upper_latin1,
        Js.is_lower, Js.is_digit. cbv zeta. intros H U. compare_codes. }
    unfold Js.is_upper in Hup. cbv zeta in Hup.
    apply andb_true_iff in Hup. destruct Hup as [H1 H2].
    apply N.leb_le in H1, H2.
    rewrite code_ascii_of_N by lia.
    compare_codes.
  - revert H U. unfold Js.is_alnum, Js.is_lower_alnum, Js.is_upper,
      Js.is_upper_latin1, Js.is_lower, Js.is_digit. cbv zeta. intros H U.
    compare_codes.
Qed.

Lemma digit_is_lower_alnum (c : ascii) :
  Js.is_digit c = true -> Js.is_lower_alnum c = true.
Proof. unfold Js.is_lower_alnum. intros ->. apply orb_true_r. Qed.

End Characters.

Section Clean.

Lemma all_filter (p : ascii -> bool) (s : string) :
  Js.all p (Js.filter p s) = true.
Proof.
  induction s as [|c s IH]; [reflexivity|].
  cbn [Js.filter]. destruct (p c) eqn:E; [|exact IH].
  cbn [Js.all]. now rewrite E.
Qed.

Lemma filter_all (p : ascii -> bool) (s : string) :
  Js.all p s = true -> Js.filter p s = s.
Proof.
  induction s as [|c s IH]; [reflexivity|].
  cbn [Js.all Js.filter]. intros H. apply andb_true_iff in H.
  destruct H as [-> H]. now rewrite IH.
Qed.

Lemma filter_append (p : ascii -> bool) (a b : string) :
  Js.filter p (a ++ b) = Js.filter p a ++ Js.filter p b.
Proof.
  induction a as [|c a IH]; [reflexivity|].
  cbn [append Js.filter]. destruct (p c); cbn [append]; now rewrite IH.
Qed.

Lemma toLowerCase_append (a b : string) :
  Js.toLowerCase (a ++ b) = Js.toLowerCase a ++ Js.toLowerCase b.
Proof.
  induction a as [|c a IH]; [reflexivity|].
  cbn [append Js.toLowerCase]. now rewrite IH.
Qed.

Lemma toLowerCase_lower_alnum (s : string) :
  Js.all Js.is_lower_alnum s = true -> Js.toLowerCase s = s.
Proof.
  induction s as [|c s IH]; [reflexivity|].
  cbn [Js.all Js.toLowerCase]. intros H. apply andb_true_iff in H.
  destruct H as [Hc Hs]. now rewrite (lower_alnum_fixed c Hc), IH.
Qed.

Lemma all_weaken (p q : ascii -> bool) (s : string) :
  (forall c, p c = true -> q c = true) ->
  Js.all p s = true -> Js.all q s = true.
Proof.
  intros Hpq. induction s as [|c s IH]; [reflexivity|].
  cbn [Js.all]. intros H. apply andb_true_iff in H. destruct H as [Hc Hs].
  now rewrite (Hpq c Hc), IH.
Qed.

Lemma clean_alnum (s : string) : Js.all Js.is_lower_alnum (clean s) = true.
Proof. apply all_filter. Qed.

Lemma clean_append (a b : string) : clean (a ++ b) = clean a ++ clean b.
Proof. unfold clean. now rewrite toLowerCase_append, filter_append. Qed.

Lemma clean_fixed (s : string) :
  Js.all Js.is_lower_alnum s = true -> clean s = s.
Proof.
  intros H. unfold clean. rewrite (toLowerCase_lower_alnum s H).
  now apply filter_all.
Qed.

Lemma append_not_empty_r (a b : string) : b <> "" -> a ++ b <> "".
Proof. intros Hb. destruct a; [exact Hb | discriminate]. Qed.

End Clean.

(** X1: [clean] leaves only lower-case letters and digits, changes nothing
    in a string that has only such characters (so cleaning twice is
    cleaning once), and cleans a concatenation part by part. *)
Theorem clean_normal_form :
  (forall s : string, Js.all Js.is_lower_alnum (clean s) = true) /\
  (forall s : string, Js.all Js.is_lower_alnum s = true <-> clean s = s) /\
  (forall s : string, clean (clean s) = clean s) /\
  (forall a b : string, clean (a ++ b) = clean a ++ clean b).
Proof.
  split; [exact clean_alnum|]. split; [|split; [|exact clean_append]].
  - intros s. split; [apply clean_fixed|].
    intros E. rewrite <- E. apply clean_alnum.
  - intros s. apply clean_fixed, clean_alnum.
Qed.

Lemma clean_normal_form_witness :
  clean "tong2024" = "tong2024" /\ Js.all Js.is_lower_alnum "tong2024" = true.
Proof.
  destruct clean_normal_form as (_ & Hfix & _).
  split; [now apply (Hfix "tong2024") | now apply (Hfix "tong2024")].
Defined.

(** X2: if the year of a record has only digits, its citation key has
    only lower-case letters and digits. *)
Theorem bibKey_alphanumeric (p : Paper) :
  Js.all Js.is_digit (year p) = true ->
  Js.all Js.is_lower_alnum (key (bibtex p)) = true.
Proof.
  intros Hy. rewrite key_bibtex. unfold bibKey.
  rewrite !all_append, !clean_alnum.
  now rewrite (all_weaken _ _ (year p) digit_is_lower_alnum Hy).
Qed.

Lemma bibKey_alphanumeric_witness :
  Js.all Js.is_lower_alnum
    (key (bibtex (mkPaper dblp "The $k$-Means Problem" ["O'Neil, Jürgen 2"]
                          "1999" "https://dblp.org/rec/x" None))) = true.
Proof. apply bibKey_alphanumeric. reflexivity. Defined.

Section FirstWordShape.

Lemma find_in (A : Type) (f : A -> bool) (l : list A) (x : A) :
  List.find f l = Some x -> In x l.
Proof. intros H. now apply List.find_some in H. Qed.

Lemma firstWord_cases (t : string) :
  firstWord t = "paper" \/ In (firstWord t) (title_words t).
Proof.
  unfold firstWord. cbv zeta.
  destruct (List.find _ (title_words t)) as [w|] eqn:E.
  - right. now apply find_in in E.
  - destruct (title_words t) as [|w ws]; [now left | right; now left].
Qed.

Lemma stripped_head_alnum (w : string) :
  w <> "" -> strip_punct w = w ->
  exists c r, w = String c r /\ Js.is_alnum c = true.
Proof.
  intros Hw E.
  assert (Hd : Js.dropStart (fun c => negb (Js.is_alnum c)) w = w).
  { rewrite <- E at 1. unfold strip_punct. cbv zeta.
    rewrite dropStart_dropEnd. exact E. }
  destruct (dropStart_head (fun c => negb (Js.is_alnum c)) w)
    as [H|(c & r & H & Hc)]; rewrite Hd in H; [congruence|].
  exists c, r. split; [exact H | now apply negb_false_iff].
Qed.

Lemma firstWord_shape (t : string) :
  firstWord t <> "" /\ no_space (firstWord t) = true /\
  strip_punct (firstWord t) = firstWord t.
Proof.
  destruct (firstWord_cases t) as [->|Hin].
  - repeat split. discriminate.
  - pose proof (title_words_shape t) as H.
    rewrite List.Forall_forall in H. exact (H _ Hin).
Qed.

Lemma clean_firstWord_not_empty (t : string) : clean (firstWord t) <> "".
Proof.
  destruct (firstWord_shape t) as (Hne & _ & Hs).
  destruct (stripped_head_alnum _ Hne Hs) as (c & r & -> & Hc).
  unfold clean. cbn [Js.toLowerCase Js.filter].
  now rewrite (alnum_lowered c Hc).
Qed.

End FirstWordShape.

(** X3: whatever the title, [firstWord] returns a word that is not empty,
    has no white space, and begins and ends with a letter or digit
    (stripping it again changes nothing). *)
Theorem firstWord_is_a_word (t : string) :
  firstWord t <> "" /\
  no_space (firstWord t) = true /\
  strip_punct (firstWord t) = firstWord t /\
  (exists c r, firstWord t = String c r /\ Js.is_alnum c = true).
Proof.
  destruct (firstWord_shape t) as (Hne & Hsp & Hs).
  repeat split; trivial. now apply stripped_head_alnum.
Qed.

(** X4: the title fragment of a citation key is never empty, so no record
    has the empty key: not a record of the declared type, and not a
    record as found at run time, whenever the synthesiser returns.  With an
    empty list of authors and the empty string as title the key is "anon",
    the year, "paper". *)
Theorem bibKey_never_empty :
  (forall t : string, clean (firstWord t) <> "") /\
  (forall p : Paper, key (bibtex p) <> "") /\
  (forall (r : Untyped.Paper) (e : BibEntry),
      Untyped.bibtex r = Some e -> key e <> "") /\
  (forall (src : Source) (y i : string) (j : option string),
      key (bibtex (mkPaper src "" [] y i j)) = "anon" ++ y ++ "paper").
Proof.
  split; [exact clean_firstWord_not_empty|].
  split; [|split; [|intros src y i j; now rewrite key_bibtex]].
  - intros p. rewrite key_bibtex. unfold bibKey.
    apply append_not_empty_r, append_not_empty_r, clean_firstWord_not_empty.
  - intros r e H. unfold Untyped.bibtex in H.
    apply bind_Some in H. destruct H as (k & Hk & H).
    assert (Ek : key e = k).
    { repeat (apply bind_Some in H; destruct H as (? & _ & H)).
      cbv zeta in H.
      destruct (strictEquals (Untyped.source r) "arxiv");
        [|destruct (strictEquals (Untyped.source r) "crossref")];
        repeat (apply bind_Some in H; destruct H as (? & _ & H));
        now injection H as <-. }
    rewrite Ek. unfold Untyped.bibKey in Hk.
    repeat (apply bind_Some in Hk; destruct Hk as (? & _ & Hk)).
    injection Hk as <-.
    apply append_not_empty_r, append_not_empty_r, clean_firstWord_not_empty.
Qed.

Lemma bibKey_never_empty_witness :
  exists e,
    Untyped.bibtex
      {| Untyped.source := JStr "dblp";
         Untyped.title := JStr "";
         Untyped.authors := JArr [];
         Untyped.year := JUndefined;
         Untyped.id := JStr "";
         Untyped.journal := JArr [JStr "ICLR"; JStr "CoRR"] |} = Some e /\
    key e = "anonundefinedpaper" /\ key e <> "".
Proof.
  destruct bibKey_never_empty as (_ & _ & H & _).
  eexists. split; [vm_compute; reflexivity|]. split; [reflexivity|].
  apply (H {| Untyped.source := JStr "dblp";
              Untyped.title := JStr "";
              Untyped.authors := JArr [];
              Untyped.year := JUndefined;
              Untyped.id := JStr "";
              Untyped.journal := JArr [JStr "ICLR"; JStr "CoRR"] |}).
  vm_compute. reflexivity.
Defined.

Section SuffixShape.

Lemma last_char_is_cons (p : ascii -> bool) (c : ascii) (s : string) :
  s <> "" -> last_char_is p (String c s) = last_char_is p s.
Proof. destruct s; [congruence | reflexivity]. Qed.

Lemma last_char_is_all (p : ascii -> bool) (d : string) :
  d <> "" -> Js.all p d = true -> last_char_is p d = true.
Proof.
  induction d as [|c d IH]; [congruence|].
  intros _ H. cbn [Js.all] in H. apply andb_true_iff in H. destruct H as [Hc Hd].
  destruct d as [|x d]; [exact Hc|].
  rewrite last_char_is_cons by discriminate. apply IH; [discriminate | exact Hd].
Qed.

Lemma last_char_is_dropStart (p q : ascii -> bool) (s : string) :
  last_char_is p (Js.dropStart q s) = true -> last_char_is p s = true.
Proof.
  induction s as [|c s IH]; [trivial|].
  cbn [Js.dropStart]. destruct (q c); [|trivial].
  intros H. destruct s as [|x s]; [discriminate|].
  rewrite last_char_is_cons by discriminate. now apply IH.
Qed.

(** What [\s+\d{1,4}] matches ends with a digit. *)
Lemma ws_digits_ends_with_digit (u : string) :
  ws_digits u = true -> last_char_is Js.is_digit u = true.
Proof.
  destruct u as [|c s]; [discriminate|].
  cbn [ws_digits]. cbv zeta. intros H.
  apply andb_true_iff in H. destruct H as [_ H].
  apply andb_true_iff in H. destruct H as [H Hd].
  apply andb_true_iff in H. destruct H as [H1 _]. apply Nat.leb_le in H1.
  assert (Hne : Js.dropStart Js.is_space s <> "").
  { intros E. rewrite E in H1. cbn in H1. lia. }
  pose proof (last_char_is_dropStart _ _ s (last_char_is_all _ _ Hne Hd)) as Hl.
  destruct s as [|x s]; [discriminate|].
  now rewrite last_char_is_cons by discriminate.
Qed.

Lemma strip_unchanged (s : string) :
  last_char_is Js.is_digit s = false -> stripNumericSuffix s = s.
Proof.
  induction s as [|c s IH]; [reflexivity|].
  intros H. rewrite strip_unfold.
  - destruct s as [|x s]; [reflexivity|].
    rewrite last_char_is_cons in H by discriminate. now rewrite IH.
  - destruct (ws_digits (String c s)) eqn:E; [|reflexivity].
    apply ws_digits_ends_with_digit in E. congruence.
Qed.

Lemma strip_is_prefix (s : string) :
  exists rest, s = stripNumericSuffix s ++ rest /\
               (rest = "" \/ ws_digits rest = true).
Proof.
  induction s as [|c s (rest & E & Hrest)].
  - exists "". now split; [|left].
  - destruct (ws_digits (String c s)) eqn:W.
    + exists (String c s). rewrite strip_match by exact W. now split; [|right].
    + exists rest. rewrite strip_unfold by exact W.
      cbn [append]. now rewrite <- E.
Qed.

End SuffixShape.

(** X5: [stripNumericSuffix] only ever cuts off an end of its input, and
    the end it cuts is empty or white space followed by one to four
    digits; an input that does not end with a digit comes back as it is. *)
Theorem stripNumericSuffix_cuts_an_end :
  (forall s : string,
      exists rest, s = stripNumericSuffix s ++ rest /\
                   (rest = "" \/ ws_digits rest = true)) /\
  (forall s : string,
      last_char_is Js.is_digit s = false -> stripNumericSuffix s = s) /\
  (forall u : string,
      ws_digits u = true <->
      exists w d, u = w ++ d /\ w <> "" /\ Js.all Js.is_space w = true /\
                  Js.all Js.is_digit d = true /\ 1 <= String.length d <= 4).
Proof.
  split; [exact strip_is_prefix|]. split; [exact strip_unchanged|].
  intros u. split.
  - destruct u as [|c s]; [discriminate|].
    cbn [ws_digits]. cbv zeta. intros H.
    apply andb_true_iff in H. destruct H as [Sc H].
    apply andb_true_iff in H. destruct H as [H Hd].
    apply andb_true_iff in H. destruct H as [H1 H4].
    apply Nat.leb_le in H1, H4.
    assert (Hsplit : forall x, exists w, x = w ++ Js.dropStart Js.is_space x /\
                                         Js.all Js.is_space w = true).
    { induction x as [|y x (w & E & Hw)]; [now exists ""|].
      cbn [Js.dropStart]. destruct (Js.is_space y) eqn:Sy.
      - exists (String y w). cbn [append Js.all]. now rewrite Sy, <- E.
      - now exists "". }
    destruct (Hsplit s) as (w & E & Hw).
    exists (String c w), (Js.dropStart Js.is_space s).
    cbn [append Js.all]. rewrite <- E, Sc, Hw.
    repeat split; trivial. discriminate.
  - intros (w & d & -> & Hw & Sw & Dd & Hlen). now apply ws_digits_group.
Qed.

Lemma stripNumericSuffix_cuts_an_end_witness :
  stripNumericSuffix "Yann LeCun" = "Yann LeCun" /\ ws_digits "  0042" = true.
Proof.
  destruct stripNumericSuffix_cuts_an_end as (_ & Hsame & Hshape).
  split; [now apply Hsame|].
  apply Hshape. exists "  ", "0042".
  repeat split; try reflexivity; try discriminate; simpl; lia.
Defined.

(* ================================================================== *)
(** ** Further properties: surnames *)

Section SurnameShape.

Lemma no_comma_includes (s : string) :
  no_comma s = true <-> Js.includes "," s = false.
Proof.
  unfold no_comma. induction s as [|c s IH]; [now split|].
  cbn [Js.all Js.includes].
  destruct (String.prefix "," (String c s)) eqn:P.
  - apply comma_prefix in P. subst c. now split.
  - assert (Hc : c <> ","%char).
    { intros ->. now rewrite (proj2 (comma_prefix "," s) eq_refl) in P. }
    apply Ascii.eqb_neq in Hc. rewrite Hc. cbn [negb andb]. exact IH.
Qed.

Lemma split_from_not_nil (sep : string) (k : nat) (s : string) :
  Js.split_from sep k s <> [].
Proof.
  revert k. induction s as [|c s IH]; intros k; cbn [Js.split_from].
  - discriminate.
  - destruct k; [|apply IH].
    destruct (String.prefix sep (String c s)); [discriminate|].
    apply push_char_not_nil.
Qed.

Lemma split_comma_head_no_comma (s : string) :
  no_comma (hd "" (Js.split "," s)) = true.
Proof.
  unfold Js.split. induction s as [|c s IH]; [reflexivity|].
  cbn [Js.split_from].
  destruct (String.prefix "," (String c s)) eqn:P; [reflexivity|].
  assert (Hc : c <> ","%char).
  { intros ->. now rewrite (proj2 (comma_prefix "," s) eq_refl) in P. }
  apply Ascii.eqb_neq in Hc.
  destruct (Js.split_from "," 0 s) as [|t ts] eqn:E.
  - now elim (split_from_not_nil "," 0 s).
  - cbn [Js.push_char hd] in *. unfold no_comma in *. cbn [Js.all].
    now rewrite Hc, IH.
Qed.

Lemma all_trim (q : ascii -> bool) (s : string) :
  Js.all q s = true -> Js.all q (Js.trim s) = true.
Proof. intros H. unfold Js.trim. now apply all_dropEnd, all_dropStart. Qed.

Lemma push_char_all (q : ascii -> bool) (c : ascii) (l : list string) :
  q c = true ->
  Forall (fun w => Js.all q w = true) l ->
  Forall (fun w => Js.all q w = true) (Js.push_char c l).
Proof.
  intros Hc Hl. destruct Hl as [|t ts Ht Hts]; cbn [Js.push_char];
    constructor; trivial; cbn [Js.all]; rewrite Hc; trivial.
Qed.

Lemma split_ws_pieces_all (q : ascii -> bool) (s : string) (b : bool) :
  Js.all q s = true ->
  Forall (fun w => Js.all q w = true) (Js.split_ws_from b s).
Proof.
  revert b. induction s as [|c s IH]; intros b H; cbn [Js.split_ws_from].
  - now constructor.
  - cbn [Js.all] in H. apply andb_true_iff in H. destruct H as [Hc Hs].
    destruct (Js.is_space c).
    + destruct b; [now apply IH | constructor; [reflexivity | now apply IH]].
    + apply push_char_all; [exact Hc | now apply IH].
Qed.

Lemma Forall_last (A : Type) (P : A -> Prop) (l : list A) (d : A) :
  Forall P l -> P d -> P (last l d).
Proof.
  intros H Hd. induction H as [|x l Hx Hl IH]; [exact Hd|].
  destruct l; [exact Hx | exact IH].
Qed.

Lemma trim_idempotent (s : string) : Js.trim (Js.trim s) = Js.trim s.
Proof.
  unfold Js.trim. now rewrite dropStart_dropEnd, dropEnd_idempotent.
Qed.

Lemma dropStart_fixed (p : ascii -> bool) (s : string) :
  Js.all (fun c => negb (p c)) s = true -> Js.dropStart p s = s.
Proof.
  destruct s as [|c s]; [reflexivity|].
  cbn [Js.all Js.dropStart]. intros H. apply andb_true_iff in H.
  destruct H as [Hc _]. apply negb_true_iff in Hc. now rewrite Hc.
Qed.

Lemma dropEnd_fixed (p : ascii -> bool) (s : string) :
  Js.all (fun c => negb (p c)) s = true -> Js.dropEnd p s = s.
Proof.
  induction s as [|c s IH]; [reflexivity|].
  cbn [Js.all]. intros H. apply andb_true_iff in H. destruct H as [Hc Hs].
  apply negb_true_iff in Hc.
  rewrite dropEnd_keeps_head by exact Hc. now rewrite IH.
Qed.

Lemma trim_no_space (w : string) : no_space w = true -> Js.trim w = w.
Proof.
  intros H. unfold Js.trim. rewrite (dropStart_fixed _ w H).
  now apply dropEnd_fixed.
Qed.

Lemma surname_no_comma (input : string) : no_comma (surname input) = true.
Proof.
  unfold surname. cbv zeta.
  destruct (Js.includes "," (stripNumericSuffix (Js.trim input))) eqn:E.
  - apply all_trim, split_comma_head_no_comma.
  - apply no_comma_includes in E. unfold Js.split_ws.
    apply (Forall_last _ (fun w => no_comma w = true));
      [now apply split_ws_pieces_all | reflexivity].
Qed.

Lemma surname_trimmed (input : string) :
  Js.trim (surname input) = surname input.
Proof.
  unfold surname. cbv zeta.
  destruct (Js.includes "," (stripNumericSuffix (Js.trim input))).
  - apply trim_idempotent.
  - apply trim_no_space. unfold Js.split_ws.
    apply (Forall_last _ (fun w => no_space w = true));
      [apply split_ws_pieces_no_space | reflexivity].
Qed.

End SurnameShape.

(** X6: the surname never holds a comma and never begins or ends with
    white space; taken from a name without comma it holds no white space
    at all. *)
Theorem surname_has_no_comma_and_is_trimmed (input : string) :
  Js.includes "," (surname input) = false /\
  Js.trim (surname input) = surname input /\
  (Js.includes "," (stripNumericSuffix (Js.trim input)) = false ->
   no_space (surname input) = true).
Proof.
  split; [apply no_comma_includes, surname_no_comma|].
  split; [apply surname_trimmed|].
  intros E. unfold surname. cbv zeta. rewrite E. unfold Js.split_ws.
  apply (Forall_last _ (fun w => no_space w = true));
    [apply split_ws_pieces_no_space | reflexivity].
Qed.

Lemma surname_has_no_comma_and_is_trimmed_witness :
  no_space (surname "  Ada   Lovelace 12 ") = true.
Proof.
  apply (surname_has_no_comma_and_is_trimmed "  Ada   Lovelace 12 ").
  reflexivity.
Defined.

Section NameTokens.

Lemma name_token_parts (x : string) :
  name_token x = true ->
  x <> "" /\ no_space x = true /\ no_comma x = true /\
  last_char_is Js.is_digit x = false.
Proof.
  unfold name_token. intros H.
  apply andb_true_iff in H. destruct H as [H Hd].
  apply andb_true_iff in H. destruct H as [H Hc].
  apply andb_true_iff in H. destruct H as [He Hs].
  repeat split; trivial.
  - intros ->. discriminate.
  - now apply negb_true_iff.
Qed.

Lemma dropEnd_append_fixed (p : ascii -> bool) (a b : string) :
  b <> "" -> Js.dropEnd p b = b -> Js.dropEnd p (a ++ b) = a ++ b.
Proof.
  intros Hb E. induction a as [|c a IH]; [exact E|].
  cbn [append Js.dropEnd]. cbv zeta. rewrite IH.
  destruct (a ++ b) eqn:Eab; [|now rewrite andb_false_r].
  destruct a; [cbn in Eab; congruence | discriminate].
Qed.

Lemma last_char_is_append (p : ascii -> bool) (a b : string) :
  b <> "" -> last_char_is p (a ++ b) = last_char_is p b.
Proof.
  intros Hb. induction a as [|c a IH]; [reflexivity|].
  cbn [append]. rewrite last_char_is_cons; [exact IH|].
  now apply append_not_empty_r.
Qed.

Lemma no_space_head (x : string) :
  x <> "" -> no_space x = true ->
  exists c r, x = String c r /\ Js.is_space c = false.
Proof.
  destruct x as [|c r]; [congruence|]. intros _ H.
  cbn [no_space Js.all] in H. apply andb_true_iff in H. destruct H as [Hc _].
  exists c, r. split; [reflexivity | now apply negb_true_iff].
Qed.

(** A text that begins with one name token and ends with another is left
    alone by [trim] and by the stripping of the numeric suffix. *)
Lemma between_tokens_untouched (x mid y : string) :
  name_token x = true -> name_token y = true ->
  stripNumericSuffix (Js.trim (x ++ mid ++ y)) = x ++ mid ++ y.
Proof.
  intros Hx Hy.
  destruct (name_token_parts x Hx) as (Hxe & Hxs & _ & _).
  destruct (name_token_parts y Hy) as (Hye & Hys & _ & Hyd).
  destruct (no_space_head x Hxe Hxs) as (c & r & -> & Hc).
  assert (Ht : Js.trim (String c r ++ mid ++ y) = String c r ++ mid ++ y).
  { unfold Js.trim. cbn [append Js.dropStart]. rewrite Hc.
    change (String c (r ++ mid ++ y)) with (String c r ++ mid ++ y).
    rewrite <- append_assoc.
    apply dropEnd_append_fixed; [exact Hye | now apply dropEnd_fixed]. }
  rewrite Ht. apply strip_unchanged.
  rewrite <- append_assoc, last_char_is_append by exact Hye. exact Hyd.
Qed.

Lemma hd_split_ws (g w : string) (c : ascii) :
  no_space g = true -> Js.is_space c = true ->
  hd "" (Js.split_ws (g ++ String c w)) = g.
Proof.
  intros Hg Sc. unfold Js.split_ws. induction g as [|x g IH].
  - cbn [append Js.split_ws_from]. now rewrite Sc.
  - cbn [no_space Js.all] in Hg. apply andb_true_iff in Hg.
    destruct Hg as [Hx Hg]. apply negb_true_iff in Hx.
    cbn [append Js.split_ws_from]. rewrite Hx.
    specialize (IH Hg).
    destruct (Js.split_ws_from false (g ++ String c w)) as [|t ts] eqn:E.
    + now elim (split_ws_from_not_nil false (g ++ String c w)).
    + cbn [Js.push_char hd] in *. now subst.
Qed.

Lemma space_joined_no_comma (g f : string) :
  name_token g = true -> name_token f = true ->
  Js.includes "," (g ++ " " ++ f) = false.
Proof.
  intros Hg Hf.
  destruct (name_token_parts g Hg) as (_ & _ & Hgc & _).
  destruct (name_token_parts f Hf) as (_ & _ & Hfc & _).
  apply no_comma_includes. unfold no_comma in *.
  now rewrite !all_append, Hgc, Hfc.
Qed.

Lemma surname_given_family (g f : string) :
  name_token g = true -> name_token f = true ->
  surname (g ++ " " ++ f) = f.
Proof.
  intros Hg Hf. unfold surname. cbv zeta.
  rewrite (between_tokens_untouched g " " f Hg Hf).
  rewrite (space_joined_no_comma g f Hg Hf).
  destruct (name_token_parts f Hf) as (_ & Hfs & _ & _).
  now apply (last_token g f " ").
Qed.

Lemma surname_family_comma_given (f g : string) :
  name_token f = true -> name_token g = true ->
  surname (f ++ ", " ++ g) = f.
Proof.
  intros Hf Hg. unfold surname. cbv zeta.
  rewrite (between_tokens_untouched f ", " g Hf Hg).
  destruct (name_token_parts f Hf) as (_ & Hfs & Hfc & _).
  change (f ++ ", " ++ g) with (f ++ String "," (" " ++ g)).
  rewrite includes_comma_middle.
  rewrite split_comma_head by now apply no_comma_includes.
  now apply trim_no_space.
Qed.

End NameTokens.

(** X7: for a family name and a given name of one word each (no white
    space, no comma, no digit at the end), "Family, Given" and "Given
    Family" have the same surname, the family name; so both forms of the
    first author give the same citation key. *)
Theorem surname_same_for_both_name_orders (f g : string) :
  name_token f = true -> name_token g = true ->
  surname (f ++ ", " ++ g) = f /\
  surname (g ++ " " ++ f) = f /\
  (forall (src : Source) (t y i : string) (j : option string) (rest : list string),
      key (bibtex (mkPaper src t ((f ++ ", " ++ g) :: rest) y i j)) =
      key (bibtex (mkPaper src t ((g ++ " " ++ f) :: rest) y i j))).
Proof.
  intros Hf Hg.
  pose proof (surname_family_comma_given f g Hf Hg) as E1.
  pose proof (surname_given_family g f Hg Hf) as E2.
  repeat split; trivial.
  intros src t y i j rest. rewrite !key_bibtex. unfold bibKey.
  cbn [authors firstAuthorOrFallback nth_error]. now rewrite E1, E2.
Qed.

Lemma surname_same_for_both_name_orders_witness :
  surname "Lovelace, Ada" = "Lovelace" /\ surname "Ada Lovelace" = "Lovelace".
Proof.
  destruct (surname_same_for_both_name_orders "Lovelace" "Ada" eq_refl eq_refl)
    as (H1 & H2 & _).
  now split.
Defined.

(** X8: a disambiguation counter does not change the surname: for a name
    that is trimmed, not empty and without a numeric suffix of its own,
    adding white space and one to four digits gives the same surname. *)
Theorem surname_ignores_numeric_suffix (t w d : string) :
  t <> "" -> Js.trim t = t -> stripNumericSuffix t = t ->
  w <> "" -> Js.all Js.is_space w = true ->
  Js.all Js.is_digit d = true -> 1 <= String.length d <= 4 ->
  surname (t ++ w ++ d) = surname t.
Proof.
  intros Hne Ht Hs Hw Sw Dd Hlen.
  assert (Hend : Js.dropEnd Js.is_space t = t).
  { rewrite <- Ht. apply trim_no_trailing_space. }
  assert (Hstart : Js.dropStart Js.is_space t = t).
  { rewrite <- Ht at 1. unfold Js.trim. rewrite dropStart_dropEnd. exact Ht. }
  assert (Hd : d <> "").
  { intros ->. cbn in Hlen. lia. }
  assert (Htrim : Js.trim (t ++ w ++ d) = t ++ w ++ d).
  { unfold Js.trim.
    destruct (dropStart_head Js.is_space t) as [E|(c & r & E & Hc)];
      rewrite Hstart in E; [congruence|].
    rewrite E. cbn [append Js.dropStart]. rewrite Hc.
    change (String c (r ++ w ++ d)) with (String c r ++ w ++ d).
    rewrite <- append_assoc.
    apply dropEnd_append_fixed; [exact Hd|].
    apply dropEnd_fixed.
    apply (all_weaken Js.is_digit); [|exact Dd].
    intros x Hx. apply negb_true_iff.
    destruct (Js.is_space x) eqn:Sx; [|reflexivity].
    apply space_not_digit in Sx. congruence. }
  unfold surname. cbv zeta.
  now rewrite Htrim, (strip_cuts_group t w d Hend Hw Sw Dd Hlen), Ht, Hs.
Qed.

Lemma surname_ignores_numeric_suffix_witness :
  surname "Wei Zhang 0001" = surname "Wei Zhang".
Proof.
  apply (surname_ignores_numeric_suffix "Wei Zhang" " " "0001");
    try reflexivity; try discriminate; simpl; lia.
Defined.

(* ================================================================== *)
(** ** Further properties: author strings *)

Section AuthorStrings.

Lemma toAuthorStr_shape (a : JsVal) (s : string) :
  toAuthorStr a = Some s -> exists x, s = stripNumericSuffix (Js.trim x).
Proof.
  unfold toAuthorStr. intros H.
  apply bind_Some in H. destruct H as (raw & _ & H).
  apply bind_Some in H. destruct H as (x & _ & H).
  injection H as <-. now exists x.
Qed.

Lemma toAuthorStr_nullish (a : JsVal) :
  nullish a = true -> toAuthorStr a = None.
Proof. destruct a; try discriminate; reflexivity. Qed.

(** [toAuthorStr] on a raw author that is no string. *)
Lemma toAuthorStr_of_text (a : JsVal) :
  (forall s, a <> JStr s) ->
  nullish (authorText a) = false ->
  toAuthorStr a =
  (raw <- ToString (authorText a) ;; Some (stripNumericSuffix (Js.trim raw))).
Proof.
  intros Hs Hn. unfold toAuthorStr, authorText, coalesce in *.
  destruct a as [| |b|n|s|l|props]; try discriminate; try (now elim (Hs s)).
  cbn [oget] in *.
  destruct (nullish (lookup "text" props)); [|reflexivity].
  destruct (nullish (lookup "#text" props)); [|reflexivity].
  now rewrite Hn in *.
Qed.

Lemma toAuthorStr_of_names (a : JsVal) :
  (forall s, a <> JStr s) ->
  nullish (authorText a) = true ->
  toAuthorStr a =
  (family <- get a "family" ;;
   given <- get a "given" ;;
   f <- ToString (coalesce family (JStr "")) ;;
   g <- ToString (coalesce given (JStr "")) ;;
   Some (stripNumericSuffix (Js.trim (f ++ " " ++ g)))).
Proof.
  intros Hs Hn. unfold toAuthorStr.
  assert (E : nullish (oget a "text") = true /\
              nullish (oget a "#text") = true /\
              nullish (oget a "name") = true).
  { unfold authorText, coalesce in Hn.
    destruct (nullish (oget a "text")) eqn:E1; [|congruence].
    destruct (nullish (oget a "#text")) eqn:E2; [|congruence].
    now repeat split. }
  destruct E as (-> & -> & ->). cbn [negb].
  destruct a as [| |b|n|s|l|props]; try reflexivity; try (now elim (Hs s));
    cbn [get nullish oget bind];
    (destruct (ToString (coalesce _ (JStr ""))); cbn [bind]; [|reflexivity]);
    (destruct (ToString (coalesce _ (JStr ""))); cbn [bind]; reflexivity).
Qed.

Lemma authorText_of_string (s : string) : authorText (JStr s) = JUndefined.
Proof. reflexivity. Qed.

(** When [toAuthorStr] throws. *)
Lemma toAuthorStr_None (a : JsVal) :
  toAuthorStr a = None <->
  nullish a = true \/
  renders (authorText a) = false \/
  (nullish (authorText a) = true /\
   (renders (oget a "family") = false \/ renders (oget a "given") = false)).
Proof.
  destruct a as [| |b|n|s|l|props] eqn:Ea;
    try (split; [now left | reflexivity]);
    try (cbn; split; [discriminate | intuition discriminate]).
  all: rewrite <- Ea;
    assert (Hs : forall s, a <> JStr s) by (subst a; discriminate);
    assert (Hnn : nullish a = false) by (now subst a);
    clear Ea; rewrite Hnn.
  all: destruct (nullish (authorText a)) eqn:Hn.
  all: try (rewrite (toAuthorStr_of_names a Hs Hn), !(get_defined a _ Hnn);
            cbn [bind];
            rewrite (renders_nullish _ Hn);
            rewrite <- (renders_coalesce (oget a "family") ""),
                    <- (renders_coalesce (oget a "given") "");
            unfold renders;
            destruct (ToString (coalesce (oget a "family") (JStr "")));
            destruct (ToString (coalesce (oget a "given") (JStr "")));
            cbn [bind]; intuition discriminate).
  all: rewrite (toAuthorStr_of_text a Hs Hn); unfold renders;
    destruct (ToString (authorText a)); cbn [bind]; intuition discriminate.
Qed.

(** *** Plain values *)

Lemma JsVal_nested_ind (P : JsVal -> Prop) :
  P JUndefined -> P JNull -> (forall b, P (JBool b)) ->
  (forall n, P (JNum n)) -> (forall s, P (JStr s)) ->
  (forall l, Forall P l -> P (JArr l)) ->
  (forall props, Forall (fun kv => P (snd kv)) props -> P (JObj props)) ->
  forall v, P v.
Proof.
  intros Hu Hn Hb Hnum Hs Harr Hobj. fix IH 1. intros [| |b|n|s|l|props].
  - exact Hu.
  - exact Hn.
  - apply Hb.
  - apply Hnum.
  - apply Hs.
  - apply Harr. induction l as [|x l IHl]; constructor; [apply IH | exact IHl].
  - apply Hobj.
    induction props as [|kv props IHp]; constructor; [apply IH | exact IHp].
Qed.

Lemma plain_renders (v : JsVal) : plain v = true -> renders v = true.
Proof.
  induction v as [| |b|n|s|l IHl|props _] using JsVal_nested_ind;
    try reflexivity; try (now destruct b).
  - intros Hp. unfold renders. cbn [ToString].
    assert (E : exists parts,
               (fix each (l : list JsVal) : option (list string) :=
                  match l with
                  | [] => Some []
                  | x :: l' =>
                      s <- (if nullish x then Some EmptyString else ToString x) ;;
                      ss <- each l' ;;
                      Some (s :: ss)
                  end) l = Some parts).
    { cbn [plain] in Hp. induction IHl as [|x l Hx _ IH]; [now exists []|].
      apply andb_true_iff in Hp. destruct Hp as [Hpx Hpl].
      destruct (IH Hpl) as [parts ->].
      specialize (Hx Hpx). apply renders_true in Hx. destruct Hx as [sx Hx].
      rewrite Hx. destruct (nullish x); eexists; reflexivity. }
    destruct E as [parts ->]. reflexivity.
  - intros Hp. cbn [plain] in Hp. apply andb_true_iff in Hp.
    destruct Hp as [Hp _]. apply negb_true_iff in Hp.
    unfold renders. cbn [ToString]. now rewrite Hp.
Qed.

Lemma plain_oget (v : JsVal) (k : string) :
  plain v = true -> plain (oget v k) = true.
Proof.
  destruct v as [| |b|n|s|l|props]; try reflexivity.
  cbn [plain oget]. intros Hp. apply andb_true_iff in Hp. destruct Hp as [_ Hp].
  induction props as [|[k' x] props IH]; [reflexivity|].
  apply andb_true_iff in Hp. destruct Hp as [Hx Hp].
  cbn [lookup]. destruct (String.eqb k k'); [exact Hx | now apply IH].
Qed.

Lemma plain_authorText (a : JsVal) : plain a = true -> plain (authorText a) = true.
Proof.
  intros Hp. unfold authorText, coalesce.
  destruct (nullish (oget a "text")); [|now apply plain_oget].
  destruct (nullish (oget a "#text")); now apply plain_oget.
Qed.

Lemma stripped_trim_is_trimmed (x : string) :
  Js.trim (stripNumericSuffix (Js.trim x)) = stripNumericSuffix (Js.trim x).
Proof.
  assert (Hend : Js.dropEnd Js.is_space (stripNumericSuffix (Js.trim x)) =
                 stripNumericSuffix (Js.trim x))
    by apply strip_no_trailing_space, trim_no_trailing_space.
  unfold Js.trim at 1.
  destruct (dropStart_head Js.is_space x) as [E|(c & r & E & Hc)].
  - unfold Js.trim. rewrite E. reflexivity.
  - rewrite (stripped_head x c r E Hc) in *.
    cbn [Js.dropStart]. rewrite Hc. exact Hend.
Qed.

End AuthorStrings.

(** X9: [toAuthorStr] throws on [undefined] and [null], and otherwise
    only if a value that it has to render cannot be rendered: the first of
    the properties text, #text and name that is there, or, if none is,
    the family or the given name.  So it returns on every raw author that
    is not missing and in which no object has a property "toString".  What
    it returns has no white space at its ends. *)
Theorem toAuthorStr_when_it_throws (a : JsVal) :
  (toAuthorStr a = None <->
   nullish a = true \/
   renders (authorText a) = false \/
   (nullish (authorText a) = true /\
    (renders (oget a "family") = false \/ renders (oget a "given") = false))) /\
  (nullish a = false -> plain a = true -> exists s, toAuthorStr a = Some s) /\
  (forall s, toAuthorStr a = Some s -> Js.trim s = s).
Proof.
  split; [apply toAuthorStr_None|]. split.
  - intros Hn Hp. destruct (toAuthorStr a) as [s|] eqn:E; [now exists s|].
    exfalso. apply toAuthorStr_None in E.
    pose proof (plain_renders _ (plain_authorText a Hp)) as H1.
    pose proof (plain_renders _ (plain_oget a "family" Hp)) as H2.
    pose proof (plain_renders _ (plain_oget a "given" Hp)) as H3.
    intuition congruence.
  - intros s H. apply toAuthorStr_shape in H. destruct H as [x ->].
    apply stripped_trim_is_trimmed.
Qed.

Lemma toAuthorStr_when_it_throws_witness :
  (exists s, toAuthorStr (JObj [("@pid", JStr "10/1234");
                                ("text", JStr " Wei Zhang 0001 ")]) = Some s) /\
  Js.trim "Wei Zhang" = "Wei Zhang".
Proof.
  destruct (toAuthorStr_when_it_throws
              (JObj [("@pid", JStr "10/1234"); ("text", JStr " Wei Zhang 0001 ")]))
    as (_ & Hplain & Htrim).
  split; [now apply Hplain | now apply Htrim].
Defined.

(** X10: an author given only by family and given name becomes "family
    given", and for names of one word each the surname taken from it is
    the given name: the key of such a record begins with the cleaned
    given name of its first author. *)
Theorem family_given_author_yields_given_name
        (props : list (string * JsVal)) (f g : string) :
  nullish (lookup "text" props) = true ->
  nullish (lookup "#text" props) = true ->
  nullish (lookup "name" props) = true ->
  lookup "family" props = JStr f ->
  lookup "given" props = JStr g ->
  name_token f = true -> name_token g = true ->
  toAuthorStr (JObj props) = Some (f ++ " " ++ g) /\
  surname (f ++ " " ++ g) = g /\
  (forall (src : Source) (t y i : string) (j : option string) (rest : list string),
      key (bibtex (mkPaper src t ((f ++ " " ++ g) :: rest) y i j)) =
      clean g ++ y ++ clean (firstWord t)).
Proof.
  intros Ht Hh Hn Hf Hg Tf Tg.
  pose proof (surname_given_family f g Tf Tg) as Es.
  split; [|split; [exact Es|]].
  - unfold toAuthorStr. cbn [oget]. rewrite Ht, Hh, Hn. cbn [negb].
    unfold get. cbn [nullish oget bind]. rewrite Hf, Hg.
    cbn [coalesce nullish ToString bind].
    now rewrite (between_tokens_untouched f " " g Tf Tg).
  - intros src t y i j rest. rewrite key_bibtex. unfold bibKey.
    cbn [authors firstAuthorOrFallback nth_error year title]. now rewrite Es.
Qed.

Lemma family_given_author_yields_given_name_witness :
  toAuthorStr (JObj [("given", JStr "Jianxin"); ("family", JStr "Wang");
                     ("sequence", JStr "first")]) = Some "Wang Jianxin" /\
  surname "Wang Jianxin" = "Jianxin".
Proof.
  destruct (family_given_author_yields_given_name
              [("given", JStr "Jianxin"); ("family", JStr "Wang");
               ("sequence", JStr "first")]
              "Wang" "Jianxin" eq_refl eq_refl eq_refl eq_refl eq_refl
              eq_refl eq_refl) as (H1 & H2 & _).
  now split.
Defined.

(** X11: the earlier [surname] takes the first word of a name without
    comma where the present one takes the last; for names of one word
    each the two agree on "Family, Given" and differ on "Given Family".
    The earlier Crossref adapter wrote an author as "family, given", from
    which the earlier [surname] took the family name. *)
Theorem legacy_surname_takes_first_word (f g : string) :
  name_token f = true -> name_token g = true ->
  Legacy.surname (g ++ " " ++ f) = g /\
  surname (g ++ " " ++ f) = f /\
  Legacy.surname (f ++ ", " ++ g) = f /\
  surname (f ++ ", " ++ g) = f /\
  Legacy.crossrefAuthor (JObj [("family", JStr f); ("given", JStr g)])
    = Some (f ++ ", " ++ g).
Proof.
  intros Tf Tg.
  destruct (name_token_parts f Tf) as (Hfe & Hfs & Hfc & _).
  destruct (name_token_parts g Tg) as (Hge & Hgs & Hgc & Hgd).
  split; [|split; [|split; [|split]]].
  - unfold Legacy.surname. rewrite (space_joined_no_comma g f Tg Tf).
    change (g ++ " " ++ f) with (g ++ String " " f).
    rewrite (hd_split_ws g f " " Hgs eq_refl). now apply trim_no_space.
  - now apply surname_given_family.
  - unfold Legacy.surname.
    change (f ++ ", " ++ g) with (f ++ String "," (" " ++ g)).
    rewrite includes_comma_middle.
    rewrite split_comma_head by now apply no_comma_includes.
    now apply trim_no_space.
  - now apply surname_family_comma_given.
  - unfold Legacy.crossrefAuthor. cbn.
    destruct (no_space_head f Hfe Hfs) as (c & r & -> & Hc).
    unfold Js.trim. cbn [append Js.dropStart]. rewrite Hc.
    change (String c (r ++ String "," (String " " g)))
      with (String c r ++ ", " ++ g).
    rewrite <- (append_assoc (String c r) ", " g).
    now rewrite dropEnd_append_fixed by (trivial; now apply dropEnd_fixed).
Qed.

Lemma legacy_surname_takes_first_word_witness :
  Legacy.surname "Jianxin Wang" = "Jianxin" /\ surname "Jianxin Wang" = "Wang".
Proof.
  destruct (legacy_surname_takes_first_word "Wang" "Jianxin" eq_refl eq_refl)
    as (H1 & H2 & _).
  now split.
Defined.

(* ================================================================== *)
(** ** Further properties: adapters *)

Section AdapterRecords.

Lemma untyped_arxivEntry_source (e : JsVal) (r : Untyped.Paper) :
  Untyped.arxivEntry e = Some r -> Untyped.source r = JStr "arxiv".
Proof.
  intros H. apply untyped_arxivEntry_fields in H.
  now destruct H as (t & names & y & i & _ & _ & _ & ->).
Qed.

Lemma untyped_crossrefItem_source (it : JsVal) (r : Untyped.Paper) :
  Untyped.crossrefItem it = Some r -> Untyped.source r = JStr "crossref".
Proof.
  intros H. apply untyped_crossrefItem_fields in H.
  now destruct H as (names & y & _ & _ & ->).
Qed.

Lemma untyped_dblpHit_source (hit : JsVal) (r : Untyped.Paper) :
  Untyped.dblpHit hit = Some r -> Untyped.source r = JStr "dblp".
Proof.
  intros H. apply untyped_dblpHit_fields in H.
  now destruct H as (info & auth & t & y & j & _ & _ & _ & _ & _ & _ & ->).
Qed.

Lemma searchArxiv_entries (feed root : JsVal) (entries : list JsVal) :
  get feed "feed" = Some root -> oget root "entry" = JArr entries ->
  Untyped.searchArxiv feed = mapM Untyped.arxivEntry entries.
Proof.
  intros Hroot He. unfold Untyped.searchArxiv. rewrite Hroot. cbn [bind].
  now rewrite He.
Qed.

Lemma searchCrossref_items (response message : JsVal) (its : list JsVal) :
  get response "message" = Some message -> oget message "items" = JArr its ->
  Untyped.searchCrossref response = mapM Untyped.crossrefItem its.
Proof.
  intros Hm Hi. unfold Untyped.searchCrossref. rewrite Hm. cbn [bind].
  now rewrite Hi.
Qed.

Lemma searchDblp_hits (response result : JsVal) (hits : list JsVal) :
  get response "result" = Some result ->
  oget (oget result "hits") "hit" = JArr hits ->
  Untyped.searchDblp response = mapM Untyped.dblpHit hits.
Proof.
  intros Hr Hh. unfold Untyped.searchDblp. rewrite Hr. cbn [bind].
  now rewrite Hh.
Qed.

End AdapterRecords.

(** X12: an adapter returns one record for each raw item, in the order of
    the response, each the mapping of its item and tagged with the
    adapter's source; it throws, and the whole search fails, exactly if
    the mapping throws on one of the items.  An arXiv feed whose entry is
    a single object and no array is mapped as the list of that one
    entry. *)
Theorem adapters_map_item_by_item :
  (forall (feed root : JsVal) (entries : list JsVal),
      get feed "feed" = Some root -> oget root "entry" = JArr entries ->
      (forall rs, Untyped.searchArxiv feed = Some rs <->
                  Forall2 (fun e r => Untyped.arxivEntry e = Some r) entries rs) /\
      (Untyped.searchArxiv feed = None <->
       exists e, In e entries /\ Untyped.arxivEntry e = None)) /\
  (forall (feed root e : JsVal),
      get feed "feed" = Some root -> oget root "entry" = e ->
      nullish e = false -> (forall l, e <> JArr l) ->
      Untyped.searchArxiv feed = (r <- Untyped.arxivEntry e ;; Some [r])) /\
  (forall (response message : JsVal) (its : list JsVal),
      get response "message" = Some message -> oget message "items" = JArr its ->
      (forall rs, Untyped.searchCrossref response = Some rs <->
                  Forall2 (fun it r => Untyped.crossrefItem it = Some r) its rs) /\
      (Untyped.searchCrossref response = None <->
       exists it, In it its /\ Untyped.crossrefItem it = None)) /\
  (forall (response result : JsVal) (hits : list JsVal),
      get response "result" = Some result ->
      oget (oget result "hits") "hit" = JArr hits ->
      (forall rs, Untyped.searchDblp response = Some rs <->
                  Forall2 (fun hit r => Untyped.dblpHit hit = Some r) hits rs) /\
      (Untyped.searchDblp response = None <->
       exists hit, In hit hits /\ Untyped.dblpHit hit = None)) /\
  (forall (e : JsVal) (r : Untyped.Paper),
      Untyped.arxivEntry e = Some r -> Untyped.source r = JStr "arxiv") /\
  (forall (it : JsVal) (r : Untyped.Paper),
      Untyped.crossrefItem it = Some r -> Untyped.source r = JStr "crossref") /\
  (forall (hit : JsVal) (r : Untyped.Paper),
      Untyped.dblpHit hit = Some r -> Untyped.source r = JStr "dblp").
Proof.
  split; [|split; [|split; [|split; [|split; [|split]]]]].
  - intros feed root entries Hroot He.
    rewrite (searchArxiv_entries feed root entries Hroot He).
    split; [intros rs; apply mapM_Forall2 | apply mapM_None].
  - intros feed root e Hroot He Hn Harr. unfold Untyped.searchArxiv.
    rewrite Hroot. cbn [bind]. rewrite He. unfold coalesce. rewrite Hn.
    destruct e; try (now elim (Harr elems)); reflexivity.
  - intros response message its Hm Hi.
    rewrite (searchCrossref_items response message its Hm Hi).
    split; [intros rs; apply mapM_Forall2 | apply mapM_None].
  - intros response result hits Hr Hh.
    rewrite (searchDblp_hits response result hits Hr Hh).
    split; [intros rs; apply mapM_Forall2 | apply mapM_None].
  - exact untyped_arxivEntry_source.
  - exact untyped_crossrefItem_source.
  - exact untyped_dblpHit_source.
Qed.

Lemma adapters_map_item_by_item_witness :
  let good := JObj [("info", JObj [("title", JStr "Adam");
                                   ("venue", JArr [JStr "ICLR"; JStr "CoRR"]);
                                   ("year", JStr "2015")])] in
  let bad := JObj [("info", JObj [("title", JStr "Adam");
                                  ("authors", JObj [("author", JArr [JNull])])])] in
  (exists r, Untyped.searchDblp
               (JObj [("result", JObj [("hits", JObj [("hit", JArr [good])])])])
             = Some [r]) /\
  Untyped.searchDblp
    (JObj [("result", JObj [("hits", JObj [("hit", JArr [good; bad])])])]) = None.
Proof.
  intros good bad.
  destruct adapters_map_item_by_item as (_ & _ & _ & Hdblp & _).
  split.
  - eexists.
    apply (Hdblp (JObj [("result", JObj [("hits", JObj [("hit", JArr [good])])])])
                 (JObj [("hits", JObj [("hit", JArr [good])])]) [good]
                 eq_refl eq_refl).
    constructor; [vm_compute; reflexivity | constructor].
  - apply (Hdblp (JObj [("result", JObj [("hits", JObj [("hit", JArr [good; bad])])])])
                 (JObj [("hits", JObj [("hit", JArr [good; bad])])]) [good; bad]
                 eq_refl eq_refl).
    exists bad. split; [right; now left | reflexivity].
Defined.

(** X13: a response without a list of results gives the empty list and
    no failure, for each adapter; a response that is [null] or
    [undefined] makes the adapter fail. *)
Theorem adapters_on_empty_responses :
  (forall feed : JsVal,
      nullish feed = false ->
      nullish (oget (oget feed "feed") "entry") = true ->
      searchArxiv feed = Some []) /\
  (forall response : JsVal,
      nullish response = false ->
      nullish (oget (oget response "message") "items") = true ->
      searchCrossref response = Some []) /\
  (forall response : JsVal,
      nullish response = false ->
      nullish (oget (oget (oget response "result") "hits") "hit") = true ->
      searchDblp response = Some []) /\
  (forall response : JsVal,
      nullish response = true ->
      searchArxiv response = None /\ searchCrossref response = None /\
      searchDblp response = None).
Proof.
  split; [|split; [|split]].
  - intros feed Hn He. unfold searchArxiv. rewrite (get_defined _ _ Hn).
    cbn [bind]. unfold coalesce. now rewrite He.
  - intros response Hn He. unfold searchCrossref. rewrite (get_defined _ _ Hn).
    cbn [bind]. unfold coalesce. now rewrite He.
  - intros response Hn He. unfold searchDblp. rewrite (get_defined _ _ Hn).
    cbn [bind]. unfold coalesce. now rewrite He.
  - intros response Hn. unfold searchArxiv, searchCrossref, searchDblp, get.
    now rewrite Hn.
Qed.

Lemma adapters_on_empty_responses_witness :
  searchDblp (JObj [("result", JObj [("hits", JObj [("@total", JStr "0")])])])
  = Some [] /\
  searchCrossref JNull = None.
Proof.
  destruct adapters_on_empty_responses as (_ & _ & Hdblp & Hnull).
  split; [now apply Hdblp | now apply (Hnull JNull)].
Defined.

Section SplitAtSeparator.

Lemma length_append (a b : string) :
  String.length (a ++ b) = String.length a + String.length b.
Proof. induction a as [|c a IH]; cbn; [reflexivity | now rewrite IH]. Qed.

Lemma prefix_empty (s : string) : String.prefix "" s = true.
Proof. now destruct s. Qed.

Lemma prefix_append_long (s x y : string) :
  String.length s <= String.length x ->
  String.prefix s (x ++ y) = String.prefix s x.
Proof.
  revert x. induction s as [|a s IH]; intros x H.
  - now rewrite !prefix_empty.
  - destruct x as [|b x]; [cbn in H; lia|].
    cbn [append String.prefix]. destruct (ascii_dec a b); [|reflexivity].
    apply IH. cbn in H. lia.
Qed.

Lemma split_skip (sep x b : string) :
  Js.split_from sep (String.length x) (x ++ b) = Js.split_from sep 0 b.
Proof.
  induction x as [|c x IH]; [reflexivity|].
  cbn [String.length append Js.split_from]. exact IH.
Qed.

Lemma split_absent (sep b : string) :
  Js.includes sep b = false -> Js.split sep b = [b].
Proof.
  unfold Js.split. induction b as [|c b IH]; [reflexivity|].
  cbn [Js.includes Js.split_from].
  destruct (String.prefix sep (String c b)); [discriminate|].
  intros H. now rewrite (IH H).
Qed.

(** With the first occurrence of the separator after [a] and none in [b],
    the string splits into [a] and [b]. *)
Lemma split_at_first (init : string) (l : ascii) (a b : string) :
  let sep := init ++ String l "" in
  Js.includes sep (a ++ init) = false ->
  Js.includes sep b = false ->
  Js.split sep (a ++ sep ++ b) = [a; b].
Proof.
  intros sep Ha Hb. induction a as [|c a IH].
  - unfold Js.split.
    change ("" ++ sep ++ b) with (sep ++ b).
    assert (Hsep : exists c0 s0, sep = String c0 s0).
    { unfold sep. destruct init; cbn; eauto. }
    destruct Hsep as (c0 & s0 & Es).
    pose proof (prefix_append sep b) as P. rewrite Es in *.
    cbn [append Js.split_from] in *. rewrite P.
    replace (String.length (String c0 s0) - 1) with (String.length s0)
      by (cbn [String.length]; lia).
    rewrite split_skip. fold (Js.split (String c0 s0) b).
    now rewrite (split_absent _ b Hb).
  - cbn [append] in Ha. cbn [Js.includes] in Ha.
    destruct (String.prefix sep (String c (a ++ init))) eqn:P; [discriminate|].
    unfold Js.split in *. cbn [append Js.split_from].
    assert (P' : String.prefix sep (String c (a ++ sep ++ b)) = false).
    { unfold sep at 2. rewrite append_assoc, <- (append_assoc a init).
      change (String c ((a ++ init) ++ String l "" ++ b))
        with (String c (a ++ init) ++ String l "" ++ b).
      rewrite prefix_append_long; [exact P|].
      unfold sep. cbn [String.length]. rewrite !length_append. cbn. lia. }
    rewrite P'. now rewrite (IH Ha).
Qed.

Lemma slice_is_prefix (n : nat) (s : string) :
  String.prefix (String.substring 0 n s) s = true /\
  String.length (String.substring 0 n s) = Nat.min n (String.length s).
Proof.
  revert n. induction s as [|c s IH]; intros [|n]; cbn; try (now split).
  destruct (IH n) as [H1 H2].
  destruct (ascii_dec c c) as [_|ne]; [|now elim ne]. now rewrite H2.
Qed.

End SplitAtSeparator.

(** X14: the identifier of an arXiv record is what follows the first
    "/abs/" of the entry's id, up to the end if there is no further
    "/abs/" (so the version suffix stays); its year is the first four
    characters of the published date, fewer if the date is shorter. *)
Theorem arxiv_id_and_year (e : JsVal) (p : Paper) :
  arxivEntry e = Some p ->
  (forall a b : string,
      oget e "id" = JStr (a ++ "/abs/" ++ b) ->
      Js.includes "/abs/" (a ++ "/abs") = false ->
      Js.includes "/abs/" b = false ->
      id p = b) /\
  (exists published,
      oget e "published" = JStr published /\
      String.prefix (year p) published = true /\
      String.length (year p) = Nat.min 4 (String.length published)).
Proof.
  intros H. apply arxivEntry_fields in H.
  destruct H as (t & published & i & _ & Hpub & Hi & Hid & _ & _ & Hy & _).
  split.
  - intros a b E Ha Hb. rewrite Hi in E. injection E as ->.
    assert (S : Js.split "/abs/" (a ++ "/abs/" ++ b) = [a; b])
      by exact (split_at_first "/abs" "/" a b Ha Hb).
    change (nth_error (Js.split "/abs/" (a ++ "/abs/" ++ b)) 1 = Some (id p))
      in Hid.
    rewrite S in Hid. cbn in Hid. now injection Hid.
  - exists published. split; [exact Hpub|]. rewrite Hy.
    apply slice_is_prefix.
Qed.

Lemma arxiv_id_and_year_witness :
  exists p,
    arxivEntry (JObj [("title", JStr "String Theory");
                      ("author", JObj [("name", JStr "Edward Witten")]);
                      ("published", JStr "1999-01-04T00:00:00Z");
                      ("id", JStr "http://arxiv.org/abs/hep-th/9901001v2")])
    = Some p /\ id p = "hep-th/9901001v2".
Proof.
  eexists. split; [vm_compute; reflexivity|].
  eapply (arxiv_id_and_year
            (JObj [("title", JStr "String Theory");
                   ("author", JObj [("name", JStr "Edward Witten")]);
                   ("published", JStr "1999-01-04T00:00:00Z");
                   ("id", JStr "http://arxiv.org/abs/hep-th/9901001v2")])
            _ eq_refl);
    [change (oget _ "id") with (JStr ("http://arxiv.org" ++ "/abs/" ++ "hep-th/9901001v2"));
     reflexivity | reflexivity | reflexivity].
Defined.

(** X15: an item that lacks every field still gives a record: a Crossref
    item or a DBLP hit without title, authors, date, identifier and venue
    becomes the record "(untitled)" of no author and year "????", with the
    empty identifier and no venue; its key is "anon????untitled". *)
Theorem adapters_fill_in_defaults :
  (forall it : JsVal,
      nullish it = false ->
      nullish (oindex0 (oget it "title")) = true ->
      nullish (oget it "author") = true ->
      nullish (oindex0 (oindex0 (oget (oget it "issued") "date-parts"))) = true ->
      nullish (oindex0 (oindex0 (oget (oget it "created") "date-parts"))) = true ->
      nullish (oget it "DOI") = true ->
      nullish (oindex0 (oget it "container-title")) = true ->
      crossrefItem it = Some (mkPaper crossref "(untitled)" [] "????" "" None)) /\
  (forall hit info : JsVal,
      get hit "info" = Some info -> nullish info = false ->
      nullish (oget (oget info "authors") "author") = true ->
      nullish (oget info "title") = true -> nullish (oget info "year") = true ->
      nullish (oget info "doi") = true -> nullish (oget info "url") = true ->
      nullish (oget info "venue") = true -> nullish (oget info "journal") = true ->
      nullish (oget info "booktitle") = true -> nullish (oget info "type") = true ->
      dblpHit hit = Some (mkPaper dblp "(untitled)" [] "????" "" None)) /\
  key (bibtex (mkPaper crossref "(untitled)" [] "????" "" None)) = "anon????untitled" /\
  key (bibtex (mkPaper dblp "(untitled)" [] "????" "" None)) = "anon????untitled".
Proof.
  split; [|split; [|split; reflexivity]].
  - intros it Hn Ht Ha Hi Hc Hd Hj.
    unfold crossrefItem, Untyped.crossrefItem, Untyped.crossrefYear.
    rewrite !(get_defined _ _ Hn).
    cbn [bind]. unfold coalesce, otoString.
    rewrite Ht, Ha, Hi, Hc, Hd. cbn [mapM bind nullish negb].
    unfold typed. cbn.
    destruct (oindex0 (oget it "container-title")); try discriminate; reflexivity.
  - intros hit info Hinfo Hn Ha Ht Hy Hd Hu Hv Hj Hb Hty.
    unfold dblpHit, Untyped.dblpHit, Untyped.dblpAuthors, Untyped.dblpJournal.
    rewrite Hinfo. cbn [bind]. rewrite (get_defined _ _ Hn). cbn [bind].
    unfold coalesce. rewrite Ha, Ht, Hy, Hd, Hu, Hv, Hj, Hb.
    cbn [mapM bind ToString negb].
    destruct (oget info "type"); try discriminate; reflexivity.
Qed.

Lemma adapters_fill_in_defaults_witness :
  crossrefItem (JObj [("type", JStr "journal-article")])
  = Some (mkPaper crossref "(untitled)" [] "????" "" None) /\
  dblpHit (JObj [("@score", JStr "1"); ("info", JObj [("key", JStr "x")])])
  = Some (mkPaper dblp "(untitled)" [] "????" "" None).
Proof.
  destruct adapters_fill_in_defaults as (Hc & Hd & _).
  split.
  - now apply Hc.
  - now apply (Hd _ (JObj [("key", JStr "x")])).
Defined.

(* ================================================================== *)
(** ** Further properties: the session *)

Section SessionFacts.

Lemma arrived_app (a b : list Callback) :
  arrived (a ++ b)%list = (arrived a ++ arrived b)%list.
Proof. unfold arrived. apply flat_map_app. Qed.

Lemma paper_toItems (ps : list Paper) : List.map paper (toItems ps) = ps.
Proof.
  unfold toItems. rewrite List.map_map. cbn [paper].
  induction ps as [|p ps IH]; cbn [List.map]; [reflexivity | now rewrite IH].
Qed.

Lemma step_errorMessages (s : Session) (cb : Callback) :
  errorMessages (step s cb) = (errorMessages s ++ failures [cb])%list.
Proof.
  destruct cb; cbn [step failures flat_map errorMessages onFulfilled onRejected];
    rewrite ?List.app_nil_r; try reflexivity.
  unfold finish. cbv zeta. now destruct (pending s - 1 =? 0)%Z.
Qed.

Lemma failures_app (a b : list Callback) :
  failures (a ++ b)%list = (failures a ++ failures b)%list.
Proof. unfold failures. apply flat_map_app. Qed.

Lemma run_errorMessages (trace : list Callback) :
  errorMessages (run trace) = failures trace.
Proof.
  induction trace as [|cb trace IH] using rev_ind; [reflexivity|].
  now rewrite run_snoc, step_errorMessages, failures_app, IH.
Qed.

Lemma failure_message_injective (src src' : Source) (m m' : string) :
  sourceLabel src ++ " request failed: " ++ m =
  sourceLabel src' ++ " request failed: " ++ m' ->
  src = src' /\ m = m'.
Proof.
  destruct src, src'; cbn; intros H; try discriminate;
    injection H as ->; now split.
Qed.

Lemma step_placeholder (s : Session) (cb : Callback) :
  (pending s - Z.of_nat (finished [cb]) <> 0)%Z ->
  placeholder (qp (step s cb)) = placeholder (qp s).
Proof.
  destruct cb; cbn [step]; try reflexivity.
  change (finished [Finally src]) with 1. intros H.
  unfold finish. cbv zeta.
  destruct (pending s - 1 =? 0)%Z eqn:E; [|reflexivity].
  apply Z.eqb_eq in E. cbn in H. lia.
Qed.

Lemma run_placeholder_before (trace : list Callback) :
  finished trace < 3 -> placeholder (qp (run trace)) = placeholder (qp start).
Proof.
  induction trace as [|cb trace IH] using rev_ind; [reflexivity|].
  rewrite finished_app. intros H. rewrite run_snoc, step_placeholder.
  - apply IH. lia.
  - destruct (run_invariant trace) as (-> & _). lia.
Qed.

End SessionFacts.

(** X16: whatever callbacks run, in whatever order and number, the list
    of results only grows at its end, the busy flag never comes back once
    it is down, and the pending count never goes up. *)
Theorem session_only_moves_forward (pre post : list Callback) :
  (exists more, items (qp (run (pre ++ post))) = items (qp (run pre)) ++ more)%list /\
  (busy (qp (run pre)) = false -> busy (qp (run (pre ++ post))) = false) /\
  (pending (run (pre ++ post)) <= pending (run pre))%Z.
Proof.
  destruct (run_invariant pre) as (Hp & Hi & Hb).
  destruct (run_invariant (pre ++ post)) as (Hp' & Hi' & Hb').
  rewrite Hp, Hp', Hi, Hi', Hb, Hb', arrived_app, toItems_app, finished_app.
  split; [now exists (toItems (arrived post))|]. split; [|lia].
  rewrite !Nat.ltb_ge. lia.
Qed.

Lemma session_only_moves_forward_witness :
  busy (qp (run ([Finally arxiv; Finally dblp; Finally crossref] ++
                 [Then arxiv []; Finally arxiv]))) = false.
Proof.
  apply (session_only_moves_forward
           [Finally arxiv; Finally dblp; Finally crossref]
           [Then arxiv []; Finally arxiv]).
  reflexivity.
Defined.

(** X17: the error messages of a session are those of the failed
    searches, one for each [catch] that ran, in that order: a message
    naming a source and a cause is shown exactly if that source failed
    with that cause. *)
Theorem one_error_message_per_failure (trace : list Callback) :
  errorMessages (run trace) = failures trace /\
  (forall (src : Source) (m : string),
      In (sourceLabel src ++ " request failed: " ++ m) (errorMessages (run trace))
      <-> In (Catch src m) trace) /\
  List.length (errorMessages (run trace)) =
  List.length (List.filter (fun cb => match cb with Catch _ _ => true | _ => false end)
                           trace).
Proof.
  rewrite run_errorMessages. split; [reflexivity|]. split.
  - intros src m. unfold failures. rewrite in_flat_map. split.
    + intros (cb & Hin & Hm). destruct cb as [s ps|s m'|s]; try now destruct Hm.
      destruct Hm as [Hm|[]]. apply failure_message_injective in Hm.
      destruct Hm as [-> ->]. exact Hin.
    + intros Hin. exists (Catch src m). split; [exact Hin | now left].
  - unfold failures. induction trace as [|cb trace IH]; [reflexivity|].
    cbn [flat_map List.filter]. rewrite List.length_app, IH.
    now destruct cb.
Qed.

Lemma one_error_message_per_failure_witness :
  In "DBLP request failed: HTTP 429"
     (errorMessages (run [Then arxiv []; Catch dblp "HTTP 429"; Finally arxiv])).
Proof.
  destruct (one_error_message_per_failure
              [Then arxiv []; Catch dblp "HTTP 429"; Finally arxiv])
    as (_ & H & _).
  apply (H dblp "HTTP 429"). right. left. reflexivity.
Defined.

(** X18: the records behind the items of the list are the records that
    arrived, in the order of arrival and unchanged, and each item is
    labelled with the title of its record. *)
Theorem items_carry_the_arrived_records (trace : list Callback) :
  List.map paper (items (qp (run trace))) = arrived trace /\
  List.map label (items (qp (run trace))) = List.map title (arrived trace) /\
  List.length (items (qp (run trace))) = List.length (arrived trace).
Proof.
  destruct (run_invariant trace) as (_ & -> & _).
  split; [apply paper_toItems|]. split; [|apply length_toItems].
  unfold toItems. rewrite List.map_map. reflexivity.
Qed.

(** X19: the placeholder is the initial one until the third chain has
    reached [finish]; when all chains have run it reads "Select a paper"
    if some record arrived and "No results found" if none did. *)
Theorem placeholder_tells_the_outcome :
  (forall trace : list Callback,
      finished trace < 3 ->
      placeholder (qp (run trace)) = placeholder (qp start)) /\
  (forall trace : list Callback,
      complete trace ->
      (arrived trace = [] -> placeholder (qp (run trace)) = "No results found") /\
      (arrived trace <> [] -> placeholder (qp (run trace)) = "Select a paper")).
Proof.
  split; [exact run_placeholder_before|].
  intros trace H. rewrite (run_placeholder trace H).
  destruct (run_invariant trace) as (_ & -> & _).
  split.
  - now intros ->.
  - intros Hne. destruct (arrived trace); [congruence | reflexivity].
Qed.

Lemma placeholder_tells_the_outcome_witness :
  let p := mkPaper arxiv "On Keys" ["Wang, Jianxin"] "2020" "2001.00001" None in
  placeholder (qp (run [Catch dblp "timeout"; Then arxiv [p]]))
  = placeholder (qp start) /\
  placeholder (qp (run [Catch dblp "timeout"; Then arxiv [p]; Finally arxiv;
                        Then crossref []; Finally crossref; Finally dblp]))
  = "Select a paper".
Proof.
  intros p. destruct placeholder_tells_the_outcome as (Hbefore & Hdone).
  split.
  - apply Hbefore. cbn. lia.
  - apply Hdone; [|discriminate].
    intros [| |]; [left; now exists [p] | left; now exists [] |
                   right; now exists "timeout"].
Defined.

(* ================================================================== *)
(** ** Further properties: accepting a selection *)

Section AcceptFacts.

Lemma in_appendAndSave_insert (asRelativePath : string -> string)
      (env : Environment) (entry : BibEntry)
      (bibUri u t : string) :
  In (Insert u t) (appendAndSave asRelativePath env entry bibUri) ->
  u = bibUri /\ t = Js.nl ++ text entry.
Proof.
  unfold appendAndSave. intros [H|H].
  - injection H as <- <-. now split.
  - destruct (applyEdit env); cbn in H; intuition discriminate.
Qed.


(** The effects of the handler, by the state of the workspace. *)
Lemma accept_cases (joinPath : string -> string -> string)
      (asRelativePath : string -> string) (env : Environment) :
  (selectedItems env = [] /\ onDidAccept joinPath asRelativePath env = []) \/
  exists sel rest,
    selectedItems env = sel :: rest /\
    ((bibFiles env = [] /\
      (forall root more, workspaceFolders env <> Some (root :: more)) /\
      onDidAccept joinPath asRelativePath env = [Hide; ShowError "No workspace open."]) \/
     (exists root more,
         bibFiles env = [] /\ workspaceFolders env = Some (root :: more) /\
         onDidAccept joinPath asRelativePath env =
         Hide :: WriteFile (joinPath root "references.bib") "" ::
         appendAndSave asRelativePath env (bibtex (paper sel))
                       (joinPath root "references.bib")) \/
     (exists only,
         bibFiles env = [only] /\
         onDidAccept joinPath asRelativePath env =
         Hide :: appendAndSave asRelativePath env (bibtex (paper sel)) only) \/
     (2 <= List.length (bibFiles env) /\ pickFile env = None /\
      onDidAccept joinPath asRelativePath env =
      [Hide; AskBibFile (List.map (fun f => (asRelativePath f, f)) (bibFiles env))]) \/
     (exists bibUri,
         2 <= List.length (bibFiles env) /\ pickFile env = Some bibUri /\
         onDidAccept joinPath asRelativePath env =
         Hide :: AskBibFile (List.map (fun f => (asRelativePath f, f)) (bibFiles env)) ::
         appendAndSave asRelativePath env (bibtex (paper sel)) bibUri)).
Proof.
  unfold onDidAccept.
  destruct (selectedItems env) as [|sel rest]; [now left | right].
  exists sel, rest. split; [reflexivity|]. cbv zeta.
  destruct (bibFiles env) as [|f1 [|f2 fs]].
  - destruct (workspaceFolders env) as [[|root more]|].
    + left. repeat split. discriminate.
    + right. left. now exists root, more.
    + left. repeat split. discriminate.
  - right. right. left. now exists f1.
  - right. right. right. destruct (pickFile env) as [u|].
    + right. exists u. cbn [List.length]. repeat split. lia.
    + left. cbn [List.length]. repeat split. lia.
Qed.

End AcceptFacts.



(** X21: the file is saved and "Added <key> to <file>" is shown only
    after an insertion that the editor applied, and both name the file of
    the insertion and the key of the selected record; if the editor does
    not apply the edit, nothing is saved and the failure is shown. *)
Theorem accept_reports_what_happened
        (joinPath : string -> string -> string) (asRelativePath : string -> string)
        (env : Environment) :
  (forall u : string,
      In (Save u) (onDidAccept joinPath asRelativePath env) ->
      applyEdit env = true /\
      exists t, In (Insert u t) (onDidAccept joinPath asRelativePath env)) /\
  (forall m : string,
      In (ShowInformation m) (onDidAccept joinPath asRelativePath env) ->
      applyEdit env = true /\
      exists sel rest u t,
        selectedItems env = sel :: rest /\
        In (Insert u t) (onDidAccept joinPath asRelativePath env) /\
        m = "Added " ++ key (bibtex (paper sel)) ++ " to " ++ asRelativePath u) /\
  (forall u t : string,
      In (Insert u t) (onDidAccept joinPath asRelativePath env) ->
      if applyEdit env
      then In (Save u) (onDidAccept joinPath asRelativePath env)
      else In (ShowError "Failed to update .bib file.")
              (onDidAccept joinPath asRelativePath env)).
Proof.
  assert (Hafter : forall entry bibUri,
             (forall u, In (Save u) (appendAndSave asRelativePath env entry bibUri) ->
                        applyEdit env = true /\ u = bibUri) /\
             (forall m, In (ShowInformation m)
                           (appendAndSave asRelativePath env entry bibUri) ->
                        applyEdit env = true /\
                        m = "Added " ++ key entry ++ " to " ++ asRelativePath bibUri) /\
             In (Insert bibUri (Js.nl ++ text entry))
                (appendAndSave asRelativePath env entry bibUri) /\
             (if applyEdit env
              then In (Save bibUri) (appendAndSave asRelativePath env entry bibUri)
              else In (ShowError "Failed to update .bib file.")
                      (appendAndSave asRelativePath env entry bibUri))).
  { intros entry bibUri. unfold appendAndSave.
    destruct (applyEdit env); (split; [|split; [|split]]).
    - intros u [H|[H|[H|[]]]]; try discriminate. injection H as <-. now split.
    - intros m [H|[H|[H|[]]]]; try discriminate. injection H as <-. now split.
    - now left.
    - right. now left.
    - intros u [H|[H|[]]]; discriminate.
    - intros m [H|[H|[]]]; discriminate.
    - now left.
    - right. now left. }
  destruct (accept_cases joinPath asRelativePath env)
    as [[Hsel E]|(sel & rest & Hsel & Hcase)].
  { rewrite E. split; [|split]; [intros ? [] | intros ? [] | intros ? ? []]. }
  destruct Hcase as [(Hb & Hw & E)|[(root & more & Hb & Hw & E)|
                     [(only & Hb & E)|[(Hb & Hp & E)|(bibUri & Hb & Hp & E)]]]];
    rewrite E;
    try (split; [|split]; intros x; intros;
         repeat match goal with
                | H : In _ (_ :: _) |- _ => destruct H as [H|H]; try discriminate
                | H : In _ [] |- _ => destruct H
                end; fail).
  - destruct (Hafter (bibtex (paper sel)) (joinPath root "references.bib"))
      as (Hs & Hm & Hi & Hr).
    split; [|split].
    + intros u [H|[H|H]]; try discriminate. destruct (Hs u H) as [Hok ->].
      split; [exact Hok|]. eexists. right. right. exact Hi.
    + intros m [H|[H|H]]; try discriminate. destruct (Hm m H) as [Hok ->].
      split; [exact Hok|]. exists sel, rest. do 2 eexists.
      split; [exact Hsel|]. split; [right; right; exact Hi | reflexivity].
    + intros u t [H|[H|H]]; try discriminate.
      apply in_appendAndSave_insert in H. destruct H as [-> _].
      destruct (applyEdit env); right; right; exact Hr.
  - destruct (Hafter (bibtex (paper sel)) only) as (Hs & Hm & Hi & Hr).
    split; [|split].
    + intros u [H|H]; try discriminate. destruct (Hs u H) as [Hok ->].
      split; [exact Hok|]. eexists. right. exact Hi.
    + intros m [H|H]; try discriminate. destruct (Hm m H) as [Hok ->].
      split; [exact Hok|]. exists sel, rest. do 2 eexists.
      split; [exact Hsel|]. split; [right; exact Hi | reflexivity].
    + intros u t [H|H]; try discriminate.
      apply in_appendAndSave_insert in H. destruct H as [-> _].
      destruct (applyEdit env); right; exact Hr.
  - destruct (Hafter (bibtex (paper sel)) bibUri) as (Hs & Hm & Hi & Hr).
    split; [|split].
    + intros u [H|[H|H]]; try discriminate. destruct (Hs u H) as [Hok ->].
      split; [exact Hok|]. eexists. right. right. exact Hi.
    + intros m [H|[H|H]]; try discriminate. destruct (Hm m H) as [Hok ->].
      split; [exact Hok|]. exists sel, rest. do 2 eexists.
      split; [exact Hsel|]. split; [right; right; exact Hi | reflexivity].
    + intros u t [H|[H|H]]; try discriminate.
      apply in_appendAndSave_insert in H. destruct H as [-> _].
      destruct (applyEdit env); right; right; exact Hr.
Qed.

Lemma accept_reports_what_happened_witness :
  let p := mkPaper arxiv "On Keys" ["Wang, Jianxin"] "2020" "2001.00001" None in
  let env := mkEnvironment [mkItem "On Keys" "Wang, Jianxin (2020) [arXiv]" p]
                           ["file:///w/refs.bib"] None None false in
  In (ShowError "Failed to update .bib file.")
     (onDidAccept (fun a b => a ++ "/" ++ b) (fun u => u) env).
Proof.
  intros p env.
  destruct (accept_reports_what_happened
              (fun a b => a ++ "/" ++ b) (fun u => u) env) as (_ & _ & H).
  apply (H "file:///w/refs.bib" (Js.nl ++ text (bibtex p))).
  cbn. right. left. reflexivity.
Defined.

(* ================================================================== *)
(** ** Further properties: the title as the adapters normalise it *)

Section TitleNormalisation.

Lemma title_words_unfold (t : string) :
  title_words t = words_of (Js.split_ws_from false t).
Proof. reflexivity. Qed.

Lemma words_of_cons_empty (l : list string) : words_of ("" :: l) = words_of l.
Proof. reflexivity. Qed.

Lemma same_words_words (l l' : list string) :
  same_words l l' -> words_of l = words_of l'.
Proof.
  intros (h & t & t' & -> & -> & E). unfold words_of in *.
  cbn [List.map List.filter]. now rewrite E.
Qed.

Lemma same_words_push (c : ascii) (l l' : list string) :
  same_words l l' -> same_words (Js.push_char c l) (Js.push_char c l').
Proof.
  intros (h & t & t' & -> & -> & E). now exists (String c h), t, t'.
Qed.

Lemma same_words_refl (l : list string) : l <> [] -> same_words l l.
Proof. destruct l as [|h t]; [congruence|]. now exists h, t, t. Qed.

Lemma split_ws_collapse (s : string) (b : bool) :
  Js.split_ws_from b (Js.collapse_from b s) = Js.split_ws_from b s.
Proof.
  revert b. induction s as [|c s IH]; intros b; [reflexivity|].
  cbn [Js.collapse_from Js.split_ws_from]. destruct (Js.is_space c) eqn:Sc.
  - destruct b; [apply IH|].
    cbn [Js.split_ws_from]. change (Js.is_space " ") with true. cbn iota.
    now rewrite IH.
  - cbn [Js.split_ws_from]. now rewrite Sc, IH.
Qed.

Lemma words_dropStart (s : string) (b b' : bool) :
  words_of (Js.split_ws_from b (Js.dropStart Js.is_space s)) =
  words_of (Js.split_ws_from b' s).
Proof.
  revert b b'. induction s as [|c s IH]; intros b b'; [reflexivity|].
  cbn [Js.dropStart]. destruct (Js.is_space c) eqn:Sc.
  - cbn [Js.split_ws_from]. rewrite Sc.
    destruct b'; [apply IH|]. rewrite words_of_cons_empty. apply IH.
  - cbn [Js.split_ws_from]. now rewrite Sc.
Qed.

Lemma split_ws_space (c : ascii) (s : string) (b : bool) :
  Js.is_space c = true ->
  Js.split_ws_from b (String c s) =
  if b then Js.split_ws_from true s else "" :: Js.split_ws_from true s.
Proof. intros Sc. cbn [Js.split_ws_from]. now rewrite Sc. Qed.

Lemma same_words_dropEnd (s : string) (b : bool) :
  same_words (Js.split_ws_from b (Js.dropEnd Js.is_space s))
             (Js.split_ws_from b s).
Proof.
  revert b. induction s as [|c s IH]; intros b.
  - now exists "", [], [].
  - cbn [Js.dropEnd]. cbv zeta.
    destruct (Js.is_space c) eqn:Sc; cbn [andb].
    + rewrite (split_ws_space c s b Sc).
      destruct (Js.is_empty (Js.dropEnd Js.is_space s)) eqn:E.
      * apply is_empty_true in E.
        pose proof (IH true) as (h & t & t' & E1 & E2 & Ew).
        rewrite E in E1. cbn [Js.split_ws_from] in E1. injection E1 as <- <-.
        rewrite E2. destruct b.
        -- now exists "", [], t'.
        -- exists "", [], ("" :: t'). repeat split. now rewrite words_of_cons_empty.
      * rewrite (split_ws_space c _ b Sc).
        destruct b; [apply IH|].
        exists "", (Js.split_ws_from true (Js.dropEnd Js.is_space s)),
               (Js.split_ws_from true s).
        repeat split. apply same_words_words, IH.
    + cbn [Js.split_ws_from]. rewrite Sc. apply same_words_push, IH.
Qed.

Lemma title_words_collapse (t : string) :
  title_words (Js.collapse_ws t) = title_words t.
Proof.
  rewrite !title_words_unfold. unfold Js.collapse_ws. now rewrite split_ws_collapse.
Qed.

Lemma title_words_trim (t : string) : title_words (Js.trim t) = title_words t.
Proof.
  rewrite !title_words_unfold. unfold Js.trim.
  rewrite (same_words_words _ _ (same_words_dropEnd _ false)).
  apply words_dropStart.
Qed.

Lemma firstWord_of_words (t t' : string) :
  title_words t = title_words t' -> firstWord t = firstWord t'.
Proof. unfold firstWord. cbv zeta. now intros ->. Qed.

End TitleNormalisation.

(** X22: trimming a title and collapsing its white space, as the arXiv
    and DBLP adapters do, changes neither its words nor its first
    significant word: the key built from the record's title is the key
    built from the raw title. *)
Theorem title_normalisation_keeps_the_key :
  (forall t : string,
      title_words (Js.collapse_ws (Js.trim t)) = title_words t /\
      firstWord (Js.collapse_ws (Js.trim t)) = firstWord t) /\
  (forall t : string,
      title_words (Js.collapse_ws t) = title_words t /\
      firstWord (Js.collapse_ws t) = firstWord t) /\
  (forall (e : JsVal) (p : Paper),
      arxivEntry e = Some p ->
      exists t, oget e "title" = JStr t /\ firstWord (title p) = firstWord t).
Proof.
  assert (H1 : forall t, title_words (Js.collapse_ws (Js.trim t)) = title_words t).
  { intros t. now rewrite title_words_collapse, title_words_trim. }
  split; [|split].
  - intros t. split; [apply H1 | apply firstWord_of_words, H1].
  - intros t. split; [apply title_words_collapse|].
    apply firstWord_of_words, title_words_collapse.
  - intros e p H. apply arxivEntry_title in H. destruct H as (t & Ht & ->).
    exists t. split; [exact Ht | apply firstWord_of_words, H1].
Qed.

Lemma title_normalisation_keeps_the_key_witness :
  exists p,
    arxivEntry (JObj [("title", JStr "  The  Annotated
   Transformer ");
                      ("author", JObj [("name", JStr "Sasha Rush")]);
                      ("published", JStr "2018-04-03T00:00:00Z");
                      ("id", JStr "http://arxiv.org/abs/1804.00001v1")])
    = Some p /\
    firstWord (title p) = firstWord "  The  Annotated
   Transformer ".
Proof.
  eexists. split; [vm_compute; reflexivity|].
  destruct title_normalisation_keeps_the_key as (_ & _ & H).
  destruct (H (JObj [("title", JStr "  The  Annotated
   Transformer ");
                     ("author", JObj [("name", JStr "Sasha Rush")]);
                     ("published", JStr "2018-04-03T00:00:00Z");
                     ("id", JStr "http://arxiv.org/abs/1804.00001v1")])
              _ eq_refl) as (t & Ht & E).
  injection Ht as <-. exact E.
Defined.

Section BundledVersion.

Lemma line_breaks_split (s : string) (b : bool) :
  Js.split_ws_from b (Dist.line_breaks_to_spaces s) = Js.split_ws_from b s.
Proof.
  revert b. induction s as [|c s IH]; intros b; [reflexivity|].
  cbn [Dist.line_breaks_to_spaces Js.split_ws_from].
  destruct (Ascii.eqb c "013" || Ascii.eqb c "010") eqn:E.
  - assert (Sc : Js.is_space c = true).
    { apply orb_true_iff in E. destruct E as [E|E];
        apply Ascii.eqb_eq in E; now subst. }
    rewrite Sc. change (Js.is_space " ") with true. cbn iota. now rewrite IH.
  - now rewrite !IH.
Qed.

Lemma dist_titleWords (t : string) : Dist.titleWords t = title_words t.
Proof.
  unfold Dist.titleWords, Js.split_ws. rewrite line_breaks_split.
  apply (title_words_trim t).
Qed.

End BundledVersion.

(** X23: the bundled first version builds its key from the last word of
    the first author's name (the whole name if that word is empty), the
    first four characters of the date, and the first word of the title,
    "paper" if there is none.  Its words are the words of the present
    version, but it does not skip stopwords: for "The Attention Is All You
    Need" its title fragment is "the", the present one "attention". *)
Theorem bundled_key_takes_the_first_word :
  (forall t : string, Dist.titleWords t = title_words t) /\
  (forall (entry : JsVal) (e : BibEntry),
      Dist.entryToBib entry = Some e ->
      exists name published t,
        ((exists a rest, oget entry "author" = JArr (a :: rest) /\
                         oget a "name" = JStr name) \/
         ((forall l, oget entry "author" <> JArr l) /\
          oget (oget entry "author") "name" = JStr name)) /\
        oget entry "published" = JStr published /\
        oget entry "title" = JStr t /\
        key e = clean (Dist.lastTokenOrAll name) ++ Js.slice_0_4 published ++
                clean (hd "paper" (title_words t)) /\
        String.prefix ("@article{" ++ key e ++ ",") (text e) = true) /\
  (forall t : string,
      is_stopword (hd "paper" (title_words t)) = false ->
      hd "paper" (title_words t) = firstWord t) /\
  clean (hd "paper" (Dist.titleWords "The Attention Is All You Need")) = "the" /\
  clean (firstWord "The Attention Is All You Need") = "attention".
Proof.
  split; [exact dist_titleWords|]. split; [|split; [|split; reflexivity]].
  - intros entry e H. unfold Dist.entryToBib in H.
    apply bind_Some in H. destruct H as (au & Hau & H).
    apply get_Some in Hau. destruct Hau as [_ ->].
    apply bind_Some in H. destruct H as (authorsArr & Harr & H).
    apply bind_Some in H. destruct H as (p0 & Hp0 & H).
    apply get_Some in Hp0. destruct Hp0 as [_ ->].
    apply bind_Some in H. destruct H as (published & Hpub & H).
    apply bind_Some in H. destruct H as (f0 & Hf0 & H).
    apply bind_Some in H. destruct H as (name & Hname & H).
    assert (Hfirst :
              (exists a rest, oget entry "author" = JArr (a :: rest) /\
                              oget a "name" = JStr name) \/
              ((forall l, oget entry "author" <> JArr l) /\
               oget (oget entry "author") "name" = JStr name)).
    { destruct f0; try discriminate. injection Hname as ->.
      destruct (oget entry "author") as [| |b|r|s|l|props] eqn:Eau;
        try (right; split; [discriminate|];
             apply bind_Some in Harr; destruct Harr as (n & Hn & Harr);
             apply get_Some in Hn; destruct Hn as [_ ->];
             injection Harr as <-; cbn in Hf0; now injection Hf0).
      left. destruct l as [|a rest]; [cbn in Harr; injection Harr as <-; discriminate|].
      exists a, rest. split; [reflexivity|].
      cbn [mapM] in Harr.
      apply bind_Some in Harr. destruct Harr as (n & Hn & Harr).
      apply get_Some in Hn. destruct Hn as [_ ->].
      apply bind_Some in Harr. destruct Harr as (ns & _ & Harr).
      injection Harr as <-. cbn in Hf0. now injection Hf0. }
    apply bind_Some in H. destruct H as (t0 & Ht0 & H).
    apply get_Some in Ht0. destruct Ht0 as [_ ->].
    apply bind_Some in H. destruct H as (t & Ht & H).
    apply bind_Some in H. destruct H as (i0 & _ & H).
    apply bind_Some in H. destruct H as (i & _ & H).
    cbv zeta in H.
    apply bind_Some in H. destruct H as (authorsBib & _ & H).
    injection H as <-.
    destruct (oget entry "published"); try discriminate. injection Hpub as ->.
    destruct (oget entry "title"); try discriminate. injection Ht as ->.
    exists name, published, t. cbn [key text]. rewrite dist_titleWords.
    split; [exact Hfirst|]. repeat split. apply (prefix_three "@article{" _ ",").
  - intros t Hs. unfold firstWord. cbv zeta.
    destruct (title_words t) as [|w ws]; [reflexivity|].
    cbn [hd] in *. cbn [List.find]. unfold is_stopword in Hs. now rewrite Hs.
Qed.

Lemma bundled_key_takes_the_first_word_witness :
  exists e,
    Dist.entryToBib (JObj [("title", JStr "A Neural Probabilistic Language Model");
                           ("author", JArr [JObj [("name", JStr "Yoshua Bengio")]]);
                           ("published", JStr "2003-02-01T00:00:00Z");
                           ("id", JStr "http://arxiv.org/abs/cs/0302001v1")])
    = Some e /\ key e = "bengio2003a" /\
  hd "paper" (title_words "Neural Models") = firstWord "Neural Models".
Proof.
  eexists. split; [vm_compute; reflexivity|].
  destruct bundled_key_takes_the_first_word as (_ & _ & H & _).
  split; [reflexivity | now apply (H "Neural Models")].
Defined.
